(** * slidegen: the document-assembly pipeline and its repair engine

    A shallow embedding of the converter package (stage 1 structure
    extraction, stage 2 response parsing, the LaTeX clean-up passes of
    [converter/utils/latex_processing.py] and the finalisation wrapper of
    [converter/converter.py]), followed by the properties stated about it.

    Conventions.
    - A Python [str] is a list of characters ([list ascii]).  Non-ASCII
      characters of the source (typographic dashes, Greek letters) appear as
      their UTF-8 bytes; the classes [\s] and [\d] are Python's on the ASCII
      range, and a one-character class consumes one byte.  On ASCII text the
      model coincides with Python.
    - Code that can raise returns a [result]; the only exception raised by
      the embedded functions is [ValueError].
    - [print] calls are diagnostics and are left out.
    - Regular expressions are kept as data ([regex]) and run by a small
      backtracking matcher with Python's priorities (leftmost match, greedy
      before shorter, lazy before longer). *)

From Stdlib Require Import Ascii String.
From Stdlib Require Import Numbers.DecimalString.
From Stdlib Require Import Bool Arith ZArith Lia List.
Import ListNotations.
Open Scope list_scope.

(* ===================================================================== *)
(** ** Python strings *)
(* ===================================================================== *)

Definition str := list ascii.

(** A source literal. *)
Definition lit (s : string) : str := list_ascii_of_string s.

Definition nl : ascii := "010"%char.
Definition dquote : ascii := "034"%char.

Fixpoint str_eqb (a b : str) : bool :=
  match a, b with
  | [], [] => true
  | x :: a', y :: b' => Ascii.eqb x y && str_eqb a' b'
  | _, _ => false
  end.

(** [s.startswith(p)] *)
Fixpoint startswith (p s : str) : bool :=
  match p, s with
  | [], _ => true
  | x :: p', y :: s' => Ascii.eqb x y && startswith p' s'
  | _ :: _, [] => false
  end.

(** [s.endswith(p)] *)
Definition endswith (p s : str) : bool := startswith (rev p) (rev s).

(** [p in s] *)
Fixpoint contains (p s : str) : bool :=
  startswith p s || match s with [] => false | _ :: s' => contains p s' end.

(** [s.find(p)]: lowest index of [p], or -1. *)
Fixpoint find_from (p s : str) (i : Z) : Z :=
  if startswith p s then i
  else match s with [] => (-1)%Z | _ :: s' => find_from p s' (i + 1)%Z end.

Definition find (p s : str) : Z := find_from p s 0.

(** [s.rfind(p)]: highest index of [p], or -1. *)
Fixpoint rfind_from (p s : str) (i : Z) : Z :=
  match s with
  | [] => if startswith p [] then i else (-1)%Z
  | _ :: s' =>
      let r := rfind_from p s' (i + 1)%Z in
      if (r =? -1)%Z then (if startswith p s then i else (-1)%Z) else r
  end.

Definition rfind (p s : str) : Z := rfind_from p s 0.

(** [s[a:b]] with Python's treatment of negative and out-of-range bounds. *)
Definition slice_index (len i : Z) : nat :=
  let j := if (i <? 0)%Z then (i + len)%Z else i in
  Z.to_nat (Z.min len (Z.max 0 j)).

Definition slice (s : str) (a b : Z) : str :=
  let len := Z.of_nat (length s) in
  let a' := slice_index len a in
  let b' := slice_index len b in
  firstn (b' - a') (skipn a' s).

(** [s[a:]] *)
Definition slice_from (s : str) (a : Z) : str :=
  skipn (slice_index (Z.of_nat (length s)) a) s.

(** [s.count(c)] for a one-character [c]. *)
Definition count_chr (c : ascii) (s : str) : nat :=
  length (filter (Ascii.eqb c) s).

(** [s.replace(old, new)] for a non-empty [old]: non-overlapping
    occurrences, leftmost first.  [skip] counts the characters of an
    occurrence still to be passed over. *)
Fixpoint replace_aux (old new : str) (skip : nat) (s : str) : str :=
  match s with
  | [] => []
  | c :: s' =>
      match skip with
      | S k => replace_aux old new k s'
      | O =>
          if startswith old s
          then new ++ replace_aux old new (length old - 1) s'
          else c :: replace_aux old new 0 s'
      end
  end.

Definition replace (old new s : str) : str := replace_aux old new 0 s.

(** [s.replace(old, new, 1)] *)
Fixpoint replace_first (old new s : str) : str :=
  if startswith old s then new ++ skipn (length old) s
  else match s with [] => [] | c :: s' => c :: replace_first old new s' end.

Definition cons_head (c : ascii) (l : list str) : list str :=
  match l with
  | [] => [[c]]
  | x :: l' => (c :: x) :: l'
  end.

(** [s.split(sep)] for a non-empty [sep]. *)
Fixpoint split_aux (sep : str) (skip : nat) (s : str) : list str :=
  match s with
  | [] => [[]]
  | c :: s' =>
      match skip with
      | S k => split_aux sep k s'
      | O =>
          if startswith sep s
          then [] :: split_aux sep (length sep - 1) s'
          else cons_head c (split_aux sep 0 s')
      end
  end.

Definition split (sep s : str) : list str := split_aux sep 0 s.

(** [sep.join(l)] *)
Fixpoint join (sep : str) (l : list str) : str :=
  match l with
  | [] => []
  | [x] => x
  | x :: l' => x ++ sep ++ join sep l'
  end.

(** Python's whitespace on the ASCII range: TAB, LF, VT, FF, CR,
    FS, GS, RS, US and the space. *)
Definition isspace (c : ascii) : bool :=
  let n := nat_of_ascii c in
  ((9 <=? n) && (n <=? 13)) || ((28 <=? n) && (n <=? 32)).

Definition isdigit (c : ascii) : bool :=
  let n := nat_of_ascii c in (48 <=? n) && (n <=? 57).

Fixpoint lstrip_by (p : ascii -> bool) (s : str) : str :=
  match s with
  | [] => []
  | c :: s' => if p c then lstrip_by p s' else s
  end.

Definition rstrip_by (p : ascii -> bool) (s : str) : str :=
  rev (lstrip_by p (rev s)).

(** [s.strip()] *)
Definition strip (s : str) : str := rstrip_by isspace (lstrip_by isspace s).

(** [os.path.basename(p)] (POSIX): what follows the last slash. *)
Definition basename (p : str) : str :=
  slice_from p (rfind (lit "/") p + 1)%Z.

(** [str(n)] for a natural number, as an f-string prints it. *)
Definition str_of_nat (n : nat) : str :=
  lit (NilEmpty.string_of_uint (Nat.to_uint n)).

(** Python counts and slices by character, and a [str] holds the UTF-8
    bytes: a character starts at every byte that is no continuation byte
    (one of the form 10xxxxxx). *)
Definition is_continuation (c : ascii) : bool :=
  let n := nat_of_ascii c in (128 <=? n) && (n <? 192).

(** [len(s)] *)
Definition len (s : str) : nat :=
  length (filter (fun c => negb (is_continuation c)) s).

(** [s[:n]] for [n >= 0]: the first [n] characters. *)
Fixpoint prefix (n : nat) (s : str) : str :=
  match s with
  | [] => []
  | c :: s' =>
      if is_continuation c then c :: prefix n s'
      else match n with
           | O => []
           | S k => c :: prefix k s'
           end
  end.

(** Exceptions and results. *)
Inductive exn : Type :=
| ValueError (msg : str)
| RecursionError (msg : str)
| APIError (msg : str).

Inductive result (A : Type) : Type :=
| Ok (a : A)
| Raise (e : exn).
Arguments Ok {A} a.
Arguments Raise {A} e.

Definition bind {A B : Type} (r : result A) (f : A -> result B) : result B :=
  match r with
  | Ok a => f a
  | Raise e => Raise e
  end.

Notation "x <- r ;; k" := (bind r (fun x => k))
  (at level 61, r at next level, right associativity).

(* ===================================================================== *)
(** ** Regular expressions (the fragment of [re] the program uses) *)
(* ===================================================================== *)

(** Repetition is only ever applied to a one-character class in the
    program's patterns, and groups are never nested. *)
Inductive atom : Type :=
| Lit (w : str)                 (* literal text *)
| One (p : ascii -> bool)       (* one character of a class *)
| Star (p : ascii -> bool)      (* class*   greedy *)
| Plus (p : ascii -> bool)      (* class+   greedy *)
| Lazy (p : ascii -> bool)      (* class*?  lazy *)
| Eol.                          (* $ under re.MULTILINE *)

Inductive item : Type :=
| A (a : atom)
| G (inner : list atom).        (* a capturing group *)

Definition regex := list item.

Definition not_chr (c : ascii) : ascii -> bool := fun x => negb (Ascii.eqb x c).
(** [.] without re.DOTALL, and with it. *)
Definition dot : ascii -> bool := not_chr nl.
Definition dot_all : ascii -> bool := fun _ => true.

Section Matcher.
Context {R : Type}.

(** A continuation receives the remaining input and the number of
    characters consumed so far; [None] makes the matcher backtrack. *)
Definition kont := str -> nat -> option R.

Fixpoint star_m (p : ascii -> bool) (k : kont) (s : str) (n : nat) : option R :=
  match s with
  | c :: s' =>
      if p c then
        match star_m p k s' (S n) with
        | Some r => Some r
        | None => k s n
        end
      else k s n
  | [] => k s n
  end.

Fixpoint lazy_m (p : ascii -> bool) (k : kont) (s : str) (n : nat) : option R :=
  match k s n with
  | Some r => Some r
  | None =>
      match s with
      | c :: s' => if p c then lazy_m p k s' (S n) else None
      | [] => None
      end
  end.

Definition atom_m (a : atom) (k : kont) : kont := fun s n =>
  match a with
  | Lit w =>
      if startswith w s then k (skipn (length w) s) (n + length w) else None
  | One p =>
      match s with
      | c :: s' => if p c then k s' (S n) else None
      | [] => None
      end
  | Star p => star_m p k s n
  | Plus p =>
      match s with
      | c :: s' => if p c then star_m p k s' (S n) else None
      | [] => None
      end
  | Lazy p => lazy_m p k s n
  | Eol =>
      match s with
      | [] => k s n
      | c :: _ => if Ascii.eqb c nl then k s n else None
      end
  end.

Fixpoint atoms_m (l : list atom) (k : kont) : kont :=
  match l with
  | [] => k
  | a :: l' => atom_m a (atoms_m l' k)
  end.
End Matcher.

(** Matching a pattern at the start of [s]: the length of the match and the
    text of its groups, in order. *)
Fixpoint items_m (l : list item) (caps : list str) : @kont (nat * list str) :=
  match l with
  | [] => fun _ n => Some (n, rev caps)
  | A a :: l' => atom_m a (items_m l' caps)
  | G inner :: l' => fun s n =>
      atoms_m inner (fun s' n' => items_m l' (firstn (n' - n) s :: caps) s' n') s n
  end.

Definition re_match (r : regex) (s : str) : option (nat * list str) :=
  items_m r [] s 0.

(** One left-to-right scan for non-overlapping matches, shared by
    [re.sub], [re.findall] and [re.search].  Every pattern of the program
    starts with a literal or a one-character class, so a match is never
    empty. *)
Inductive token : Type :=
| Chr (c : ascii)
| Hit (whole : str) (groups : list str).

Fixpoint re_scan (r : regex) (skip : nat) (s : str) : list token :=
  match s with
  | [] => []
  | c :: s' =>
      match skip with
      | S k => re_scan r k s'
      | O =>
          match re_match r s with
          | Some (n, gs) => Hit (firstn n s) gs :: re_scan r (n - 1) s'
          | None => Chr c :: re_scan r 0 s'
          end
      end
  end.

(** [re.sub(r, repl, s)]; [repl] receives the matched text and its groups. *)
Definition emit (repl : str -> list str -> str) (t : token) : str :=
  match t with
  | Chr c => [c]
  | Hit w gs => repl w gs
  end.

Definition re_sub (r : regex) (repl : str -> list str -> str) (s : str) : str :=
  flat_map (emit repl) (re_scan r 0 s).

(** [re.findall(r, s)]: the groups of every match. *)
Fixpoint hits (l : list token) : list (list str) :=
  match l with
  | [] => []
  | Chr _ :: l' => hits l'
  | Hit _ gs :: l' => gs :: hits l'
  end.

Definition re_findall (r : regex) (s : str) : list (list str) :=
  hits (re_scan r 0 s).

(** [re.search(r, s)]: the groups of the leftmost match. *)
Definition re_search (r : regex) (s : str) : option (list str) :=
  match re_findall r s with
  | [] => None
  | gs :: _ => Some gs
  end.

(** Group [i] of a match (numbered from 1, as in a template). *)
Definition grp (i : nat) (gs : list str) : str := nth (i - 1) gs [].

(* ===================================================================== *)
(** ** converter/utils/latex_processing.py *)
(* ===================================================================== *)

Module latex_processing.

(** The patterns of the module, each under the source text of its pattern
    (a blank written before a closing parenthesis is not part of it). *)

(* "\\end\{document\}.*$"   (re.MULTILINE) *)
Definition re_end_document : regex :=
  [A (Lit (lit "\end{document}")); A (Star dot); A Eol].

(* "\\centering\s*\n\s*\\includegraphics" *)
Definition re_centering_include : regex :=
  [A (Lit (lit "\centering")); A (Star isspace); A (Lit [nl]); A (Star isspace);
   A (Lit (lit "\includegraphics"))].

(* "\\centering\s*\n\s*\\includegraphics([^}]+)\}\s*\n\s*\\end\{frame\}" *)
Definition re_centering_include_end : regex :=
  [A (Lit (lit "\centering")); A (Star isspace); A (Lit [nl]); A (Star isspace);
   A (Lit (lit "\includegraphics")); G [Plus (not_chr "}")]; A (Lit (lit "}"));
   A (Star isspace); A (Lit [nl]); A (Star isspace); A (Lit (lit "\end{frame}"))].

(* "\\begin\{frame\}"  and  "\\end\{frame\}" *)
Definition re_begin_frame : regex := [A (Lit (lit "\begin{frame}"))].
Definition re_end_frame : regex := [A (Lit (lit "\end{frame}"))].

(* "\\includegraphics\[[^\]]*\]\{([^}]+)\}" *)
Definition re_includegraphics : regex :=
  [A (Lit (lit "\includegraphics[")); A (Star (not_chr "]")); A (Lit (lit "]{"));
   G [Plus (not_chr "}")]; A (Lit (lit "}"))].

(* "\\includegraphics\[([^\]]* )\]\{([^}]+)\}" *)
Definition re_includegraphics_size_path : regex :=
  [A (Lit (lit "\includegraphics[")); G [Star (not_chr "]")]; A (Lit (lit "]{"));
   G [Plus (not_chr "}")]; A (Lit (lit "}"))].

(* "\\includegraphics\[[^\]]*\]\{[^}]*"  + re.escape(filename) +  "[^}]*\}" *)
Definition re_reference_to (filename : str) : regex :=
  [A (Lit (lit "\includegraphics[")); A (Star (not_chr "]")); A (Lit (lit "]{"));
   A (Star (not_chr "}")); A (Lit filename); A (Star (not_chr "}"));
   A (Lit (lit "}"))].

(* "([^$])\&([^$])" *)
Definition re_ampersand : regex :=
  [G [One (not_chr "$")]; A (Lit (lit "&")); G [One (not_chr "$")]].

(* "\\begin\{enumerate\}"  and  "\\end\{enumerate\}" *)
Definition re_begin_enumerate : regex := [A (Lit (lit "\begin{enumerate}"))].
Definition re_end_enumerate : regex := [A (Lit (lit "\end{enumerate}"))].

(* "\\begin\{align\*\}(.*?)\\end\{align\*\}"   (re.DOTALL) *)
Definition re_align : regex :=
  [A (Lit (lit "\begin{align*}")); G [Lazy dot_all]; A (Lit (lit "\end{align*}"))].

(* "\\includegraphics\[([^\]]* )\]\{images/images/([^}]+)\}" *)
Definition re_double_images : regex :=
  [A (Lit (lit "\includegraphics[")); G [Star (not_chr "]")];
   A (Lit (lit "]{images/images/")); G [Plus (not_chr "}")]; A (Lit (lit "}"))].

(* "\\includegraphics\[([^\]]* )\]\{([^}]* )/images/([^}]+)\}" *)
Definition re_other_images : regex :=
  [A (Lit (lit "\includegraphics[")); G [Star (not_chr "]")]; A (Lit (lit "]{"));
   G [Star (not_chr "}")]; A (Lit (lit "/images/")); G [Plus (not_chr "}")];
   A (Lit (lit "}"))].

(* "\\includegraphics\[([^\]]* )\]\{([^}]*page_\d+_img_\d+\.png[^}]* )\}" *)
Definition re_page_img : regex :=
  [A (Lit (lit "\includegraphics[")); G [Star (not_chr "]")]; A (Lit (lit "]{"));
   G [Star (not_chr "}"); Lit (lit "page_"); Plus isdigit; Lit (lit "_img_");
      Plus isdigit; Lit (lit ".png"); Star (not_chr "}")];
   A (Lit (lit "}"))].

(* "\\includegraphics\[([^\]]* )\]\{([^}]*output/[^}]*page_\d+_img_\d+\.png[^}]* )\}" *)
Definition re_output_page_img : regex :=
  [A (Lit (lit "\includegraphics[")); G [Star (not_chr "]")]; A (Lit (lit "]{"));
   G [Star (not_chr "}"); Lit (lit "output/"); Star (not_chr "}");
      Lit (lit "page_"); Plus isdigit; Lit (lit "_img_");
      Plus isdigit; Lit (lit ".png"); Star (not_chr "}")];
   A (Lit (lit "}"))].

(** [len(re.findall(pattern, s))] *)
Definition count_matches (r : regex) (s : str) : nat := length (re_findall r s).

Definition _fix_unicode_characters (latex_content : str) : str :=
  let latex_content := replace (lit "−") (lit "-") latex_content in
  let latex_content := replace (lit "–") (lit "--") latex_content in
  let latex_content := replace (lit "—") (lit "---") latex_content in
  latex_content.

Definition frame_mismatch_msg (begin_frames end_frames : nat) : str :=
  lit "Frame mismatch: " ++ str_of_nat begin_frames ++ lit " begin frames, "
  ++ str_of_nat end_frames ++ lit " end frames".

Definition _fix_latex_syntax (latex_content : str) : result str :=
  let latex_content :=
    re_sub re_ampersand (fun _ gs => grp 1 gs ++ lit "\&" ++ grp 2 gs) latex_content in
  let latex_content :=
    re_sub re_begin_enumerate (fun _ _ => lit "\begin{itemize}") latex_content in
  let latex_content :=
    re_sub re_end_enumerate (fun _ _ => lit "\end{itemize}") latex_content in
  let begin_frames := count_matches re_begin_frame latex_content in
  let end_frames := count_matches re_end_frame latex_content in
  if negb (begin_frames =? end_frames)
  then Raise (ValueError (frame_mismatch_msg begin_frames end_frames))
  else Ok latex_content.

(** The replacement callback of [_fix_math_environments]. *)
Definition fix_align_environment (whole : str) (gs : list str) : str :=
  let content := grp 1 gs in
  if contains (lit "\text{") content then
    let parts := split (lit "\\") content in
    let math_parts :=
      map strip (filter (fun part => negb (contains (lit "\text{") part)) parts) in
    let text_parts :=
      map strip (filter (fun part => contains (lit "\text{") part) parts) in
    match math_parts, text_parts with
    | _ :: _, _ :: _ =>
        join [nl]
          [ lit "\begin{align*}" ++ [nl] ++ join (lit " \\" ++ [nl]) math_parts
              ++ [nl] ++ lit "\end{align*}" ++ [nl];
            join [nl] text_parts ]
    | _, _ => whole
    end
  else whole.

Definition _fix_math_environments (latex_content : str) : str :=
  re_sub re_align fix_align_environment latex_content.

Definition brace_mismatch_msg (open_braces close_braces : nat) : str :=
  lit "Brace mismatch: " ++ str_of_nat open_braces ++ lit " open braces, "
  ++ str_of_nat close_braces ++ lit " close braces".

Definition _fix_brace_matching (latex_content : str) : result str :=
  let open_braces := count_chr "{" latex_content in
  let close_braces := count_chr "}" latex_content in
  if negb (open_braces =? close_braces)
  then Raise (ValueError (brace_mismatch_msg open_braces close_braces))
  else Ok latex_content.

Definition _fix_image_paths (latex_content : str) : str :=
  let latex_content :=
    re_sub re_double_images
      (fun _ gs => lit "\includegraphics[" ++ grp 1 gs ++ lit "]{images/"
                   ++ grp 2 gs ++ lit "}")
      latex_content in
  let latex_content :=
    re_sub re_other_images
      (fun _ gs => lit "\includegraphics[" ++ grp 1 gs ++ lit "]{images/"
                   ++ grp 3 gs ++ lit "}")
      latex_content in
  let latex_content :=
    re_sub re_page_img
      (fun _ gs => lit "\includegraphics[" ++ grp 1 gs ++ lit "]{images/"
                   ++ grp 2 gs ++ lit "}")
      latex_content in
  let latex_content :=
    re_sub re_output_page_img
      (fun _ gs => lit "\includegraphics[" ++ grp 1 gs ++ lit "]{images/"
                   ++ grp 2 gs ++ lit "}")
      latex_content in
  latex_content.

Definition clean_latex_response (latex_content : str) : result str :=
  match latex_content with
  | [] => Ok []
  | _ :: _ =>
      let latex_content :=
        if startswith (lit "```latex") latex_content
        then strip (replace (lit "```") [] (replace (lit "```latex") [] latex_content))
        else latex_content in
      let latex_content :=
        if contains (lit "\begin{document}") latex_content then
          let start_idx :=
            (find (lit "\begin{document}") latex_content
             + Z.of_nat (length (lit "\begin{document}")))%Z in
          let end_idx := find (lit "\end{document}") latex_content in
          if (end_idx >? start_idx)%Z
          then strip (slice latex_content start_idx end_idx)
          else latex_content
        else latex_content in
      let latex_content :=
        if startswith (lit "\begin{document}") (strip latex_content)
        then strip (replace_first (lit "\begin{document}") [] latex_content)
        else latex_content in
      let latex_content := re_sub re_end_document (fun _ _ => []) latex_content in
      let latex_content :=
        re_sub re_centering_include
          (fun _ _ => lit "\centering" ++ [nl] ++ lit "\includegraphics")
          latex_content in
      let latex_content :=
        re_sub re_centering_include_end
          (fun _ gs => lit "\centering" ++ [nl] ++ lit "\includegraphics"
                       ++ grp 1 gs ++ lit "}" ++ [nl] ++ lit "\end{frame}")
          latex_content in
      let latex_content := _fix_math_environments latex_content in
      let latex_content := _fix_unicode_characters latex_content in
      latex_content <- _fix_latex_syntax latex_content ;;
      let latex_content := _fix_image_paths latex_content in
      latex_content <- _fix_brace_matching latex_content ;;
      Ok latex_content
  end.

(** The line loop of [validate_frame_structure]; [in_frame] is the loop's
    state and the result is [fixed_lines]. *)
Fixpoint frame_scope_lines (in_frame : bool) (lines : list str) : list str :=
  match lines with
  | [] => []
  | line :: rest =>
      let in_frame :=
        if contains (lit "\begin{frame}") line then true
        else if contains (lit "\end{frame}") line then false
        else in_frame in
      if contains (lit "\centering") line && negb in_frame
      then frame_scope_lines in_frame rest
      else line :: frame_scope_lines in_frame rest
  end.

Definition validate_frame_structure (latex_content : str) : str :=
  let lines := split [nl] latex_content in
  join [nl] (frame_scope_lines false lines).

(** [x in seen_images]; the set is kept as the list of its members (the
    loop only tests membership and adds). *)
Definition mem (x : str) (l : list str) : bool := existsb (str_eqb x) l.

(** The line loop of [remove_duplicate_images]; the result is
    [filtered_lines]. *)
Fixpoint dedup_lines (seen_images : list str) (lines : list str) : list str :=
  match lines with
  | [] => []
  | line :: rest =>
      if contains (lit "\includegraphics") line then
        match re_search re_includegraphics line with
        | Some gs =>
            let image_path := grp 1 gs in
            let image_filename := basename image_path in
            if mem image_filename seen_images
            then dedup_lines seen_images rest
            else line :: dedup_lines (image_filename :: seen_images) rest
        | None => line :: dedup_lines seen_images rest
        end
      else line :: dedup_lines seen_images rest
  end.

Definition remove_duplicate_images (latex_content : str) : str :=
  let lines := split [nl] latex_content in
  join [nl] (dedup_lines [] lines).

(** One iteration of the loop over [image_refs]. *)
Definition remove_if_missing (available_filenames : list str)
    (latex_content : str) (ref : list str) : str :=
  let path := grp 2 ref in
  let filename := basename path in
  if negb (mem filename available_filenames)
  then re_sub (re_reference_to filename) (fun _ _ => []) latex_content
  else latex_content.

Definition validate_and_fix_image_references
    (latex_content : str) (available_images : list str) : str :=
  let available_filenames := map basename available_images in
  let image_refs := re_findall re_includegraphics_size_path latex_content in
  fold_left (remove_if_missing available_filenames) image_refs latex_content.

End latex_processing.
Import latex_processing.

(* ===================================================================== *)
(** ** converter/utils/text_processing.py *)
(* ===================================================================== *)

Module text_processing.

(** A run of [text = text.replace(old, new)] statements, top to bottom. *)
Definition replace_all (table : list (str * str)) (text : str) : str :=
  fold_left (fun text row => replace (fst row) (snd row) text) table text.

(* "\*\*(.*?)\*\*" *)
Definition re_bold : regex :=
  [A (Lit (lit "**")); G [Lazy dot]; A (Lit (lit "**"))].

(* "(\$[^$]*\$)" *)
Definition re_math_span : regex :=
  [G [Lit (lit "$"); Star (not_chr "$"); Lit (lit "$")]].

(** [re.split(r, s)] for a pattern with capturing groups: the pieces between
    the matches, with the groups of each match in between. *)
Fixpoint split_tokens (l : list token) : list str :=
  match l with
  | [] => [[]]
  | Chr c :: l' => cons_head c (split_tokens l')
  | Hit _ gs :: l' => [] :: gs ++ split_tokens l'
  end.

Definition re_split (r : regex) (s : str) : list str :=
  split_tokens (re_scan r 0 s).

Definition _handle_math_expressions (text : str) : str := text.

Definition _escape_latex_characters (text : str) : str :=
  replace_all [
    (lit "&", lit "\&");
    (lit "%", lit "\%");
    (lit "$", lit "\$");
    (lit "#", lit "\#");
    (lit "^", lit "\textasciicircum{}");
    (lit "_", lit "\_");
    (lit "{", lit "\{");
    (lit "}", lit "\}");
    (lit "~", lit "\textasciitilde{}") ] text.

(** The loop of [_escape_latex_characters_smart] over [enumerate(parts)]. *)
Fixpoint escape_parts (i : nat) (parts : list str) : list str :=
  match parts with
  | [] => []
  | part :: rest =>
      (if Nat.even i then _escape_latex_characters part else part)
      :: escape_parts (S i) rest
  end.

Definition _escape_latex_characters_smart (text : str) : str :=
  let parts := re_split re_math_span text in
  join [] (escape_parts 0 parts).

Definition _fix_unicode_characters (text : str) : str :=
  replace_all [
    (lit "−", lit "-");
    (lit "–", lit "--");
    (lit "—", lit "---");
    ([dquote], lit "``");
    ([dquote], lit "''");
    (lit "…", lit "...");
    (lit "°", lit "$^\circ$");
    (lit "×", lit "$\times$");
    (lit "÷", lit "$\div$");
    (lit "±", lit "$\pm$");
    (lit "≤", lit "$\leq$");
    (lit "≥", lit "$\geq$");
    (lit "≠", lit "$\neq$");
    (lit "≈", lit "$\approx$");
    (lit "∞", lit "$\infty$");
    (lit "∑", lit "$\sum$");
    (lit "∏", lit "$\prod$");
    (lit "∫", lit "$\int$");
    (lit "∂", lit "$\partial$");
    (lit "∇", lit "$\nabla$");
    (lit "√", lit "$\sqrt{}$");
    (lit "∆", lit "$\Delta$");
    (lit "∈", lit "$\in$");
    (lit "∉", lit "$\notin$");
    (lit "⊂", lit "$\subset$");
    (lit "⊃", lit "$\supset$");
    (lit "∪", lit "$\cup$");
    (lit "∩", lit "$\cap$");
    (lit "∅", lit "$\emptyset$");
    (lit "→", lit "$\rightarrow$");
    (lit "←", lit "$\leftarrow$");
    (lit "↔", lit "$\leftrightarrow$");
    (lit "⇒", lit "$\Rightarrow$");
    (lit "⇐", lit "$\Leftarrow$");
    (lit "⇔", lit "$\Leftrightarrow$") ] text.

Definition _fix_greek_letters (text : str) : str :=
  replace_all [
    (lit "α", lit "$\alpha$");
    (lit "β", lit "$\beta$");
    (lit "γ", lit "$\gamma$");
    (lit "δ", lit "$\delta$");
    (lit "ε", lit "$\varepsilon$");
    (lit "ζ", lit "$\zeta$");
    (lit "η", lit "$\eta$");
    (lit "θ", lit "$\theta$");
    (lit "ι", lit "$\iota$");
    (lit "κ", lit "$\kappa$");
    (lit "λ", lit "$\lambda$");
    (lit "μ", lit "$\mu$");
    (lit "ν", lit "$\nu$");
    (lit "ξ", lit "$\xi$");
    (lit "ο", lit "$\omicron$");
    (lit "π", lit "$\pi$");
    (lit "ρ", lit "$\rho$");
    (lit "σ", lit "$\sigma$");
    (lit "τ", lit "$\tau$");
    (lit "υ", lit "$\upsilon$");
    (lit "φ", lit "$\phi$");
    (lit "χ", lit "$\chi$");
    (lit "ψ", lit "$\psi$");
    (lit "ω", lit "$\omega$") ] text.

Definition textbf (whole : str) (gs : list str) : str :=
  lit "\textbf{" ++ grp 1 gs ++ lit "}".

Definition convert_text_to_latex (text : str) : str :=
  match text with
  | [] => []
  | _ :: _ =>
      let text := re_sub re_bold textbf text in
      let text := _handle_math_expressions text in
      let text := _escape_latex_characters_smart text in
      let text := _fix_unicode_characters text in
      let text := _fix_greek_letters text in
      text
  end.

Definition begin_slide (frame_count : nat) : str :=
  lit "\begin{frame}{Slide " ++ str_of_nat frame_count ++ lit "}".

(** The line loop of [convert_markdown_to_latex], with its state
    [current_frame], [frame_count]; the result is what the loop and the
    closing of the last frame append to [latex_lines]. *)
Fixpoint markdown_lines (current_frame : bool) (frame_count : nat)
    (lines : list str) : list str :=
  match lines with
  | [] => if current_frame then [lit "\end{frame}"] else []
  | line :: rest =>
      let line := strip line in
      match line with
      | [] => markdown_lines current_frame frame_count rest
      | _ :: _ =>
          if startswith (lit "![](") line && endswith (lit ")") line then
            let img_path := slice line 4 (-1) in
            if contains (lit "page_") img_path && contains (lit "_img_") img_path
            then
              let img_filename := basename img_path in
              (lit "\includegraphics[width=0.8\textwidth]{images/"
                 ++ img_filename ++ lit "}")
              :: markdown_lines current_frame frame_count rest
            else markdown_lines current_frame frame_count rest
          else
            let line := re_sub re_bold textbf line in
            let line := _escape_latex_characters line in
            let line := _fix_unicode_characters line in
            let line := _fix_greek_letters line in
            if startswith (lit "#") line then
              let closed := if current_frame then [lit "\end{frame}"] else [] in
              let heading_text := strip (lstrip_by (Ascii.eqb "#") line) in
              match heading_text with
              | [] => closed ++ markdown_lines false frame_count rest
              | _ :: _ =>
                  let frame_count := frame_count + 1 in
                  closed
                  ++ [lit "\section{" ++ heading_text ++ lit "}";
                      begin_slide frame_count]
                  ++ markdown_lines true frame_count rest
              end
            else
              let opened :=
                if current_frame then [] else [begin_slide (frame_count + 1)] in
              let frame_count :=
                if current_frame then frame_count else frame_count + 1 in
              let line :=
                if startswith (lit "\bibitem{") line
                then replace (lit "&") (lit "\&") line
                else line in
              opened
              ++ match line with [] => [] | _ :: _ => [line] end
              ++ markdown_lines true frame_count rest
      end
  end.

Definition convert_markdown_to_latex (markdown_text : str) : str :=
  let lines := split [nl] markdown_text in
  join [nl] (markdown_lines false 0 lines).

End text_processing.

(* ===================================================================== *)
(** ** The extracted-content structure *)
(* ===================================================================== *)

(** One entry of [markdown] when it is a list: a dict, of which the program
    reads [metadata.toc_items] (absent, or a list of entries, each a list
    whose second element is the title) and [text] (the empty string when
    absent), or any other value. *)
Record page_dict : Type := {
  toc_items : option (list (list str));
  text : str
}.

Inductive page_data : Type :=
| PageDict (d : page_dict)
| PageOther.

(** [extracted_data["markdown"]]: the list of page chunks, or one string
    (an absent key reads as the empty string). *)
Inductive markdown_content : Type :=
| MarkdownPages (pages : list page_data)
| MarkdownText (markdown_text : str).

Record image : Type := {
  path : str;
  page : nat
}.

Record extracted_data : Type := {
  markdown : markdown_content;
  images : list image
}.

(* ===================================================================== *)
(** ** converter/workflow/stage1_basic_latex.py *)
(* ===================================================================== *)

Module stage1_basic_latex.

Definition slide_title (frame_count : nat) : str :=
  lit "Slide " ++ str_of_nat frame_count.

(** The title of a page: [toc_items[0][1]] when there is a first entry with
    at least two elements, else the default. *)
Definition page_title_of (d : page_dict) (frame_count : nat) : str :=
  match toc_items d with
  | Some (entry :: _) =>
      match entry with
      | _ :: title :: _ => title
      | _ => slide_title frame_count
      end
  | _ => slide_title frame_count
  end.

(** The page loop of [create_basic_latex_structure] and the closing of the
    last frame: what they append to [latex_lines]. *)
Fixpoint page_frames (current_frame : bool) (frame_count : nat)
    (pages : list page_data) : list str :=
  match pages with
  | [] => if current_frame then [lit "\end{frame}"] else []
  | PageOther :: rest => page_frames current_frame frame_count rest
  | PageDict d :: rest =>
      let closed := if current_frame then [lit "\end{frame}"] else [] in
      let frame_count := frame_count + 1 in
      let page_title := page_title_of d frame_count in
      let text_content := text d in
      closed
      ++ [lit "\begin{frame}{" ++ page_title ++ lit "}"]
      ++ match text_content with
         | [] => []
         | _ :: _ => [text_processing.convert_text_to_latex text_content]
         end
      ++ page_frames true frame_count rest
  end.

Definition contents_frame : list str :=
  [lit "\begin{frame}{Contents}"; lit "    \tableofcontents"; lit "\end{frame}"; []].

Definition create_basic_latex_structure (data : extracted_data) : str :=
  let markdown_content := markdown data in
  let latex_lines := contents_frame in
  match markdown_content with
  | MarkdownPages pages => join [nl] (latex_lines ++ page_frames false 0 pages)
  | MarkdownText markdown_text =>
      let latex_content := text_processing.convert_markdown_to_latex markdown_text in
      latex_content
  end.

(** An entry of a page's ['images']: the keys ['filename'], ['path'] and
    ['page']. *)
Record image_info : Type := {
  info_filename : str;
  info_path : str;
  info_page : nat
}.

(** The record [extract_page_structure] makes of a page; [page_images] is
    its key ['images']. *)
Record page_info : Type := {
  page_number : nat;
  title : str;
  content_preview : str;
  has_images : bool;
  page_images : list image_info
}.

(** [text[:200] + "..." if len(text) > 200 else text] *)
Definition preview_of (text_content : str) : str :=
  if 200 <? len text_content
  then prefix 200 text_content ++ lit "..."
  else text_content.

(** One round of the image loop of [extract_page_structure], for the page
    of index [i]. *)
Definition add_image (i : nat) (info : page_info) (img : image) : page_info :=
  if page img =? i then
    {| page_number := page_number info;
       title := title info;
       content_preview := content_preview info;
       has_images := true;
       page_images :=
         page_images info
         ++ [ {| info_filename := basename (path img);
                 info_path := path img;
                 info_page := page img |} ] |}
  else info.

(** The loop over [enumerate(markdown_content)], from index [i] on. *)
Fixpoint page_infos (i : nat) (imgs : list image) (pages : list page_data)
    : list page_info :=
  match pages with
  | [] => []
  | PageOther :: rest => page_infos (S i) imgs rest
  | PageDict d :: rest =>
      let info :=
        {| page_number := i + 1;
           title := page_title_of d (i + 1);
           content_preview := preview_of (text d);
           has_images := false;
           page_images := [] |} in
      fold_left (add_image i) imgs info :: page_infos (S i) imgs rest
  end.

Definition extract_page_structure (data : extracted_data) : list page_info :=
  let markdown_content := markdown data in
  match markdown_content with
  | MarkdownPages pages => page_infos 0 (images data) pages
  | MarkdownText _ => []
  end.

End stage1_basic_latex.

(* ===================================================================== *)
(** ** converter/workflow/stage2_image_analysis.py *)
(* ===================================================================== *)

(** The value [json.loads] returns. *)
#[local] Set Warnings "-register-all".
Inductive json : Type :=
| JNull
| JBool (b : bool)
| JNumber (digits : str)
| JString (s : str)
| JArray (elements : list json)
| JObject (members : list (str * json)).

Module stage2_image_analysis.

(* "}\s*{" , ",\s*}" and ",\s*]" *)
Definition re_missing_comma : regex :=
  [A (Lit (lit "}")); A (Star isspace); A (Lit (lit "{"))].
Definition re_trailing_comma_brace : regex :=
  [A (Lit (lit ",")); A (Star isspace); A (Lit (lit "}"))].
Definition re_trailing_comma_bracket : regex :=
  [A (Lit (lit ",")); A (Star isspace); A (Lit (lit "]"))].

(** [{"image_decisions": {}}] *)
Definition empty_plan : json := JObject [(lit "image_decisions", JObject [])].

Definition no_json_msg : str :=
  lit "No valid JSON found in image analysis response".

(** The two repair heuristics, applied between the two decoding attempts. *)
Definition repair_json (json_str : str) : str :=
  let json_str := replace (lit "\") (lit "\\") json_str in
  let json_str := re_sub re_missing_comma (fun _ _ => lit "},{") json_str in
  let json_str := re_sub re_trailing_comma_brace (fun _ _ => lit "}") json_str in
  let json_str := re_sub re_trailing_comma_bracket (fun _ _ => lit "]") json_str in
  json_str.

(** What a call of [json.loads] comes to: the decoded value, a
    [json.JSONDecodeError], or another exception ([ValueError] for an
    integer of too many digits, [RecursionError] for a text nested too
    deep). *)
Inductive loads_result : Type :=
| Loaded (v : json)
| JSONDecodeError
| Raises (e : exn).

(** [json_loads] stands for [json.loads] of the Python library.  Only its
    [JSONDecodeError] is caught; any other exception leaves the function.
    The [images] argument of the source is not read by the function. *)
Definition parse_image_analysis_response (json_loads : str -> loads_result)
    (response_content : str) : result json :=
  let json_start := find (lit "{") response_content in
  let json_end := (rfind (lit "}") response_content + 1)%Z in
  if (json_start =? -1)%Z || (json_end <=? json_start)%Z
  then Raise (ValueError no_json_msg)
  else
    let json_str := slice response_content json_start json_end in
    match json_loads json_str with
    | Loaded plan => Ok plan
    | Raises e => Raise e
    | JSONDecodeError =>
        let json_str := repair_json json_str in
        match json_loads json_str with
        | Loaded plan => Ok plan
        | Raises e => Raise e
        | JSONDecodeError => Ok empty_plan
        end
    end.



End stage2_image_analysis.

(* ===================================================================== *)
(** ** converter/workflow/stage3_llm_placement.py *)
(* ===================================================================== *)

Module stage3_llm_placement.

Import stage1_basic_latex.

(** The plan is the value the planner returned, and the program reads it
    with [get] and [items]; on a value that is no dict these raise. *)
Inductive outcome (A : Type) : Type :=
| Done (a : A)
| AttributeError.
Arguments Done {A} a.
Arguments AttributeError {A}.

(** The dict Python makes of the members of an object: a repeated key keeps
    its first place and takes its last value. *)
Fixpoint dict_set (key : str) (v : json) (d : list (str * json))
    : list (str * json) :=
  match d with
  | [] => [(key, v)]
  | (k, w) :: d' =>
      if str_eqb k key then (k, v) :: d' else (k, w) :: dict_set key v d'
  end.

Definition dict_of (members : list (str * json)) : list (str * json) :=
  fold_left (fun d kv => dict_set (fst kv) (snd kv) d) members [].

(** [d.get(key)] *)
Fixpoint dict_get (key : str) (d : list (str * json)) : option json :=
  match d with
  | [] => None
  | (k, v) :: d' => if str_eqb k key then Some v else dict_get key d'
  end.

(** [image_plan.get("image_decisions", {}).items()] *)
Definition decision_items (image_plan : json) : outcome (list (str * json)) :=
  match image_plan with
  | JObject members =>
      match dict_get (lit "image_decisions") (dict_of members) with
      | Some (JObject decisions) => Done (dict_of decisions)
      | Some _ => AttributeError
      | None => Done []
      end
  | _ => AttributeError
  end.

(** [v == word] for the value [v] of a [get] and a string [word]. *)
Definition is_word (word : str) (v : option json) : bool :=
  match v with
  | Some (JString s) => str_eqb s word
  | _ => false
  end.

(** The truth value of a decoded value; [nonzero] tells it of the number
    written by the digits. *)
Definition truthy (nonzero : str -> bool) (v : option json) : bool :=
  match v with
  | None | Some JNull => false
  | Some (JBool b) => b
  | Some (JNumber digits) => nonzero digits
  | Some (JString s) => match s with [] => false | _ :: _ => true end
  | Some (JArray elements) => match elements with [] => false | _ :: _ => true end
  | Some (JObject members) => match members with [] => false | _ :: _ => true end
  end.

(** An entry of ['images_to_place'] in the placement data: the keys
    ['filename'], ['page'], ['page_title'] and ['content_preview']. *)
Record slot : Type := {
  slot_filename : str;
  slot_page : nat;
  slot_page_title : str;
  slot_content_preview : str
}.

(** An entry of ['latex_conversions']: the keys ['filename'],
    ['latex_content'] and ['image_type']. *)
Record conversion : Type := {
  conv_filename : str;
  conv_latex_content : json;
  conv_image_type : json
}.

Record placement_data : Type := {
  images_to_place : list slot;
  latex_conversions : list conversion;
  page_structure : list page_info
}.

(** The loop over the pages for one kept file: a page that lists the file
    gives one entry (the inner loop stops at the first image of that
    name). *)
Definition slots_of (filename : str) (pages : list page_info)
    (images_to_place : list slot) : list slot :=
  fold_left
    (fun images_to_place page =>
       if existsb (fun img => str_eqb (info_filename img) filename)
                  (page_images page)
       then images_to_place
            ++ [ {| slot_filename := filename;
                    slot_page := page_number page;
                    slot_page_title := title page;
                    slot_content_preview := content_preview page |} ]
       else images_to_place)
    pages images_to_place.

(** The loop of [prepare_image_placement_data] over the decisions. *)
Fixpoint placement_loop (nonzero : str -> bool) (pages : list page_info)
    (items : list (str * json))
    (images_to_place : list slot) (latex_conversions : list conversion)
    : outcome (list slot * list conversion) :=
  match items with
  | [] => Done (images_to_place, latex_conversions)
  | (filename, decision) :: rest =>
      match decision with
      | JObject members =>
          let decision := dict_of members in
          let action := dict_get (lit "action") decision in
          if is_word (lit "KEEP_AS_IMAGE") action then
            placement_loop nonzero pages rest
              (slots_of filename pages images_to_place) latex_conversions
          else if is_word (lit "CONVERT_TO_LATEX") action
                  && truthy nonzero (dict_get (lit "latex_content") decision)
          then
            (* [decision["latex_content"]]: the key is there, the test
               has read it *)
            let latex_content :=
              match dict_get (lit "latex_content") decision with
              | Some latex_content => latex_content
              | None => JNull
              end in
            placement_loop nonzero pages rest images_to_place
              (latex_conversions
               ++ [ {| conv_filename := filename;
                       conv_latex_content := latex_content;
                       conv_image_type :=
                         match dict_get (lit "image_type") decision with
                         | Some image_type => image_type
                         | None => JString (lit "other")
                         end |} ])
          else placement_loop nonzero pages rest images_to_place latex_conversions
      | _ => AttributeError
      end
  end.

Definition prepare_image_placement_data (nonzero : str -> bool)
    (pages : list page_info) (image_plan : json) : outcome placement_data :=
  match decision_items image_plan with
  | Done items =>
      match placement_loop nonzero pages items [] [] with
      | Done (images_to_place, latex_conversions) =>
          Done {| images_to_place := images_to_place;
                  latex_conversions := latex_conversions;
                  page_structure := pages |}
      | AttributeError => AttributeError
      end
  | AttributeError => AttributeError
  end.

(** An entry of the list [get_images_to_place] returns: the keys
    ['filename'] and ['path']. *)
Record file : Type := {
  file_filename : str;
  file_path : str
}.

(** The inner loop of [get_images_to_place]: the first image whose path
    ends in the filename. *)
Fixpoint first_image (filename : str) (imgs : list image) : option image :=
  match imgs with
  | [] => None
  | img :: rest =>
      if str_eqb (basename (path img)) filename then Some img
      else first_image filename rest
  end.

(** The loop of [get_images_to_place] over the decisions. *)
Fixpoint files_loop (imgs : list image) (items : list (str * json))
    (images_to_place : list file) : outcome (list file) :=
  match items with
  | [] => Done images_to_place
  | (filename, decision) :: rest =>
      match decision with
      | JObject members =>
          if is_word (lit "KEEP_AS_IMAGE")
               (dict_get (lit "action") (dict_of members))
          then
            match first_image filename imgs with
            | Some img =>
                files_loop imgs rest
                  (images_to_place
                   ++ [ {| file_filename := filename; file_path := path img |} ])
            | None => files_loop imgs rest images_to_place
            end
          else files_loop imgs rest images_to_place
      | _ => AttributeError
      end
  end.

Definition get_images_to_place (image_plan : json) (data : extracted_data)
    : outcome (list file) :=
  match decision_items image_plan with
  | Done items => files_loop (images data) items []
  | AttributeError => AttributeError
  end.


End stage3_llm_placement.

(* ===================================================================== *)
(** ** converter/converter.py *)
(* ===================================================================== *)

Module converter.

(** [PDFToLatexConverter._finalize_latex]; [path_exists] stands for
    [os.path.exists]. *)
Definition _finalize_latex (path_exists : str -> bool)
    (latex_content : str) (data : extracted_data) : result str :=
  latex_content <- clean_latex_response latex_content ;;
  let available_images := images data in
  let available_image_paths :=
    map path (filter (fun img => path_exists (path img)) available_images) in
  let latex_content :=
    validate_and_fix_image_references latex_content available_image_paths in
  let latex_content := validate_frame_structure latex_content in
  let latex_content := remove_duplicate_images latex_content in
  Ok latex_content.


End converter.
(* ===================================================================== *)
(** ** A JSON decoder, to run the planner on concrete responses *)
(* ===================================================================== *)

(** [json.loads] belongs to the Python library, and the planner is
    parametric in it.  The examples use this decoder, which follows the
    scanner of the library: objects, arrays, strings with their escapes
    (a [\u] escape included, a pair of surrogates giving one character),
    numbers, [true], [false], [null], [NaN], [Infinity] and [-Infinity],
    blanks between tokens, nothing after the value.  An integer of more than
    4300 digits raises [ValueError], and a text nested deeper than the
    interpreter allows raises [RecursionError]; every other refusal is a
    [JSONDecodeError].  A number is kept as its text. *)
Module json_decoder.

Import stage2_image_analysis.

(** What scanning the head of a text comes to. *)
Inductive scan (A : Type) : Type :=
| Got (a : A) (rest : str)
| Bad
| Stop (e : exn).
Arguments Got {A} a rest.
Arguments Bad {A}.
Arguments Stop {A} e.

Definition is_blank (c : ascii) : bool :=
  Ascii.eqb c " " || Ascii.eqb c "009" || Ascii.eqb c nl || Ascii.eqb c "013".

Definition skip_blanks (s : str) : str := lstrip_by is_blank s.

Definition unescape (c : ascii) : option ascii :=
  if Ascii.eqb c dquote then Some dquote
  else if Ascii.eqb c "\" then Some "\"%char
  else if Ascii.eqb c "/" then Some "/"%char
  else if Ascii.eqb c "b" then Some "008"%char
  else if Ascii.eqb c "f" then Some "012"%char
  else if Ascii.eqb c "n" then Some nl
  else if Ascii.eqb c "r" then Some "013"%char
  else if Ascii.eqb c "t" then Some "009"%char
  else None.

Definition hex_digit (c : ascii) : option N :=
  let n := N_of_ascii c in
  if (48 <=? n)%N && (n <=? 57)%N then Some (n - 48)%N
  else if (65 <=? n)%N && (n <=? 70)%N then Some (n - 55)%N
  else if (97 <=? n)%N && (n <=? 102)%N then Some (n - 87)%N
  else None.

(** Four hexadecimal digits at the head of [s]. *)
Definition hex4 (s : str) : option (N * str) :=
  match s with
  | a :: b :: c :: d :: rest =>
      match hex_digit a, hex_digit b, hex_digit c, hex_digit d with
      | Some x, Some y, Some z, Some w =>
          Some ((((x * 16 + y) * 16 + z) * 16 + w)%N, rest)
      | _, _, _, _ => None
      end
  | _ => None
  end.

(** The bytes of a character in UTF-8.  A surrogate that stands alone is a
    character of a Python string; it is written in the same way. *)
Definition utf8 (cp : N) : str :=
  if (cp <? 128)%N then [ascii_of_N cp]
  else if (cp <? 2048)%N then
    [ascii_of_N (192 + cp / 64); ascii_of_N (128 + cp mod 64)]
  else if (cp <? 65536)%N then
    [ascii_of_N (224 + cp / 4096); ascii_of_N (128 + (cp / 64) mod 64);
     ascii_of_N (128 + cp mod 64)]
  else
    [ascii_of_N (240 + cp / 262144); ascii_of_N (128 + (cp / 4096) mod 64);
     ascii_of_N (128 + (cp / 64) mod 64); ascii_of_N (128 + cp mod 64)].

Definition is_high_surrogate (cp : N) : bool := (55296 <=? cp)%N && (cp <=? 56319)%N.
Definition is_low_surrogate (cp : N) : bool := (56320 <=? cp)%N && (cp <=? 57343)%N.

(** The character of a [\u] escape whose digits gave [cp], and the text that
    follows it: a high surrogate takes the low surrogate of a second escape
    with it. *)
Definition escaped_character (cp : N) (rest : str) : N * str :=
  if is_high_surrogate cp then
    match rest with
    | "\"%char :: "u"%char :: rest' =>
        match hex4 rest' with
        | Some (cp2, rest'') =>
            if is_low_surrogate cp2
            then ((65536 + (cp - 55296) * 1024 + (cp2 - 56320))%N, rest'')
            else (cp, rest)
        | None => (cp, rest)
        end
    | _ => (cp, rest)
    end
  else (cp, rest).

Definition consed (t : str) (r : option (str * str)) : option (str * str) :=
  match r with
  | Some (t', rest) => Some (t ++ t', rest)
  | None => None
  end.

(** The characters of a string after its opening quote, and what follows
    the closing quote; [None] is a [JSONDecodeError].  Every round passes
    over a character, so the length of the text is fuel enough. *)
Fixpoint string_body (fuel : nat) (s : str) : option (str * str) :=
  match fuel with
  | O => None
  | S fuel =>
      match s with
      | [] => None
      | c :: s' =>
          if Ascii.eqb c dquote then Some ([], s')
          else if Ascii.eqb c "\" then
            match s' with
            | e :: s'' =>
                if Ascii.eqb e "u" then
                  match hex4 s'' with
                  | Some (cp, rest) =>
                      let (cp, rest) := escaped_character cp rest in
                      consed (utf8 cp) (string_body fuel rest)
                  | None => None
                  end
                else
                  match unescape e with
                  | Some d => consed [d] (string_body fuel s'')
                  | None => None
                  end
            | [] => None
            end
          else if nat_of_ascii c <? 32 then None
          else consed [c] (string_body fuel s')
      end
  end.

Definition string_after_quote (s : str) : option (str * str) :=
  string_body (S (length s)) s.

Fixpoint span (p : ascii -> bool) (s : str) : str * str :=
  match s with
  | c :: s' => if p c then let (a, b) := span p s' in (c :: a, b) else ([], s)
  | [] => ([], [])
  end.

(** The longest text of a number at the head of [s]: an optional minus
    sign, an integer part (a zero, or digits that start with none), a
    fraction if a point and a digit follow, an exponent if an [e], an
    optional sign and a digit follow.  With it, whether it is an integer,
    and what follows. *)
Definition number_text (s : str) : option (str * bool * str) :=
  let (sign, s) :=
    match s with
    | "-"%char :: r => (["-"%char], r)
    | _ => ([], s)
    end in
  let int :=
    match s with
    | d :: r =>
        if Ascii.eqb d "0" then Some ([d], r)
        else if isdigit d then let (more, r') := span isdigit r in Some (d :: more, r')
        else None
    | [] => None
    end in
  match int with
  | None => None
  | Some (int, s) =>
      let (frac, s) :=
        match s with
        | "."%char :: r =>
            let (ds, r') := span isdigit r in
            match ds with [] => ([], s) | _ :: _ => ("."%char :: ds, r') end
        | _ => ([], s)
        end in
      let (exp, s) :=
        match s with
        | e :: r =>
            if Ascii.eqb e "e" || Ascii.eqb e "E" then
              let (sg, r) :=
                match r with
                | g :: r' =>
                    if Ascii.eqb g "+" || Ascii.eqb g "-"
                    then ([g], r') else ([], r)
                | [] => ([], r)
                end in
              let (ds, r') := span isdigit r in
              match ds with
              | [] => ([], s)
              | _ :: _ => (e :: sg ++ ds, r')
              end
            else ([], s)
        | [] => ([], s)
        end in
      let is_integer :=
        match frac, exp with [], [] => true | _, _ => false end in
      Some (sign ++ int ++ frac ++ exp, is_integer, s)
  end.

(** The limit of [int] on the digits of a text, and its error. *)
Definition max_str_digits : nat := 4300.

Definition too_many_digits_msg (digits : nat) : str :=
  lit "Exceeds the limit (4300 digits) for integer string conversion: value has "
  ++ str_of_nat digits
  ++ lit " digits; use sys.set_int_max_str_digits() to increase the limit".

Definition count_digits (t : str) : nat := length (filter isdigit t).

Definition too_deep_msg (what : string) : str :=
  lit "maximum recursion depth exceeded while decoding a JSON "
  ++ lit what ++ lit " from a unicode string".

(** One value at the head of [s] (after blanks) and the rest of the input.
    [fuel] bounds the number of calls; [depth] is the number of objects
    and arrays that may still be entered. *)
Fixpoint value (fuel depth : nat) (s : str) : scan json :=
  match fuel with
  | O => Bad
  | S fuel =>
      let s := skip_blanks s in
      match s with
      | [] => Bad
      | c :: r =>
          if Ascii.eqb c "{" then
            match depth with
            | O => Stop (RecursionError (too_deep_msg "object"))
            | S depth =>
                match skip_blanks r with
                | "}"%char :: r' => Got (JObject []) r'
                | _ =>
                    match members fuel depth r with
                    | Got ms r' => Got (JObject ms) r'
                    | Bad => Bad
                    | Stop e => Stop e
                    end
                end
            end
          else if Ascii.eqb c "[" then
            match depth with
            | O => Stop (RecursionError (too_deep_msg "array"))
            | S depth =>
                match skip_blanks r with
                | "]"%char :: r' => Got (JArray []) r'
                | _ =>
                    match elements fuel depth r with
                    | Got es r' => Got (JArray es) r'
                    | Bad => Bad
                    | Stop e => Stop e
                    end
                end
            end
          else if Ascii.eqb c dquote then
            match string_after_quote r with
            | Some (t, r') => Got (JString t) r'
            | None => Bad
            end
          else if startswith (lit "true") s then Got (JBool true) (skipn 4 s)
          else if startswith (lit "false") s then Got (JBool false) (skipn 5 s)
          else if startswith (lit "null") s then Got JNull (skipn 4 s)
          else if startswith (lit "NaN") s then Got (JNumber (lit "NaN")) (skipn 3 s)
          else if startswith (lit "Infinity") s
          then Got (JNumber (lit "Infinity")) (skipn 8 s)
          else if startswith (lit "-Infinity") s
          then Got (JNumber (lit "-Infinity")) (skipn 9 s)
          else
            match number_text s with
            | Some (t, is_integer, r') =>
                if is_integer && (max_str_digits <? count_digits t)
                then Stop (ValueError (too_many_digits_msg (count_digits t)))
                else Got (JNumber t) r'
            | None => Bad
            end
      end
  end

with members (fuel depth : nat) (s : str) : scan (list (str * json)) :=
  match fuel with
  | O => Bad
  | S fuel =>
      match skip_blanks s with
      | c :: r =>
          if Ascii.eqb c dquote then
            match string_after_quote r with
            | Some (key, r) =>
                match skip_blanks r with
                | ":"%char :: r =>
                    match value fuel depth r with
                    | Got v r =>
                        match skip_blanks r with
                        | "}"%char :: r' => Got [(key, v)] r'
                        | ","%char :: r' =>
                            match members fuel depth r' with
                            | Got ms r'' => Got ((key, v) :: ms) r''
                            | Bad => Bad
                            | Stop e => Stop e
                            end
                        | _ => Bad
                        end
                    | Bad => Bad
                    | Stop e => Stop e
                    end
                | _ => Bad
                end
            | None => Bad
            end
          else Bad
      | [] => Bad
      end
  end

with elements (fuel depth : nat) (s : str) : scan (list json) :=
  match fuel with
  | O => Bad
  | S fuel =>
      match value fuel depth s with
      | Got v r =>
          match skip_blanks r with
          | "]"%char :: r' => Got [v] r'
          | ","%char :: r' =>
              match elements fuel depth r' with
              | Got es r'' => Got (v :: es) r''
              | Bad => Bad
              | Stop e => Stop e
              end
          | _ => Bad
          end
      | Bad => Bad
      | Stop e => Stop e
      end
  end.

(** The whole text must be one value.  Every nested call comes after at
    least one consumed character, so the length of the text is fuel
    enough.  [max_depth] is the nesting the interpreter still allows at the
    call: it depends on the interpreter and on the depth of its stack. *)
Definition loads (max_depth : nat) (s : str) : loads_result :=
  match value (S (length s)) max_depth s with
  | Got v rest =>
      match skip_blanks rest with
      | [] => Loaded v
      | _ :: _ => JSONDecodeError
      end
  | Bad => JSONDecodeError
  | Stop e => Raises e
  end.

End json_decoder.

(** JSON text is written with apostrophes for its double quotes. *)
Definition dq (s : string) : str :=
  map (fun c => if Ascii.eqb c "'" then dquote else c) (lit s).

(* ===================================================================== *)
(** ** Vocabulary of the statements *)
(* ===================================================================== *)

Import stage1_basic_latex stage2_image_analysis.

(** Bodies of several lines are written as the list of their lines. *)
Definition unlines (l : list str) : str := join [nl] l.

Definition no_data : extracted_data :=
  {| markdown := MarkdownText []; images := [] |}.

(** An inclusion directive, as the placement stage asks for it. *)
Definition include (path : string) : str :=
  lit "\includegraphics[width=0.7\textwidth]{" ++ lit path ++ lit "}".

(** The first pass of [_fix_image_paths] alone. *)
Definition collapse_double_images (latex_content : str) : str :=
  re_sub re_double_images
    (fun _ gs => lit "\includegraphics[" ++ grp 1 gs ++ lit "]{images/"
                 ++ grp 2 gs ++ lit "}")
    latex_content.

(** The four lines stage 1 starts the structured form with. *)
Definition contents_header : str :=
  unlines [lit "\begin{frame}{Contents}"; lit "    \tableofcontents";
           lit "\end{frame}"; lit ""].

(** A response cut after its first closing brace, and one cut before any. *)
Definition response_missing_last_brace : str :=
  dq "Here is the plan: {'image_decisions': {'page_0_img_0.png': {'action': 'REMOVE'}}".

Definition response_missing_all_braces : str :=
  dq "{'image_decisions': {'page_0_img_0.png': {'action': 'KEEP_AS_IMAGE', 'reasoning': 'a ch".

(** A response cut inside a text that ends with a backslash, behind
    closing braces that belong to the text. *)
Definition response_cut_in_text : str :=
  dq "{'image_decisions': {'a.png': {'action': 'REMOVE', 'reasoning': 'shows \'}}} and no".

(** The filename the loop of [remove_duplicate_images] reads from a line:
    that of the leftmost directive, if the line has one. *)
Definition line_filename (line : str) : option str :=
  if contains (lit "\includegraphics") line then
    match re_search re_includegraphics line with
    | Some gs => Some (basename (grp 1 gs))
    | None => None
    end
  else None.

Definition filenames (lines : list str) : list str :=
  flat_map (fun line => match line_filename line with
                        | Some f => [f]
                        | None => []
                        end) lines.

(** Keeping the first line of every filename, in words: a line stays when
    it has no filename or none of the lines [before] it has the same. *)
Definition is_first (before : list str) (line : str) : bool :=
  match line_filename line with
  | Some f => negb (mem f (filenames before))
  | None => true
  end.

Fixpoint keep_first (before lines : list str) : list str :=
  match lines with
  | [] => []
  | line :: rest =>
      (if is_first before line then [line] else [])
      ++ keep_first (before ++ [line]) rest
  end.

(** Meaning of patterns: the text an atom, an item, a pattern consumes. *)
Definition atom_den (a : atom) (w : str) : Prop :=
  match a with
  | Lit l => w = l
  | One p => exists c, w = [c] /\ p c = true
  | Star p => forallb p w = true
  | Plus p => w <> [] /\ forallb p w = true
  | Lazy p => forallb p w = true
  | Eol => w = []
  end.

Definition item_den (it : item) (w : str) : Prop :=
  match it with
  | A a => atom_den a w
  | G inner => exists ws, w = concat ws /\ Forall2 atom_den inner ws
  end.

Fixpoint groups_of (l : list item) (ws : list str) : list str :=
  match l, ws with
  | A _ :: l', _ :: ws' => groups_of l' ws'
  | G _ :: l', w :: ws' => w :: groups_of l' ws'
  | _, _ => []
  end.

(** Occurrences of [M] in [s], counted by their starting positions. *)
Fixpoint occ (M s : str) : nat :=
  match s with
  | [] => 0
  | _ :: s' => (if startswith M s then 1 else 0) + occ M s'
  end.

Definition mem_chr (c : ascii) (s : str) : bool := existsb (Ascii.eqb c) s.

(** Two texts that hold the same occurrences of [M] in every context. *)
Definition occ_equiv (M w w' : str) : Prop :=
  forall p q, occ M (p ++ w ++ q) = occ M (p ++ w' ++ q).

(* ===================================================================== *)
(** ** Further vocabulary *)
(* ===================================================================== *)

(** A newline occurs in [s]. *)
Definition has_nl (s : str) : bool := mem_chr nl s.

(** A line without a centering directive. *)
Definition plain_line (line : str) : bool :=
  negb (contains (lit "\centering") line).

(** [M] and [w] differ at a position both have. *)
Fixpoint clash (M w : str) : bool :=
  match M, w with
  | x :: M', y :: w' => negb (Ascii.eqb x y) || clash M' w'
  | _, _ => false
  end.

(** A frame marker or an enumerate marker: a backslash, then letters and
    braces without a second backslash, an ampersand, a bracket or a
    slash. *)
Definition is_marker (M : str) : bool :=
  match M with
  | h :: tl =>
      Ascii.eqb h "\" && negb (mem_chr "\" tl)
      && match tl with [] => false | _ => true end
      && mem_chr "}" M && negb (mem_chr "]" M) && negb (mem_chr "/" M)
      && negb (mem_chr "&" M)
  | [] => false
  end.

(** The characters of the replacement are none of [M]. *)
Definition apart (new M : str) : bool :=
  forallb (fun c => negb (mem_chr c M)) new.

(** What the loop of [convert_markdown_to_latex] makes of a content line
    before it looks for a heading. *)
Definition processed (line : str) : str :=
  text_processing._fix_greek_letters
    (text_processing._fix_unicode_characters
       (text_processing._escape_latex_characters
          (re_sub text_processing.re_bold text_processing.textbf line))).

(** The form of an image line: [![](...)]. *)
Definition is_image_line (line : str) : bool :=
  startswith (lit "![](") line && endswith (lit ")") line.

(** A content line: not blank and not of the image form. *)
Definition is_content (raw : str) : bool :=
  match strip raw with
  | [] => false
  | _ :: _ => negb (is_image_line (strip raw))
  end.

(** What one line contributes to the output, whatever the state. *)
Definition emit_line (raw : str) : list str :=
  let line := strip raw in
  match line with
  | [] => []
  | _ :: _ =>
      if is_image_line line then
        let img_path := slice line 4 (-1) in
        if contains (lit "page_") img_path && contains (lit "_img_") img_path
        then [lit "\includegraphics[width=0.8\textwidth]{images/"
                ++ basename img_path ++ lit "}"]
        else []
      else
        let line := processed line in
        let line :=
          if startswith (lit "\bibitem{") line
          then replace (lit "&") (lit "\&") line
          else line in
        match line with [] => [] | _ :: _ => [line] end
  end.

(** [s] does not start with a hash sign. *)
Definition no_hash (s : str) : bool := negb (startswith (lit "#") s).

(** A row of a replacement table that puts no hash sign at the start. *)
Definition row_ok (row : str * str) : bool :=
  match fst row, snd row with
  | _ :: _, _ :: _ => no_hash (snd row)
  | _, _ => false
  end.

(** The dict entries of the page list, in their order. *)
Fixpoint dicts (pages : list page_data) : list page_dict :=
  match pages with
  | [] => []
  | PageDict d :: rest => d :: dicts rest
  | PageOther :: rest => dicts rest
  end.

(** [isinstance(p, dict)] *)
Definition is_dict (p : page_data) : bool :=
  match p with PageDict _ => true | PageOther => false end.

(** The closed frame of the dict [d] when it is the [k]-th dict. *)
Definition frame_of (d : page_dict) (k : nat) : list str :=
  [lit "\begin{frame}{" ++ page_title_of d k ++ lit "}"]
  ++ match text d with
     | [] => []
     | _ :: _ => [text_processing.convert_text_to_latex (text d)]
     end
  ++ [lit "\end{frame}"].

(** The frames of the dicts [ds], the first being the [k]-th. *)
Fixpoint frames_from (k : nat) (ds : list page_dict) : list str :=
  match ds with
  | [] => []
  | d :: rest => frame_of d k ++ frames_from (S k) rest
  end.

(** The titles of the frames of [frames_from]. *)
Fixpoint frame_titles (k : nat) (ds : list page_dict) : list str :=
  match ds with
  | [] => []
  | d :: rest => page_title_of d k :: frame_titles (S k) rest
  end.

(** The entry a page record holds for an image. *)
Definition entry_of (img : image) : image_info :=
  {| info_filename := basename (path img);
     info_path := path img;
     info_page := page img |}.

(** The list is empty. *)
Definition is_nil {A : Type} (l : list A) : bool :=
  match l with [] => true | _ :: _ => false end.

Import stage3_llm_placement.

(** The decision keeps the image as it is. *)
Definition keeps (decision : json) : bool :=
  match decision with
  | JObject members =>
      is_word (lit "KEEP_AS_IMAGE") (dict_get (lit "action") (dict_of members))
  | _ => false
  end.

(** [isinstance(v, dict)] for a decoded value. *)
Definition is_object (v : json) : bool :=
  match v with JObject _ => true | _ => false end.

(** The decisions are all dicts. *)
Definition all_objects (items : list (str * json)) : bool :=
  forallb (fun kv => is_object (snd kv)) items.

(** The page record lists an image under [filename]. *)
Definition lists_file (filename : str) (page : page_info) : bool :=
  existsb (fun img => str_eqb (info_filename img) filename) (page_images page).

(** The slot of [filename] on [page]. *)
Definition slot_of (filename : str) (page : page_info) : slot :=
  {| slot_filename := filename;
     slot_page := page_number page;
     slot_page_title := title page;
     slot_content_preview := content_preview page |}.

(** What a decision adds to the slots of the placement data. *)
Definition slots_for (pages : list page_info) (kv : str * json)
    : list slot :=
  if keeps (snd kv)
  then map (slot_of (fst kv)) (filter (lists_file (fst kv)) pages)
  else [].

(** What a decision adds to the files. *)
Definition files_for (imgs : list image) (kv : str * json)
    : list file :=
  if keeps (snd kv)
  then match first_image (fst kv) imgs with
       | Some img => [ {| file_filename := fst kv; file_path := path img |} ]
       | None => []
       end
  else [].

(** What the escaping makes of one character. *)
Definition escape_chr (c : ascii) : str :=
  if Ascii.eqb c "&" then lit "\&"
  else if Ascii.eqb c "%" then lit "\%"
  else if Ascii.eqb c "$" then lit "\$"
  else if Ascii.eqb c "#" then lit "\#"
  else if Ascii.eqb c "^" then lit "\textasciicircum\{\}"
  else if Ascii.eqb c "_" then lit "\_"
  else if Ascii.eqb c "{" then lit "\{"
  else if Ascii.eqb c "}" then lit "\}"
  else if Ascii.eqb c "~" then lit "\textasciitilde{}"
  else [c].

(** A row of a replacement table that writes no character of [M]. *)
Definition fresh_row (M : str) (row : str * str) : bool :=
  match fst row, snd row with
  | _ :: _, _ :: _ => apart (snd row) M
  | _, _ => false
  end.


(* ===================================================================== *)
(** * Properties *)
(* ===================================================================== *)

(** ** The matcher is sound for the meaning of patterns *)

Lemma startswith_app_skipn :
  forall w s, startswith w s = true -> s = w ++ skipn (length w) s.
Proof.
  induction w as [|x w IH]; intros [|y s] H; cbn in *; try reflexivity; try discriminate.
  apply andb_prop in H. destruct H as [Hxy H].
  apply Ascii.eqb_eq in Hxy. subst y. f_equal. now apply IH.
Qed.

Lemma startswith_app_refl : forall w s, startswith w (w ++ s) = true.
Proof.
  induction w as [|x w IH]; intros s; cbn; [reflexivity|].
  now rewrite Ascii.eqb_refl, IH.
Qed.

Section MatcherSound.
Context {R : Type}.
Implicit Types (k : @kont R) (s w : str) (n : nat) (r : R).

Lemma star_m_sound p k : forall s n r,
  star_m p k s n = Some r ->
  exists w s', s = w ++ s' /\ forallb p w = true /\ k s' (n + length w) = Some r.
Proof.
  induction s as [|c s IH]; intros n r H; cbn in H.
  - exists [], []. now rewrite Nat.add_0_r.
  - destruct (p c) eqn:Hp.
    + destruct (star_m p k s (S n)) as [r'|] eqn:E.
      * injection H as ->. destruct (IH _ _ E) as (w & s' & -> & Hw & Hk).
        exists (c :: w), s'. cbn. rewrite Hp, Hw.
        repeat split. now rewrite <- Nat.add_succ_comm.
      * exists [], (c :: s). now rewrite Nat.add_0_r.
    + exists [], (c :: s). now rewrite Nat.add_0_r.
Qed.

Lemma lazy_m_sound p k : forall s n r,
  lazy_m p k s n = Some r ->
  exists w s', s = w ++ s' /\ forallb p w = true /\ k s' (n + length w) = Some r.
Proof.
  induction s as [|c s IH]; intros n r H; cbn in H.
  - destruct (k [] n) eqn:E; [|discriminate].
    exists [], []. rewrite Nat.add_0_r. cbn. now rewrite E.
  - destruct (k (c :: s) n) eqn:E.
    + exists [], (c :: s). rewrite Nat.add_0_r. cbn. now rewrite E.
    + destruct (p c) eqn:Hp; [|discriminate].
      destruct (IH _ _ H) as (w & s' & -> & Hw & Hk).
      exists (c :: w), s'. cbn. rewrite Hp, Hw.
      repeat split. now rewrite <- Nat.add_succ_comm.
Qed.

Lemma atom_m_sound a k : forall s n r,
  atom_m a k s n = Some r ->
  exists w s', s = w ++ s' /\ atom_den a w /\ k s' (n + length w) = Some r.
Proof.
  intros s n r H. destruct a as [l|p|p|p|p|]; cbn in H.
  - destruct (startswith l s) eqn:E; [|discriminate].
    exists l, (skipn (length l) s). repeat split; [now apply startswith_app_skipn|exact H].
  - destruct s as [|c s]; [discriminate|]. destruct (p c) eqn:Hp; [|discriminate].
    exists [c], s. repeat split; [now exists c|]. now rewrite Nat.add_1_r.
  - now apply star_m_sound.
  - destruct s as [|c s]; [discriminate|]. destruct (p c) eqn:Hp; [|discriminate].
    destruct (star_m_sound _ _ _ _ _ H) as (w & s' & -> & Hw & Hk).
    exists (c :: w), s'. cbn. rewrite Hp, Hw. repeat split; [discriminate|].
    now rewrite <- Nat.add_succ_comm.
  - now apply lazy_m_sound.
  - exists [], s. rewrite Nat.add_0_r. repeat split.
    destruct s as [|c s]; [exact H|]. now destruct (Ascii.eqb c nl).
Qed.

Lemma atoms_m_sound : forall l k s n r,
  atoms_m l k s n = Some r ->
  exists ws s',
    s = concat ws ++ s' /\ Forall2 atom_den l ws
    /\ k s' (n + length (concat ws)) = Some r.
Proof.
  induction l as [|a l IH]; intros k s n r H; cbn in H.
  - exists [], s. cbn. rewrite Nat.add_0_r. repeat split; [constructor|exact H].
  - destruct (atom_m_sound _ _ _ _ _ H) as (w & s1 & -> & Hw & H1).
    destruct (IH _ _ _ _ H1) as (ws & s' & -> & Hws & Hk).
    exists (w :: ws), s'. cbn. rewrite <- app_assoc. repeat split.
    + now constructor.
    + now rewrite length_app, Nat.add_assoc.
Qed.
End MatcherSound.

Lemma items_m_sound : forall l caps s n m gs,
  items_m l caps s n = Some (m, gs) ->
  exists ws s',
    s = concat ws ++ s' /\ Forall2 item_den l ws
    /\ m = n + length (concat ws) /\ gs = rev caps ++ groups_of l ws.
Proof.
  induction l as [|[a|inner] l IH]; intros caps s n m gs H; cbn in H.
  - injection H as <- <-. exists [], s. cbn.
    rewrite Nat.add_0_r, app_nil_r. repeat split. constructor.
  - destruct (atom_m_sound _ _ _ _ _ H) as (w & s1 & -> & Hw & H1).
    destruct (IH _ _ _ _ _ H1) as (ws & s' & -> & Hws & -> & ->).
    exists (w :: ws), s'. cbn. rewrite <- app_assoc, length_app, Nat.add_assoc.
    repeat split. now constructor.
  - destruct (atoms_m_sound _ _ _ _ _ H) as (wi & s1 & -> & Hwi & H1).
    replace (n + length (concat wi) - n) with (length (concat wi)) in H1 by lia.
    rewrite firstn_app, Nat.sub_diag, firstn_all in H1. cbn in H1.
    rewrite app_nil_r in H1.
    destruct (IH _ _ _ _ _ H1) as (ws & s' & -> & Hws & -> & ->).
    exists (concat wi :: ws), s'. cbn.
    rewrite <- !app_assoc, length_app, Nat.add_assoc. cbn.
    repeat split. constructor; [now exists wi|assumption].
Qed.

Lemma re_match_sound : forall r s m gs,
  re_match r s = Some (m, gs) ->
  exists ws,
    Forall2 item_den r ws /\ m = length (concat ws)
    /\ firstn m s = concat ws /\ s = concat ws ++ skipn m s
    /\ gs = groups_of r ws.
Proof.
  intros r s m gs H. unfold re_match in H.
  destruct (items_m_sound _ _ _ _ _ _ H) as (ws & s' & -> & Hws & -> & ->).
  exists ws. cbn. repeat split; try assumption.
  - now rewrite firstn_app, Nat.sub_diag, firstn_all, app_nil_r.
  - now rewrite skipn_app, Nat.sub_diag, skipn_all, app_nil_l.
Qed.

(** ** Substitution and counting of markers *)

(** The scan after a match resumes behind it. *)
Lemma re_scan_skip : forall r s k, re_scan r k s = re_scan r 0 (skipn k s).
Proof.
  induction s as [|c s IH]; intros [|k]; cbn [re_scan skipn]; try reflexivity.
  apply IH.
Qed.

Lemma re_sub_nil : forall r f, re_sub r f [] = [].
Proof. reflexivity. Qed.

Lemma re_sub_miss : forall r f c s,
  re_match r (c :: s) = None -> re_sub r f (c :: s) = c :: re_sub r f s.
Proof. intros r f c s H. unfold re_sub. cbn. now rewrite H. Qed.

Lemma re_sub_hit : forall r f c s n gs,
  re_match r (c :: s) = Some (S n, gs) ->
  re_sub r f (c :: s)
  = f (firstn (S n) (c :: s)) gs ++ re_sub r f (skipn (S n) (c :: s)).
Proof.
  intros r f c s n gs H. unfold re_sub. cbn [re_scan]. rewrite H.
  cbn [flat_map emit]. f_equal.
  rewrite re_scan_skip. now rewrite Nat.sub_1_r.
Qed.

Lemma re_findall_miss : forall r c s,
  re_match r (c :: s) = None -> re_findall r (c :: s) = re_findall r s.
Proof. intros r c s H. unfold re_findall. cbn. now rewrite H. Qed.

Lemma re_findall_hit : forall r c s n gs,
  re_match r (c :: s) = Some (S n, gs) ->
  re_findall r (c :: s) = gs :: re_findall r (skipn (S n) (c :: s)).
Proof.
  intros r c s n gs H. unfold re_findall. cbn [re_scan]. rewrite H.
  cbn [hits]. f_equal. rewrite re_scan_skip. now rewrite Nat.sub_1_r.
Qed.

Lemma re_match_lit : forall M s,
  re_match [A (Lit M)] s
  = if startswith M s then Some (length M, []) else None.
Proof. intros M s. unfold re_match. cbn. now destruct (startswith M s). Qed.

Lemma startswith_head_neq : forall h tl c s,
  Ascii.eqb c h = false -> startswith (h :: tl) (c :: s) = false.
Proof. intros h tl c s H. cbn. now rewrite Ascii.eqb_sym, H. Qed.

(** A prefix test cannot look past a character the marker does not have. *)
Lemma startswith_cut : forall M q c t,
  mem_chr c M = false ->
  startswith M (q ++ c :: t) = startswith M (q ++ [c]).
Proof.
  induction M as [|x M IH]; intros q c t H; [reflexivity|].
  cbn in H. apply orb_false_elim in H. destruct H as [Hx HM].
  destruct q as [|y q]; cbn.
  - rewrite (Ascii.eqb_sym x c), Hx. reflexivity.
  - destruct (Ascii.eqb x y); cbn; [now apply IH|reflexivity].
Qed.

Lemma mem_chr_false_In : forall c s, mem_chr c s = false -> ~ In c s.
Proof.
  intros c s H Hin. unfold mem_chr in H.
  assert (existsb (Ascii.eqb c) s = true) as E.
  { apply existsb_exists. exists c. split; [assumption|apply Ascii.eqb_refl]. }
  congruence.
Qed.

Lemma mem_chr_true_In : forall c s, mem_chr c s = true -> In c s.
Proof.
  intros c s H. apply existsb_exists in H. destruct H as (x & Hx & E).
  apply Ascii.eqb_eq in E. now subst.
Qed.

(** If [M] is a prefix of [t ++ y], then [M] lies within [t] or [t] within
    [M]. *)
Lemma startswith_app_cases : forall M t y,
  startswith M (t ++ y) = true ->
  (forall c, In c M -> In c t) \/ (forall c, In c t -> In c M).
Proof.
  induction M as [|x M IH]; intros t y H.
  - left. intros c [].
  - destruct t as [|z t].
    + right. intros c [].
    + cbn in H. apply andb_prop in H. destruct H as [Hxz H].
      apply Ascii.eqb_eq in Hxz. subst z.
      destruct (IH _ _ H) as [HM|Ht].
      * left. intros c [->|Hc]; [now left|right; now apply HM].
      * right. intros c [->|Hc]; [now left|right; now apply Ht].
Qed.

Section Marker.
(** A marker [h :: tl] whose first character does not occur again in it,
    that holds a closing brace and neither a bracket nor a slash, and
    that does not start with an opening brace: both frame markers are
    such. *)
Variables (h : ascii) (tl : str).
Let M := h :: tl.
Hypothesis border_free : mem_chr h tl = false.
Hypothesis has_close : mem_chr "}" M = true.
Hypothesis no_bracket : mem_chr "]" M = false.
Hypothesis no_slash : mem_chr "/" M = false.
Hypothesis not_open : Ascii.eqb "{" h = false.

Lemma occ_skip_inside : forall t u,
  (forall c, In c t -> In c tl) -> occ M (t ++ u) = occ M u.
Proof.
  induction t as [|c t IH]; intros u Ht; [reflexivity|].
  cbn [app occ]. rewrite IH by (intros x Hx; apply Ht; now right).
  unfold M. rewrite startswith_head_neq; [reflexivity|].
  destruct (Ascii.eqb c h) eqn:E; [|reflexivity].
  apply Ascii.eqb_eq in E. subst c.
  exfalso. apply (mem_chr_false_In _ _ border_free). apply Ht. now left.
Qed.

(** [len(re.findall(marker, s))] counts the occurrences. *)
Lemma count_matches_occ : forall s, count_matches [A (Lit M)] s = occ M s.
Proof.
  intros s. unfold count_matches.
  remember (length s) as n eqn:Hn. revert s Hn.
  induction n as [n IH] using lt_wf_ind. intros [|c s] Hn; [reflexivity|].
  cbn [occ]. destruct (startswith M (c :: s)) eqn:E.
  - rewrite (re_findall_hit _ _ _ (length tl) []).
    2:{ rewrite re_match_lit, E. reflexivity. }
    pose proof (startswith_app_skipn _ _ E) as Hs.
    change (length M) with (S (length tl)) in Hs.
    cbn [length]. rewrite (IH (length (skipn (S (length tl)) (c :: s)))); [|cbn in *; rewrite length_skipn; lia|reflexivity].
    f_equal. injection Hs as _ Hs. cbn [skipn]. rewrite Hs at 2.
    rewrite occ_skip_inside; [reflexivity|auto].
  - rewrite re_findall_miss by (rewrite re_match_lit, E; reflexivity).
    cbn. apply (IH (length s)); [subst n; cbn; lia|reflexivity].
Qed.

(** A bracket separates the occurrences before it from those after it. *)
Lemma occ_split_bracket : forall q t,
  occ M (q ++ "]"%char :: t) = occ M (q ++ ["]"%char]) + occ M t.
Proof.
  induction q as [|x q IH]; intros t.
  - cbn [app occ]. unfold M.
    assert (Ascii.eqb "]" h = false) as E.
    { cbn in no_bracket. now apply orb_false_elim in no_bracket. }
    rewrite !startswith_head_neq by exact E. reflexivity.
  - cbn [app occ]. rewrite IH.
    change (x :: q ++ "]"%char :: t) with ((x :: q) ++ "]"%char :: t).
    change (x :: q ++ ["]"%char]) with ((x :: q) ++ ["]"%char]).
    rewrite (startswith_cut M (x :: q) "]" t no_bracket). lia.
Qed.

(** No occurrence starts in a brace-free stretch that ends in a slash. *)
Lemma occ_dead_prefix : forall v y,
  mem_chr "}" v = false ->
  occ M (v ++ "/"%char :: y) = occ M y.
Proof.
  assert (Ascii.eqb "/" h = false) as Hh.
  { cbn in no_slash. now apply orb_false_elim in no_slash. }
  induction v as [|c v IH]; intros y Hv.
  - cbn [app occ]. unfold M. now rewrite startswith_head_neq.
  - cbn in Hv. apply orb_false_elim in Hv. destruct Hv as [Hc Hv].
    cbn [app occ]. rewrite IH by exact Hv.
    destruct (startswith M (c :: v ++ "/"%char :: y)) eqn:E; [|reflexivity].
    exfalso.
    replace (c :: v ++ "/"%char :: y) with ((c :: v ++ ["/"%char]) ++ y) in E
      by (cbn; now rewrite <- app_assoc).
    destruct (startswith_app_cases _ _ _ E) as [HM|Ht].
    + pose proof (HM _ (mem_chr_true_In _ _ has_close)) as Hin.
      destruct Hin as [Hin|Hin].
      * subst c. cbn in Hc. discriminate.
      * apply in_app_or in Hin. destruct Hin as [Hin|[Hin|[]]].
        -- now apply (mem_chr_false_In _ _ Hv).
        -- discriminate.
    + apply (mem_chr_false_In _ _ no_slash). apply Ht. right.
      apply in_or_app. right. now left.
Qed.

Lemma occ_open_brace : forall y, occ M ("{"%char :: y) = occ M y.
Proof.
  intros y. cbn [occ]. unfold M. now rewrite startswith_head_neq.
Qed.
End Marker.

(** A substitution whose every replacement is such leaves the count as it
    is. *)
Lemma re_sub_occ : forall M r f,
  (forall s n gs, re_match r s = Some (n, gs) ->
     n <> 0 /\ occ_equiv M (firstn n s) (f (firstn n s) gs)) ->
  forall s p, occ M (p ++ re_sub r f s) = occ M (p ++ s).
Proof.
  intros M r f Hedit s.
  remember (length s) as len eqn:Hlen. revert s Hlen.
  induction len as [len IH] using lt_wf_ind. intros [|c s] Hlen p; [reflexivity|].
  destruct (re_match r (c :: s)) as [[n gs]|] eqn:E.
  - destruct (Hedit _ _ _ E) as [Hn Heq]. destruct n as [|n]; [congruence|].
    rewrite (re_sub_hit _ _ _ _ _ _ E).
    rewrite app_assoc.
    rewrite (IH (length (skipn (S n) (c :: s)))); [|subst len; cbn [skipn length]; rewrite length_skipn; lia|reflexivity].
    rewrite <- app_assoc. rewrite <- (Heq p). now rewrite firstn_skipn.
  - rewrite (re_sub_miss _ _ _ _ E).
    change (p ++ c :: re_sub r f s) with (p ++ [c] ++ re_sub r f s).
    change (p ++ c :: s) with (p ++ [c] ++ s).
    rewrite !app_assoc. apply (IH (length s)); [subst len; cbn; lia|reflexivity].
Qed.

Lemma re_sub_occ_whole : forall M r f,
  (forall s n gs, re_match r s = Some (n, gs) ->
     n <> 0 /\ occ_equiv M (firstn n s) (f (firstn n s) gs)) ->
  forall s, occ M (re_sub r f s) = occ M s.
Proof. intros M r f H s. exact (re_sub_occ M r f H s []). Qed.

Ltac inv_den :=
  repeat match goal with
    | H : Forall2 _ (_ :: _) _ |- _ => inversion H; subst; clear H
    | H : Forall2 _ [] _ |- _ => inversion H; subst; clear H
    | H : item_den (G _) _ |- _ => destruct H as (? & -> & H)
    | H : item_den (A _) _ |- _ => progress cbn [item_den atom_den] in H
    | H : atom_den _ _ |- _ => progress cbn [atom_den] in H
    | H : _ /\ _ |- _ => destruct H
    | H : ?w = _ |- _ => is_var w; subst w
    end.

Lemma forallb_not_chr : forall c s, forallb (not_chr c) s = true -> mem_chr c s = false.
Proof.
  induction s as [|x s IH]; intros H; [reflexivity|].
  cbn in *. apply andb_prop in H. destruct H as [Hx H].
  unfold not_chr in Hx. rewrite Ascii.eqb_sym in Hx.
  apply negb_true_iff in Hx. rewrite Hx. now apply IH.
Qed.

Lemma mem_chr_app : forall c a b, mem_chr c (a ++ b) = mem_chr c a || mem_chr c b.
Proof. intros. apply existsb_app. Qed.

Section MarkerPaths.
(** The same kind of marker, through the four passes of
    [_fix_image_paths]: each replacement rewrites the argument of one
    directive, between its opening brace and the last slash-terminated
    piece it touches, where no occurrence of the marker can start. *)
Variables (h : ascii) (tl : str).
Let M := h :: tl.
Hypothesis has_close : mem_chr "}" M = true.
Hypothesis no_bracket : mem_chr "]" M = false.
Hypothesis no_slash : mem_chr "/" M = false.
Hypothesis not_open : Ascii.eqb "{" h = false.

Lemma occ_equiv_directive : forall a x x',
  (forall y, occ M (x ++ y) = occ M (x' ++ y)) ->
  occ_equiv M (a ++ "]"%char :: "{"%char :: x) (a ++ "]"%char :: "{"%char :: x').
Proof.
  intros a x x' H p q.
  replace (p ++ (a ++ "]"%char :: "{"%char :: x) ++ q)
    with ((p ++ a) ++ "]"%char :: "{"%char :: (x ++ q))
    by (now rewrite <- !app_assoc).
  replace (p ++ (a ++ "]"%char :: "{"%char :: x') ++ q)
    with ((p ++ a) ++ "]"%char :: "{"%char :: (x' ++ q))
    by (now rewrite <- !app_assoc).
  unfold M in *.
  rewrite (occ_split_bracket h tl no_bracket (p ++ a) ("{"%char :: x ++ q)).
  rewrite (occ_split_bracket h tl no_bracket (p ++ a) ("{"%char :: x' ++ q)).
  rewrite !(occ_open_brace h tl not_open). now rewrite H.
Qed.

Let dead := occ_dead_prefix h tl has_close no_slash.

Lemma double_images_edit : forall s n gs,
  re_match re_double_images s = Some (n, gs) ->
  n <> 0 /\
  occ_equiv M (firstn n s)
    (lit "\includegraphics[" ++ grp 1 gs ++ lit "]{images/" ++ grp 2 gs ++ lit "}").
Proof.
  intros s n gs H. apply re_match_sound in H.
  destruct H as (ws & Hws & -> & -> & _ & ->).
  unfold re_double_images in Hws. inv_den.
  cbn [concat groups_of grp nth Nat.sub]. rewrite !app_nil_r.
  split; [rewrite length_app; cbn; lia|].
  rewrite !(app_assoc (lit "\includegraphics[")).
  apply (occ_equiv_directive _
           (lit "images/images/" ++ _ ++ lit "}") (lit "images/" ++ _ ++ lit "}")).
  intros y.
  rewrite <- !app_assoc.
  match goal with
  | |- occ _ (_ ++ ?r) = _ => transitivity (occ M r)
  end.
  - exact (dead (lit "images/images") _ eq_refl).
  - symmetry. exact (dead (lit "images") _ eq_refl).
Qed.
Lemma other_images_edit : forall s n gs,
  re_match re_other_images s = Some (n, gs) ->
  n <> 0 /\
  occ_equiv M (firstn n s)
    (lit "\includegraphics[" ++ grp 1 gs ++ lit "]{images/" ++ grp 3 gs ++ lit "}").
Proof.
  intros s n gs H. apply re_match_sound in H.
  destruct H as (ws & Hws & -> & -> & _ & ->).
  unfold re_other_images in Hws. inv_den.
  cbn [concat groups_of grp nth Nat.sub]. rewrite !app_nil_r.
  split; [rewrite length_app; cbn; lia|].
  rewrite !(app_assoc (lit "\includegraphics[")).
  match goal with
  | |- occ_equiv _ (_ ++ _ ++ ?g2 ++ _ ++ ?g3 ++ _) _ =>
      apply (occ_equiv_directive _
               (g2 ++ lit "/images/" ++ g3 ++ lit "}")
               (lit "images/" ++ g3 ++ lit "}"));
      intros y;
      replace ((g2 ++ lit "/images/" ++ g3 ++ lit "}") ++ y)
        with ((g2 ++ lit "/images") ++ "/"%char :: (g3 ++ lit "}" ++ y))
        by (now rewrite <- !app_assoc);
      rewrite (dead (g2 ++ lit "/images"))
        by (rewrite mem_chr_app, forallb_not_chr by assumption; reflexivity)
  end.
  rewrite <- !app_assoc.
  symmetry. exact (dead (lit "images") _ eq_refl).
Qed.

(** The last two passes put [images/] before the whole argument. *)
Lemma prefix_images_equiv : forall a g,
  occ_equiv M (a ++ lit "]{" ++ g ++ lit "}")
              (a ++ lit "]{images/" ++ g ++ lit "}").
Proof.
  intros a g.
  apply (occ_equiv_directive a (g ++ lit "}") (lit "images/" ++ g ++ lit "}")).
  intros y. rewrite <- !app_assoc.
  symmetry. exact (dead (lit "images") _ eq_refl).
Qed.

Lemma page_img_edit : forall s n gs,
  re_match re_page_img s = Some (n, gs) ->
  n <> 0 /\
  occ_equiv M (firstn n s)
    (lit "\includegraphics[" ++ grp 1 gs ++ lit "]{images/" ++ grp 2 gs ++ lit "}").
Proof.
  intros s n gs H. apply re_match_sound in H.
  destruct H as (ws & Hws & -> & -> & _ & ->).
  unfold re_page_img in Hws. inv_den.
  split; [cbn [concat app length]; discriminate|].
  match goal with
  | |- occ_equiv _ (concat [?i; ?g1; _; ?g; _]) _ =>
      exact (prefix_images_equiv (i ++ g1) g)
  end.
Qed.

Lemma output_page_img_edit : forall s n gs,
  re_match re_output_page_img s = Some (n, gs) ->
  n <> 0 /\
  occ_equiv M (firstn n s)
    (lit "\includegraphics[" ++ grp 1 gs ++ lit "]{images/" ++ grp 2 gs ++ lit "}").
Proof.
  intros s n gs H. apply re_match_sound in H.
  destruct H as (ws & Hws & -> & -> & _ & ->).
  unfold re_output_page_img in Hws. inv_den.
  split; [cbn [concat app length]; discriminate|].
  match goal with
  | |- occ_equiv _ (concat [?i; ?g1; _; ?g; _]) _ =>
      exact (prefix_images_equiv (i ++ g1) g)
  end.
Qed.

(** The path pass neither adds nor removes an occurrence of the marker. *)
Lemma _fix_image_paths_occ : forall s,
  occ M (_fix_image_paths s) = occ M s.
Proof.
  intros s. unfold _fix_image_paths.
  repeat match goal with
    | |- context [re_sub re_output_page_img ?f ?x] =>
        rewrite (re_sub_occ_whole M re_output_page_img f output_page_img_edit x)
    | |- context [re_sub re_page_img ?f ?x] =>
        rewrite (re_sub_occ_whole M re_page_img f page_img_edit x)
    | |- context [re_sub re_other_images ?f ?x] =>
        rewrite (re_sub_occ_whole M re_other_images f other_images_edit x)
    | |- context [re_sub re_double_images ?f ?x] =>
        rewrite (re_sub_occ_whole M re_double_images f double_images_edit x)
    end.
  reflexivity.
Qed.
End MarkerPaths.


(** ** The clean operation on the empty body *)

(** C9. Applied to the empty body, the clean operation returns the empty
    string at its first test: no repair pass runs, no counter is compared,
    and neither the frame-balance nor the brace-balance error is raised. *)
Theorem C9_clean_empty_body :
  clean_latex_response (lit "") = Ok (lit "").
Proof. reflexivity. Qed.

(** ** Brace balance *)


Lemma _fix_brace_matching_balanced :
  forall s out,
    _fix_brace_matching s = Ok out ->
    out = s /\ count_chr "{" s = count_chr "}" s.
Proof.
  intros s out. unfold _fix_brace_matching.
  destruct (count_chr "{" s =? count_chr "}" s) eqn:E; cbn; intros H.
  - injection H as <-. split; [reflexivity | now apply Nat.eqb_eq].
  - discriminate.
Qed.

(** The clean operation is the bind of its last two checks around the path
    pass. *)
Lemma clean_latex_response_inv :
  forall s out,
    clean_latex_response s = Ok out ->
    s = [] /\ out = []
    \/ exists checked,
         (exists before, _fix_latex_syntax before = Ok checked)
         /\ _fix_brace_matching (_fix_image_paths checked) = Ok out.
Proof.
  intros s out. unfold clean_latex_response.
  destruct s as [|c s'].
  - intros H. inversion H. now left.
  - match goal with
    | |- context [bind (_fix_latex_syntax ?b) _] => set (before := b)
    end.
    destruct (_fix_latex_syntax before) as [checked|e] eqn:E; cbn [bind].
    + intros H. right. exists checked. split; [now exists before|].
      destruct (_fix_brace_matching (_fix_image_paths checked)) eqn:E2;
        cbn [bind] in H; congruence.
    + discriminate.
Qed.


(** Both outcomes occur. *)
Example clean_raises_on_brace_mismatch :
  clean_latex_response (lit "\textbf{a")
  = Raise (ValueError (lit "Brace mismatch: 1 open braces, 0 close braces")).
Proof. vm_compute. reflexivity. Qed.

Example clean_raises_on_frame_mismatch :
  clean_latex_response
    (unlines [lit "\begin{frame}"; lit "\begin{frame}"; lit "\end{frame}"])
  = Raise (ValueError (lit "Frame mismatch: 2 begin frames, 1 end frames")).
Proof. vm_compute. reflexivity. Qed.

Example clean_returns_repaired_body :
  clean_latex_response
    (unlines [lit "```latex"; lit "\begin{document}"; lit "\begin{frame}{A & B}";
              lit "\begin{enumerate}\item x\end{enumerate}"; lit "  \centering  ";
              lit ""; lit "  \includegraphics[width=1]{images/images/a.png}";
              lit "\end{frame}"; lit "\end{document} trailing"; lit "```"])
  = Ok (unlines [lit "\begin{frame}{A \& B}";
                 lit "\begin{itemize}\item x\end{itemize}"; lit "  \centering";
                 lit "\includegraphics[width=1]{images/a.png}"; lit "\end{frame}"]).
Proof. vm_compute. reflexivity. Qed.

(** ** Frame balance *)

Lemma count_begin_frame_occ : forall s,
  count_matches re_begin_frame s = occ (lit "\begin{frame}") s.
Proof.
  intros s. exact (count_matches_occ "\" (lit "begin{frame}") eq_refl s).
Qed.

Lemma count_end_frame_occ : forall s,
  count_matches re_end_frame s = occ (lit "\end{frame}") s.
Proof.
  intros s. exact (count_matches_occ "\" (lit "end{frame}") eq_refl s).
Qed.





(** ** The planner's response parsing *)

Lemma find_from_absent : forall c pre rest i,
  contains [c] pre = false ->
  find_from [c] (pre ++ c :: rest) i = (i + Z.of_nat (length pre))%Z.
Proof.
  intros c. induction pre as [|x pre IH]; intros rest i H.
  - cbn [app find_from startswith length]. rewrite Ascii.eqb_refl. cbn. lia.
  - cbn [contains] in H. apply orb_false_elim in H. destruct H as [Hx Hpre].
    cbn [app find_from]. 
    replace (startswith [c] (x :: pre ++ c :: rest)) with (startswith [c] (x :: pre)).
    + rewrite Hx, IH by exact Hpre. cbn [length]. lia.
    + cbn [startswith]. now destruct (Ascii.eqb c x).
Qed.

Lemma rfind_from_absent : forall c post i,
  contains [c] post = false -> rfind_from [c] post i = (-1)%Z.
Proof.
  intros c. induction post as [|x post IH]; intros i H; [reflexivity|].
  cbn [contains] in H. apply orb_false_elim in H. destruct H as [Hx Hpost].
  cbn [rfind_from]. cbv zeta. rewrite IH by exact Hpost. cbn [Z.eqb].
  now rewrite Hx.
Qed.

Lemma rfind_from_last : forall c pre post i, (0 <= i)%Z ->
  contains [c] post = false ->
  rfind_from [c] (pre ++ c :: post) i = (i + Z.of_nat (length pre))%Z.
Proof.
  intros c. induction pre as [|x pre IH]; intros post i Hi H.
  - cbn [app rfind_from length]. cbv zeta.
    rewrite rfind_from_absent by exact H. cbn [Z.eqb startswith].
    rewrite Ascii.eqb_refl. cbn. lia.
  - cbn [app rfind_from length]. cbv zeta.
    rewrite IH by (lia || exact H).
    destruct (i + 1 + Z.of_nat (length pre) =? -1)%Z eqn:E; [|lia].
    apply Z.eqb_eq in E. lia.
Qed.

Lemma slice_middle : forall (pre mid post : str),
  slice (pre ++ mid ++ post) (Z.of_nat (length pre))
        (Z.of_nat (length pre + length mid)) = mid.
Proof.
  intros pre mid post. unfold slice, slice_index. cbv zeta.
  rewrite !length_app.
  replace (Z.of_nat (length pre) <? 0)%Z with false by (symmetry; apply Z.ltb_ge; lia).
  replace (Z.of_nat (length pre + length mid) <? 0)%Z with false
    by (symmetry; apply Z.ltb_ge; lia).
  replace (Z.to_nat (Z.min _ (Z.max 0 (Z.of_nat (length pre))))) with (length pre) by lia.
  replace (Z.to_nat (Z.min _ (Z.max 0 (Z.of_nat (length pre + length mid)))))
    with (length pre + length mid) by lia.
  replace (length pre + length mid - length pre) with (length mid) by lia.
  rewrite skipn_app, skipn_all, Nat.sub_diag. cbn [skipn app].
  rewrite firstn_app, firstn_all, Nat.sub_diag. cbn [firstn]. apply app_nil_r.
Qed.

Lemma find_from_none : forall c s i,
  contains [c] s = false -> find_from [c] s i = (-1)%Z.
Proof.
  intros c. induction s as [|x s IH]; intros i H; [reflexivity|].
  cbn [contains] in H. apply orb_false_elim in H. destruct H as [Hx Hs].
  cbn [find_from]. rewrite Hx. now apply IH.
Qed.

Lemma rfind_from_app_absent : forall c a b i,
  contains [c] b = false -> rfind_from [c] (a ++ b) i = rfind_from [c] a i.
Proof.
  intros c. induction a as [|x a IH]; intros b i H.
  - cbn [app]. now rewrite rfind_from_absent.
  - cbn [app rfind_from]. cbv zeta. rewrite (IH b (i + 1)%Z H).
    cbn [startswith]. reflexivity.
Qed.

Lemma rfind_from_bound : forall c s i,
  (rfind_from [c] s i = -1
   \/ (i <= rfind_from [c] s i < i + Z.of_nat (length s)))%Z.
Proof.
  intros c. induction s as [|x s IH]; intros i; [left; reflexivity|].
  cbn [rfind_from]. cbv zeta. cbn [length].
  destruct (rfind_from [c] s (i + 1) =? -1)%Z eqn:E.
  - destruct (startswith [c] (x :: s)); [right; lia | left; reflexivity].
  - right. destruct (IH (i + 1)%Z) as [E'|H]; [|lia].
    rewrite E' in E. discriminate.
Qed.

(** With an opening brace before a closing one, the planner decodes the
    text from the first to the last, and once more after the repairs when
    the decoder refuses it. *)
Lemma parse_between_braces :
  forall (json_loads : str -> loads_result) (pre body post : str),
    contains (lit "{") pre = false ->
    contains (lit "}") post = false ->
    parse_image_analysis_response json_loads
      (pre ++ (lit "{" ++ body ++ lit "}") ++ post)
    = match json_loads (lit "{" ++ body ++ lit "}") with
      | Loaded plan => Ok plan
      | Raises e => Raise e
      | JSONDecodeError =>
          match json_loads (repair_json (lit "{" ++ body ++ lit "}")) with
          | Loaded plan => Ok plan
          | Raises e => Raise e
          | JSONDecodeError => Ok empty_plan
          end
      end.
Proof.
  intros loads pre body post Hpre Hpost.
  set (json_str := lit "{" ++ body ++ lit "}").
  unfold parse_image_analysis_response. cbv zeta.
  assert (find (lit "{") (pre ++ json_str ++ post) = Z.of_nat (length pre)) as Hf.
  { unfold find, json_str.
    change (lit "{" ++ body ++ lit "}") with ("{"%char :: body ++ lit "}").
    cbn [app]. now rewrite (find_from_absent "{" pre _ 0%Z Hpre). }
  assert (rfind (lit "}") (pre ++ json_str ++ post)
          = Z.of_nat (length pre + length json_str - 1)) as Hr.
  { unfold rfind, json_str.
    replace (pre ++ (lit "{" ++ body ++ lit "}") ++ post)
      with ((pre ++ lit "{" ++ body) ++ "}"%char :: post)
      by (rewrite <- !app_assoc; reflexivity).
    rewrite (rfind_from_last "}" _ post 0%Z ltac:(lia) Hpost).
    rewrite !length_app.
    change (length (lit "{")) with 1. change (length (lit "}")) with 1. lia. }
  rewrite Hf, Hr.
  assert (0 < length json_str) as Hlen.
  { unfold json_str. rewrite length_app. change (length (lit "{")) with 1. lia. }
  replace ((Z.of_nat (length pre) =? -1)%Z) with false by (symmetry; apply Z.eqb_neq; lia).
  replace ((Z.of_nat (length pre + length json_str - 1) + 1 <=? Z.of_nat (length pre))%Z)
    with false by (symmetry; apply Z.leb_gt; lia).
  cbn [orb].
  replace (Z.of_nat (length pre + length json_str - 1) + 1)%Z
    with (Z.of_nat (length pre + length json_str)) by lia.
  now rewrite slice_middle.
Qed.

(** Without an opening brace, or without a closing brace behind the first
    opening one, the planner raises before it decodes anything. *)
Lemma parse_without_object :
  forall (json_loads : str -> loads_result),
    (forall response_content,
       contains (lit "{") response_content = false ->
       parse_image_analysis_response json_loads response_content
       = Raise (ValueError no_json_msg))
    /\ (forall pre post,
          contains (lit "{") pre = false ->
          contains (lit "}") post = false ->
          parse_image_analysis_response json_loads (pre ++ lit "{" ++ post)
          = Raise (ValueError no_json_msg)).
Proof.
  intros loads. split.
  - intros s H. unfold parse_image_analysis_response. cbv zeta.
    unfold find. change (lit "{") with ["{"%char] in *.
    now rewrite (find_from_none _ _ 0%Z H).
  - intros pre post Hpre Hpost. unfold parse_image_analysis_response. cbv zeta.
    change (lit "{" ++ post) with ("{"%char :: post).
    change (lit "{") with ["{"%char] in *. change (lit "}") with ["}"%char] in *.
    unfold find, rfind. rewrite (find_from_absent _ pre post 0%Z Hpre).
    rewrite (rfind_from_app_absent "}" pre ("{"%char :: post) 0%Z)
      by (cbn [contains startswith]; cbn; exact Hpost).
    replace ((0 + Z.of_nat (length pre) =? -1)%Z) with false
      by (symmetry; apply Z.eqb_neq; lia).
    replace ((rfind_from ["}"%char] pre 0 + 1 <=? 0 + Z.of_nat (length pre))%Z)
      with true; [reflexivity|].
    symmetry. apply Z.leb_le.
    destruct (rfind_from_bound "}" pre 0%Z) as [->|H]; lia.
Qed.

(** C1 fails as stated: a truncated response that has lost every closing
    brace cannot be decoded, and the planner raises ValueError on it,
    whatever the decoder is. *)
Lemma C1_counterexample :
  json_decoder.loads 100 response_missing_all_braces = JSONDecodeError
  /\ forall json_loads,
       parse_image_analysis_response json_loads response_missing_all_braces
       = Raise (ValueError (lit "No valid JSON found in image analysis response")).
Proof. split; [vm_compute; reflexivity|]. intros json_loads. reflexivity. Qed.

(** C1 (amended). The planner looks for the text from the first opening to
    the last closing brace of the response.  A response without an opening
    brace, or without a closing brace behind its first opening brace, makes
    it raise ValueError.  Otherwise it decodes that text: a value the
    decoder gives is returned as it is; when the decoder refuses the text
    with a JSONDecodeError the planner repairs it and decodes once more, and
    when the decoder refuses that too it returns the empty plan without
    raising.  Any other exception of the decoder is not caught. *)
Theorem C1_no_object_raises_else_decoded_or_empty_plan :
  forall (json_loads : str -> loads_result),
    (forall response_content,
       contains (lit "{") response_content = false ->
       parse_image_analysis_response json_loads response_content
       = Raise (ValueError no_json_msg))
    /\ (forall pre post,
          contains (lit "{") pre = false ->
          contains (lit "}") post = false ->
          parse_image_analysis_response json_loads (pre ++ lit "{" ++ post)
          = Raise (ValueError no_json_msg))
    /\ (forall pre body post,
          contains (lit "{") pre = false ->
          contains (lit "}") post = false ->
          let json_str := lit "{" ++ body ++ lit "}" in
          parse_image_analysis_response json_loads (pre ++ json_str ++ post)
          = match json_loads json_str with
            | Loaded plan => Ok plan
            | Raises e => Raise e
            | JSONDecodeError =>
                match json_loads (repair_json json_str) with
                | Loaded plan => Ok plan
                | Raises e => Raise e
                | JSONDecodeError => Ok empty_plan
                end
            end).
Proof.
  intros json_loads.
  destruct (parse_without_object json_loads) as [Hnone Hopen].
  split; [exact Hnone|]. split; [exact Hopen|].
  intros pre body post Hpre Hpost json_str.
  exact (parse_between_braces json_loads pre body post Hpre Hpost).
Qed.

(** Scenario C, with the decoder of the examples.  The response that has
    lost every closing brace raises; the one that keeps a closing brace
    and cannot be decoded gives the empty plan; the one that keeps a
    closing brace and can be decoded after the repairs gives the plan that
    was decoded. *)
Lemma C1_witness :
  parse_image_analysis_response (json_decoder.loads 100) response_missing_all_braces
  = Raise (ValueError no_json_msg)
  /\ parse_image_analysis_response (json_decoder.loads 100) response_missing_last_brace
     = Ok empty_plan
  /\ parse_image_analysis_response (json_decoder.loads 100) response_cut_in_text
     = Ok (JObject [(lit "image_decisions",
                     JObject [(lit "a.png",
                               JObject [(lit "action", JString (lit "REMOVE"));
                                        (lit "reasoning", JString (lit "shows \"))])])]).
Proof.
  pose proof (C1_no_object_raises_else_decoded_or_empty_plan (json_decoder.loads 100))
    as (_ & Hopen & Hboth).
  split; [|split].
  - exact (Hopen []
             (dq "'image_decisions': {'page_0_img_0.png': {'action': 'KEEP_AS_IMAGE', 'reasoning': 'a ch")
             eq_refl eq_refl).
  - etransitivity.
    + exact (Hboth (lit "Here is the plan: ")
               (dq "'image_decisions': {'page_0_img_0.png': {'action': 'REMOVE'}")
               [] eq_refl eq_refl).
    + vm_compute. reflexivity.
  - etransitivity.
    + exact (Hboth []
               (dq "'image_decisions': {'a.png': {'action': 'REMOVE', 'reasoning': 'shows \'}}")
               (lit " and no") eq_refl eq_refl).
    + vm_compute. reflexivity.
Defined.

(** A response the decoder accepts is returned as decoded, and one that it
    accepts after the repairs (a trailing comma here) as well. *)
Example parse_valid_response :
  parse_image_analysis_response (json_decoder.loads 100)
    (dq "Plan: {'image_decisions': {'a.png': {'action': 'REMOVE'}}} done")
  = Ok (JObject [(lit "image_decisions",
                  JObject [(lit "a.png",
                            JObject [(lit "action", JString (lit "REMOVE"))])])]).
Proof. vm_compute. reflexivity. Qed.

Example parse_repaired_response :
  parse_image_analysis_response (json_decoder.loads 100)
    (dq "{'image_decisions': {'a.png': {'action': 'REMOVE',}}}")
  = Ok (JObject [(lit "image_decisions",
                  JObject [(lit "a.png",
                            JObject [(lit "action", JString (lit "REMOVE"))])])]).
Proof. vm_compute. reflexivity. Qed.

(** An integer of 5000 digits in the response: the decoder raises
    ValueError, and so does the planner. *)
Example parse_raises_on_long_integer :
  parse_image_analysis_response (json_decoder.loads 100)
    (dq "{'image_decisions': {}, 'n': " ++ repeat "1"%char 5000 ++ lit "}")
  = Raise (ValueError (json_decoder.too_many_digits_msg 5000)).
Proof. vm_compute. reflexivity. Qed.

(** A response nested deeper than the interpreter allows: the decoder
    raises RecursionError, and so does the planner. *)
Example parse_raises_on_deep_nesting :
  parse_image_analysis_response (json_decoder.loads 3)
    (dq "{'a': {'b': {'c': {}}}}")
  = Raise (RecursionError (json_decoder.too_deep_msg "object")).
Proof. vm_compute. reflexivity. Qed.

(** The escapes and constants of the decoder. *)
Example loads_escapes_and_constants :
  json_decoder.loads 100 (dq "{'a': 'é😀', 'b': [NaN, -Infinity, 1.5e3]}")
  = Loaded (JObject [(lit "a", JString (lit "é😀"));
                     (lit "b", JArray [JNumber (lit "NaN");
                                       JNumber (lit "-Infinity");
                                       JNumber (lit "1.5e3")])]).
Proof. vm_compute. reflexivity. Qed.

(** ** Image-path normalisation *)

(** The doubled prefix of an ordinary filename is collapsed. *)
Example fix_image_paths_collapses_plain_name :
  _fix_image_paths (include "images/images/x.png") = include "images/x.png"
  /\ _fix_image_paths (include "images/x.png") = include "images/x.png".
Proof. split; vm_compute; reflexivity. Qed.

(** C3, at the failing input.  For a filename of the extraction's naming
    scheme the first pass collapses the doubled prefix, and the third pass,
    whose pattern also matches an argument that already starts with
    [images/], puts the prefix back: the pass returns the directive with
    the doubled prefix. *)
Theorem C3_doubled_prefix_survives_for_page_img :
  collapse_double_images (include "images/images/page_1_img_0.png")
  = include "images/page_1_img_0.png"
  /\ _fix_image_paths (include "images/images/page_1_img_0.png")
     = include "images/images/page_1_img_0.png"
  /\ _fix_image_paths (include "images/page_1_img_0.png")
     = include "images/images/page_1_img_0.png".
Proof. repeat split; vm_compute; reflexivity. Qed.

(** C7, at the failing input.  A bare filename of the extraction's naming
    scheme gets the prefix once by one application and twice by two. *)
Theorem C7_fix_image_paths_twice_differs :
  _fix_image_paths (include "page_1_img_0.png")
  = include "images/page_1_img_0.png"
  /\ _fix_image_paths (_fix_image_paths (include "page_1_img_0.png"))
     = include "images/images/page_1_img_0.png"
  /\ str_eqb (_fix_image_paths (_fix_image_paths (include "page_1_img_0.png")))
             (_fix_image_paths (include "page_1_img_0.png"))
     = false.
Proof. repeat split; vm_compute; reflexivity. Qed.

(** With a stale output prefix every application adds to the path. *)
Example fix_image_paths_output_prefix :
  _fix_image_paths (include "output/page_1_img_0.png")
  = include "images/images/output/page_1_img_0.png".
Proof. vm_compute. reflexivity. Qed.

(** ** Duplicate-image removal *)

Lemma dedup_lines_cons : forall seen line rest,
  dedup_lines seen (line :: rest)
  = match line_filename line with
    | Some f =>
        if mem f seen then dedup_lines seen rest
        else line :: dedup_lines (f :: seen) rest
    | None => line :: dedup_lines seen rest
    end.
Proof.
  intros seen line rest. cbn [dedup_lines]. unfold line_filename.
  destruct (contains (lit "\includegraphics") line); [|reflexivity].
  destruct (re_search re_includegraphics line); reflexivity.
Qed.

Lemma filenames_app : forall a b, filenames (a ++ b) = filenames a ++ filenames b.
Proof. intros a b. unfold filenames. apply flat_map_app. Qed.

Lemma mem_app : forall x a b, mem x (a ++ b) = mem x a || mem x b.
Proof. intros x a b. unfold mem. apply existsb_app. Qed.

Lemma str_eqb_eq : forall a b, str_eqb a b = true <-> a = b.
Proof.
  induction a as [|x a IH]; intros [|y b]; cbn; try (split; congruence).
  rewrite andb_true_iff, Ascii.eqb_eq, IH. split.
  - intros [-> ->]. reflexivity.
  - intros H. injection H as -> ->. now split.
Qed.

(** With the filename of a line read as the loop reads it, the loop keeps
    exactly the first line of every filename: the set [seen_images] holds
    the filenames of the lines already passed. *)
Lemma dedup_lines_keep_first : forall lines seen before,
  (forall f, mem f seen = mem f (filenames before)) ->
  dedup_lines seen lines = keep_first before lines.
Proof.
  induction lines as [|line rest IH]; intros seen before Hseen; [reflexivity|].
  rewrite dedup_lines_cons. cbn [keep_first]. unfold is_first.
  destruct (line_filename line) as [f|] eqn:E.
  - rewrite <- Hseen. destruct (mem f seen) eqn:Ef; cbn [negb app].
    + apply IH. intros g. rewrite filenames_app, mem_app, <- Hseen.
      cbn [filenames flat_map]. rewrite E. cbn [app mem existsb].
      destruct (str_eqb g f) eqn:Eg; [|now rewrite !orb_false_r].
      apply str_eqb_eq in Eg. subst g. now rewrite Ef.
    + f_equal. apply IH. intros g. rewrite filenames_app, mem_app, <- Hseen.
      cbn [filenames flat_map]. rewrite E. cbn [app mem existsb].
      rewrite orb_false_r. apply orb_comm.
  - cbn [app]. f_equal. apply IH. intros g.
    rewrite filenames_app, mem_app, <- Hseen.
    cbn [filenames flat_map]. rewrite E. cbn [app mem existsb].
    now rewrite orb_false_r.
Qed.

Lemma remove_duplicate_images_keep_first : forall latex_content,
  remove_duplicate_images latex_content
  = join [nl] (keep_first [] (split [nl] latex_content)).
Proof.
  intros s. unfold remove_duplicate_images. f_equal.
  apply dedup_lines_keep_first. reflexivity.
Qed.

(** Two lines with one directive each: the later one is dropped. *)
Example remove_duplicate_images_keeps_first :
  remove_duplicate_images
    (unlines [include "images/fig1.png"; lit "text"; include "fig1.png"])
  = unlines [include "images/fig1.png"; lit "text"].
Proof. vm_compute. reflexivity. Qed.

(** C4, at the failing input.  Only the first directive of a line is
    looked at: the second line is kept although it holds a directive for
    [a.png], which the first line already references. *)
Theorem C4_second_directive_of_a_line_is_not_seen :
  remove_duplicate_images
    (unlines [include "images/a.png";
              include "images/b.png" ++ lit " " ++ include "images/a.png"])
  = unlines [include "images/a.png";
             include "images/b.png" ++ lit " " ++ include "images/a.png"].
Proof. vm_compute. reflexivity. Qed.

(** The other way round, the only line that references [b.png] is dropped
    with the duplicate that precedes it on the line. *)
Example remove_duplicate_images_drops_unseen_image :
  remove_duplicate_images
    (unlines [include "images/a.png";
              include "images/a.png" ++ lit " " ++ include "images/b.png"])
  = unlines [include "images/a.png"].
Proof. vm_compute. reflexivity. Qed.

(** ** Dangling-reference removal *)

(** The directive of a missing file is removed, whatever its directory. *)
Example dangling_reference_removed :
  validate_and_fix_image_references
    (unlines [include "images/present.png"; include "old/missing.png"])
    [lit "/tmp/images/present.png"]
  = unlines [include "images/present.png"; lit ""].
Proof. vm_compute. reflexivity. Qed.

(** C8, at the failing input.  [page_1_img_0.png] is on disk and
    [img_0.png] is not; the removal pattern looks for the missing name
    anywhere in the argument, so the directive of the present file goes
    with that of the missing one. *)
Theorem C8_present_image_removed_with_missing_one :
  validate_and_fix_image_references
    (unlines [include "images/page_1_img_0.png"; include "images/img_0.png"])
    [lit "temp_images/page_1_img_0.png"]
  = unlines [lit ""; lit ""]
  /\ mem (basename (lit "images/page_1_img_0.png"))
         (map basename [lit "temp_images/page_1_img_0.png"])
     = true.
Proof. split; vm_compute; reflexivity. Qed.

(** A directive whose argument ends in a slash has the empty filename, and
    the pattern built from it matches every directive. *)
Example empty_filename_removes_every_directive :
  validate_and_fix_image_references
    (unlines [include "images/page_1_img_0.png"; include "images/"])
    [lit "temp_images/page_1_img_0.png"]
  = unlines [lit ""; lit ""].
Proof. vm_compute. reflexivity. Qed.

(** ** The structure extractor *)

(** For the structured form the body starts with the Contents frame. *)
Lemma structured_form_starts_with_contents :
  forall (pages : list page_data) (imgs : list image),
    startswith contents_header
      (create_basic_latex_structure
         {| markdown := MarkdownPages pages; images := imgs |})
    = true.
Proof.
  intros pages imgs. unfold create_basic_latex_structure. cbn [markdown].
  destruct (page_frames false 0 pages) as [|l ls] eqn:E.
  - reflexivity.
  - change (join [nl] (contents_frame ++ l :: ls))
      with (contents_header ++ [nl] ++ join [nl] (l :: ls)).
    apply startswith_app_refl.
Qed.

(** C6, at the failing input.  For the text form the result is what
    [convert_markdown_to_latex] returns: it starts with the first slide and
    has no Contents frame or table-of-contents directive anywhere. *)
Theorem C6_text_form_has_no_contents_frame :
  create_basic_latex_structure
    {| markdown := MarkdownText (unlines [lit "Introduction"; lit "Some **bold** text"]);
       images := [] |}
  = unlines [lit "\begin{frame}{Slide 1}"; lit "Introduction";
             lit "Some \textbf\{bold\} text"; lit "\end{frame}"]
  /\ contains (lit "\tableofcontents")
       (create_basic_latex_structure
          {| markdown := MarkdownText (unlines [lit "Introduction"; lit "Some **bold** text"]);
             images := [] |})
     = false
  /\ create_basic_latex_structure {| markdown := MarkdownText []; images := [] |}
     = lit "".
Proof. repeat split; vm_compute; reflexivity. Qed.

Example structured_form_three_pages :
  create_basic_latex_structure
    {| markdown :=
         MarkdownPages
           [PageDict {| toc_items := Some [[lit "1"; lit "Intro"; lit "1"]];
                        text := lit "a & b" |};
            PageDict {| toc_items := None; text := lit "" |};
            PageDict {| toc_items := Some []; text := lit "x_1" |}];
       images := [] |}
  = unlines [lit "\begin{frame}{Contents}"; lit "    \tableofcontents";
             lit "\end{frame}"; lit "";
             lit "\begin{frame}{Intro}"; lit "a \& b"; lit "\end{frame}";
             lit "\begin{frame}{Slide 2}"; lit "\end{frame}";
             lit "\begin{frame}{Slide 3}"; lit "x\_1"; lit "\end{frame}"].
Proof. vm_compute. reflexivity. Qed.

(** ** Lines *)

Lemma has_nl_cons : forall c s, has_nl (c :: s) = Ascii.eqb nl c || has_nl s.
Proof. reflexivity. Qed.

Lemma split_nl_cons : forall c s,
  split [nl] (c :: s)
  = if Ascii.eqb nl c then [] :: split [nl] s else cons_head c (split [nl] s).
Proof.
  intros c s. unfold split. cbn [split_aux startswith length Nat.sub].
  rewrite andb_true_r. reflexivity.
Qed.

Lemma split_nl_not_nil : forall s, split [nl] s <> [].
Proof.
  induction s as [|c s IH]; [discriminate|].
  rewrite split_nl_cons. destruct (Ascii.eqb nl c); [discriminate|].
  destruct (split [nl] s); [contradiction|discriminate].
Qed.

Lemma join_cons_head : forall c l,
  l <> [] -> join [nl] (cons_head c l) = c :: join [nl] l.
Proof. intros c [|x [|y l]] H; [contradiction| |]; reflexivity. Qed.

(** Splitting at the newlines and joining again gives the text back. *)
Lemma join_split_nl : forall s, join [nl] (split [nl] s) = s.
Proof.
  induction s as [|c s IH]; [reflexivity|].
  rewrite split_nl_cons. destruct (Ascii.eqb nl c) eqn:E.
  - apply Ascii.eqb_eq in E. subst c.
    pose proof (split_nl_not_nil s) as H.
    destruct (split [nl] s) as [|x l] eqn:Es; [contradiction|].
    change (join [nl] ([] :: x :: l)) with (nl :: join [nl] (x :: l)).
    now rewrite IH.
  - rewrite join_cons_head by apply split_nl_not_nil. now rewrite IH.
Qed.

Lemma split_nl_no_nl : forall s, has_nl s = false -> split [nl] s = [s].
Proof.
  induction s as [|c s IH]; intros H; [reflexivity|].
  rewrite has_nl_cons in H. destruct (orb_false_elim _ _ H) as [Hc H'].
  clear H. rename H' into H.
  rewrite split_nl_cons, Hc, IH by exact H. reflexivity.
Qed.

Lemma split_nl_app : forall a b,
  has_nl a = false ->
  split [nl] (a ++ nl :: b) = a :: split [nl] b.
Proof.
  induction a as [|c a IH]; intros b H.
  - cbn [app]. rewrite split_nl_cons, Ascii.eqb_refl. reflexivity.
  - rewrite has_nl_cons in H. destruct (orb_false_elim _ _ H) as [Hc H'].
    clear H. rename H' into H. cbn [app]. rewrite split_nl_cons, Hc, IH by exact H. reflexivity.
Qed.

(** Joining lines that hold no newline and splitting again gives the lines
    back. *)
Lemma split_join_nl : forall ls,
  ls <> [] -> forallb (fun l => negb (has_nl l)) ls = true ->
  split [nl] (join [nl] ls) = ls.
Proof.
  induction ls as [|l ls IH]; intros Hne H; [contradiction|].
  cbn in H. apply andb_prop in H. destruct H as [Hl H].
  apply negb_true_iff in Hl.
  destruct ls as [|l' ls].
  - cbn [join]. now apply split_nl_no_nl.
  - change (join [nl] (l :: l' :: ls)) with (l ++ nl :: join [nl] (l' :: ls)).
    rewrite split_nl_app by exact Hl. f_equal. apply IH; [discriminate|exact H].
Qed.

Lemma cons_head_no_nl : forall c l,
  Ascii.eqb nl c = false ->
  forallb (fun l => negb (has_nl l)) l = true ->
  forallb (fun l => negb (has_nl l)) (cons_head c l) = true.
Proof.
  intros c [|x l] Hc H; cbn [cons_head forallb] in *; rewrite has_nl_cons, Hc.
  - reflexivity.
  - exact H.
Qed.

Lemma split_nl_lines : forall s,
  forallb (fun l => negb (has_nl l)) (split [nl] s) = true.
Proof.
  induction s as [|c s IH]; [reflexivity|].
  rewrite split_nl_cons. destruct (Ascii.eqb nl c) eqn:E.
  - cbn. exact IH.
  - now apply cons_head_no_nl.
Qed.

(** ** Frame-scope filtering, further *)

Lemma frame_scope_lines_cons : forall st line rest,
  frame_scope_lines st (line :: rest)
  = let st' := if contains (lit "\begin{frame}") line then true
               else if contains (lit "\end{frame}") line then false else st in
    if contains (lit "\centering") line && negb st'
    then frame_scope_lines st' rest
    else line :: frame_scope_lines st' rest.
Proof. reflexivity. Qed.

(** X1. The line loop of [validate_frame_structure] drops nothing but
    centering lines: the lines without a centering directive come out all,
    in their order, whatever the frame state at the start. *)
Theorem frame_scope_keeps_plain_lines : forall st lines,
  filter plain_line (frame_scope_lines st lines) = filter plain_line lines.
Proof.
  intros st lines. revert st.
  induction lines as [|line rest IH]; intros st; [reflexivity|].
  rewrite frame_scope_lines_cons. cbv zeta.
  set (st' := if contains (lit "\begin{frame}") line then true
              else if contains (lit "\end{frame}") line then false else st).
  cbn [filter]. unfold plain_line at 2.
  destruct (contains (lit "\centering") line) eqn:Ec; cbn [negb andb].
  - destruct st'; cbn [negb]; [|apply IH].
    cbn [filter]. unfold plain_line at 1. rewrite Ec. cbn [negb]. apply IH.
  - cbn [filter]. unfold plain_line at 1. rewrite Ec. cbn [negb]. now rewrite IH.
Qed.

Lemma frame_scope_lines_no_nl : forall lines st,
  forallb (fun l => negb (has_nl l)) lines = true ->
  forallb (fun l => negb (has_nl l)) (frame_scope_lines st lines) = true.
Proof.
  induction lines as [|line rest IH]; intros st H; [reflexivity|].
  cbn in H. apply andb_prop in H. destruct H as [Hl H].
  rewrite frame_scope_lines_cons. cbv zeta.
  destruct (_ && _); [now apply IH|]. cbn. rewrite Hl. now apply IH.
Qed.

Lemma frame_scope_lines_again : forall lines,
  (forall b, frame_scope_lines b (frame_scope_lines false lines)
             = frame_scope_lines false lines)
  /\ frame_scope_lines true (frame_scope_lines true lines)
     = frame_scope_lines true lines.
Proof.
  induction lines as [|line rest [IHf IHt]]; [split; reflexivity|].
  split.
  - intros b. rewrite (frame_scope_lines_cons false). cbv zeta.
    destruct (contains (lit "\begin{frame}") line) eqn:Eb.
    + rewrite andb_false_r. rewrite frame_scope_lines_cons. cbv zeta.
      rewrite Eb, andb_false_r. now rewrite IHt.
    + destruct (contains (lit "\end{frame}") line) eqn:Ee;
        (destruct (contains (lit "\centering") line) eqn:Ec; cbn [andb negb];
         [apply IHf|]);
        rewrite frame_scope_lines_cons; cbv zeta; rewrite Eb, Ee, Ec;
        cbn [andb]; now rewrite IHf.
  - rewrite (frame_scope_lines_cons true). cbv zeta.
    destruct (contains (lit "\begin{frame}") line) eqn:Eb.
    + rewrite andb_false_r. rewrite frame_scope_lines_cons. cbv zeta.
      rewrite Eb, andb_false_r. now rewrite IHt.
    + destruct (contains (lit "\end{frame}") line) eqn:Ee.
      * destruct (contains (lit "\centering") line) eqn:Ec; cbn [andb negb];
          [apply IHf|].
        rewrite frame_scope_lines_cons. cbv zeta. rewrite Eb, Ee, Ec.
        cbn [andb]. now rewrite IHf.
      * rewrite andb_false_r. rewrite frame_scope_lines_cons. cbv zeta.
        rewrite Eb, Ee, andb_false_r. now rewrite IHt.
Qed.

(** X2. [validate_frame_structure] is idempotent: filtering a filtered
    body changes nothing. *)
Theorem validate_frame_structure_idempotent : forall latex_content,
  validate_frame_structure (validate_frame_structure latex_content)
  = validate_frame_structure latex_content.
Proof.
  intros s. unfold validate_frame_structure.
  pose proof (frame_scope_lines_no_nl _ false (split_nl_lines s)) as Hnl.
  destruct (frame_scope_lines false (split [nl] s)) as [|l ls] eqn:E.
  - reflexivity.
  - rewrite split_join_nl by (discriminate || exact Hnl).
    rewrite <- E. now rewrite (proj1 (frame_scope_lines_again _)).
Qed.

Lemma contains_cons : forall p c s,
  contains p s = true -> contains p (c :: s) = true.
Proof. intros p c s H. cbn [contains]. rewrite H. apply orb_true_r. Qed.

Lemma startswith_app_l : forall p a b,
  startswith p a = true -> startswith p (a ++ b) = true.
Proof.
  induction p as [|x p IH]; intros [|y a] b H; cbn in *; try reflexivity; try discriminate.
  apply andb_prop in H. destruct H as [-> H]. cbn. now apply IH.
Qed.

Lemma contains_app_l : forall p a b,
  contains p a = true -> contains p (a ++ b) = true.
Proof.
  induction a as [|c a IH]; intros b H.
  - cbn in H. rewrite orb_false_r in H.
    destruct p; [destruct b; reflexivity|discriminate].
  - cbn [contains] in H. apply orb_prop in H. destruct H as [H|H].
    + pose proof (startswith_app_l _ _ b H) as H'. cbn [app] in H'.
      cbn [app contains]. rewrite H'. reflexivity.
    + cbn [app]. apply contains_cons. now apply IH.
Qed.

Lemma contains_app_r : forall p a b,
  contains p b = true -> contains p (a ++ b) = true.
Proof.
  induction a as [|c a IH]; intros b H; [exact H|].
  cbn [app]. apply contains_cons. now apply IH.
Qed.

Lemma contains_join : forall p ls l,
  In l ls -> contains p l = true -> contains p (join [nl] ls) = true.
Proof.
  induction ls as [|x ls IH]; intros l Hin H; [destruct Hin|].
  destruct ls as [|y ls].
  - destruct Hin as [->|[]]. exact H.
  - change (join [nl] (x :: y :: ls)) with (x ++ nl :: join [nl] (y :: ls)).
    destruct Hin as [->|Hin].
    + now apply contains_app_l.
    + apply contains_app_r. apply contains_cons. now apply (IH l).
Qed.

Lemma frame_scope_lines_all_plain : forall lines st,
  forallb plain_line lines = true -> frame_scope_lines st lines = lines.
Proof.
  induction lines as [|line rest IH]; intros st H; [reflexivity|].
  cbn in H. apply andb_prop in H. destruct H as [Hl H].
  rewrite frame_scope_lines_cons. cbv zeta.
  unfold plain_line in Hl. apply negb_true_iff in Hl. rewrite Hl. cbn [andb].
  now rewrite IH.
Qed.

(** X3. A body without a centering directive passes
    [validate_frame_structure] unchanged. *)
Theorem validate_frame_structure_without_centering : forall latex_content,
  contains (lit "\centering") latex_content = false ->
  validate_frame_structure latex_content = latex_content.
Proof.
  intros s H. unfold validate_frame_structure.
  rewrite frame_scope_lines_all_plain; [apply join_split_nl|].
  apply forallb_forall. intros l Hl. unfold plain_line.
  destruct (contains (lit "\centering") l) eqn:E; [|reflexivity].
  rewrite <- (join_split_nl s) in H.
  now rewrite (contains_join _ _ _ Hl E) in H.
Qed.

Lemma validate_frame_structure_without_centering_witness :
  contains (lit "\centering")
    (unlines [lit "\begin{frame}{A}"; lit "text"; lit "\end{frame}"]) = false
  /\ validate_frame_structure
       (unlines [lit "\begin{frame}{A}"; lit "text"; lit "\end{frame}"])
     = unlines [lit "\begin{frame}{A}"; lit "text"; lit "\end{frame}"].
Proof.
  split; [reflexivity|].
  apply (validate_frame_structure_without_centering
           (unlines [lit "\begin{frame}{A}"; lit "text"; lit "\end{frame}"])).
  reflexivity.
Defined.

(** ** Frame-scope filtering: the state flips before the line is judged *)

(** A line with a centering directive and a frame-open marker is kept, and
    the loop goes on Inside, whatever it passed before. *)
Lemma frame_scope_lines_opening_line : forall before line after in_frame,
  contains (lit "\centering") line = true ->
  contains (lit "\begin{frame}") line = true ->
  frame_scope_lines in_frame (before ++ line :: after)
  = frame_scope_lines in_frame before ++ line :: frame_scope_lines true after.
Proof.
  induction before as [|l before IH]; intros line after st Hc Hb.
  - cbn [app frame_scope_lines]. now rewrite Hb, Hc.
  - cbn [app]. rewrite !frame_scope_lines_cons. cbv zeta.
    rewrite (IH line after _ Hc Hb).
    now destruct (contains (lit "\centering") l && negb _).
Qed.

(** A line with a centering directive, a frame-close marker and no
    frame-open marker is dropped, and the loop goes on Outside, whatever it
    passed before. *)
Lemma frame_scope_lines_closing_line : forall before line after in_frame,
  contains (lit "\centering") line = true ->
  contains (lit "\begin{frame}") line = false ->
  contains (lit "\end{frame}") line = true ->
  frame_scope_lines in_frame (before ++ line :: after)
  = frame_scope_lines in_frame before ++ frame_scope_lines false after.
Proof.
  induction before as [|l before IH]; intros line after st Hc Hb He.
  - cbn [app frame_scope_lines]. now rewrite Hb, He, Hc.
  - cbn [app]. rewrite !frame_scope_lines_cons. cbv zeta.
    rewrite (IH line after _ Hc Hb He).
    now destruct (contains (lit "\centering") l && negb _).
Qed.

Lemma validate_frame_structure_lines : forall lines,
  lines <> [] ->
  forallb (fun l => negb (has_nl l)) lines = true ->
  validate_frame_structure (unlines lines)
  = unlines (frame_scope_lines false lines).
Proof.
  intros lines Hne Hnl. unfold validate_frame_structure, unlines.
  now rewrite (split_join_nl lines Hne Hnl).
Qed.

(** C10 fails as stated: a centering directive on the same line as a
    frame-close marker is not dropped when the line holds a frame-open
    marker too.  The frame-open marker is looked for first, the line sets
    the state Inside and is kept; the state is still Inside on the next
    line, whose centering directive is kept as well although it stands
    behind the frame. *)
Lemma C10_counterexample :
  validate_frame_structure
    (unlines [lit "\begin{frame}{T} \centering text \end{frame}"; lit "\centering"])
  = unlines [lit "\begin{frame}{T} \centering text \end{frame}"; lit "\centering"].
Proof. vm_compute. reflexivity. Qed.

(** C10 (amended). The frame-scope filter updates the Inside/Outside state
    from a line before it tests the line for a centering directive, and it
    looks for a frame-open marker first.  So, in a body of lines, whatever
    stands before the line: a line with a centering directive and a
    frame-open marker is kept and the lines after it are filtered from the
    state Inside, also when the line holds a frame-close marker; a line
    with a centering directive, a frame-close marker and no frame-open
    marker is dropped, although the directive stands before the end of the
    frame, and the lines after it are filtered from the state Outside. *)
Theorem C10_state_flips_before_centering_check :
  forall (before after : list str) (line : str),
    forallb (fun l => negb (has_nl l)) (before ++ line :: after) = true ->
    contains (lit "\centering") line = true ->
    (contains (lit "\begin{frame}") line = true ->
     validate_frame_structure (unlines (before ++ line :: after))
     = unlines (frame_scope_lines false before
                ++ line :: frame_scope_lines true after))
    /\
    (contains (lit "\begin{frame}") line = false ->
     contains (lit "\end{frame}") line = true ->
     validate_frame_structure (unlines (before ++ line :: after))
     = unlines (frame_scope_lines false before
                ++ frame_scope_lines false after)).
Proof.
  intros before after line Hnl Hc.
  assert (before ++ line :: after <> []) as Hne by (now destruct before).
  split.
  - intros Hb. rewrite (validate_frame_structure_lines _ Hne Hnl).
    now rewrite frame_scope_lines_opening_line.
  - intros Hb He. rewrite (validate_frame_structure_lines _ Hne Hnl).
    now rewrite frame_scope_lines_closing_line.
Qed.

(** Inside a frame the closing line with a centering directive is dropped,
    and the centering line behind it as well; the opening line with a
    centering directive is kept, and so is the centering line behind it. *)
Lemma C10_witness :
  validate_frame_structure
    (unlines [lit "\begin{frame}{T}"; lit "text"; lit "\centering \end{frame}";
              lit "\centering"; lit "after"])
  = unlines [lit "\begin{frame}{T}"; lit "text"; lit "after"]
  /\ validate_frame_structure
       (unlines [lit "before"; lit "\begin{frame}{T} \centering"; lit "\centering";
                 lit "\end{frame}"])
     = unlines [lit "before"; lit "\begin{frame}{T} \centering"; lit "\centering";
                lit "\end{frame}"].
Proof.
  split.
  - exact (proj2 (C10_state_flips_before_centering_check
                    [lit "\begin{frame}{T}"; lit "text"]
                    [lit "\centering"; lit "after"]
                    (lit "\centering \end{frame}") eq_refl eq_refl)
                 eq_refl eq_refl).
  - exact (proj1 (C10_state_flips_before_centering_check
                    [lit "before"]
                    [lit "\centering"; lit "\end{frame}"]
                    (lit "\begin{frame}{T} \centering") eq_refl eq_refl)
                 eq_refl).
Defined.

(** The same on a body of three lines. *)
Example validate_frame_structure_drops_closing_line :
  validate_frame_structure
    (unlines [lit "\begin{frame}{T}"; lit "text"; lit "\centering \end{frame}"])
  = unlines [lit "\begin{frame}{T}"; lit "text"].
Proof. vm_compute. reflexivity. Qed.

(** ** Duplicate-image removal, further *)

Lemma mem_In : forall x l, mem x l = true <-> In x l.
Proof.
  intros x l. unfold mem. rewrite existsb_exists. split.
  - intros (y & Hy & E). apply str_eqb_eq in E. now subst.
  - intros H. exists x. split; [exact H|now apply str_eqb_eq].
Qed.

Lemma mem_false_not_In : forall x l, mem x l = false <-> ~ In x l.
Proof.
  intros x l. rewrite <- mem_In. now destruct (mem x l).
Qed.

Lemma filenames_cons : forall line rest,
  filenames (line :: rest)
  = match line_filename line with Some f => [f] | None => [] end ++ filenames rest.
Proof. reflexivity. Qed.

(** The filenames of the lines the loop keeps are pairwise different and
    are none of those seen before. *)
Lemma dedup_lines_fresh : forall lines seen,
  NoDup (filenames (dedup_lines seen lines))
  /\ forall f, In f (filenames (dedup_lines seen lines)) -> ~ In f seen.
Proof.
  induction lines as [|line rest IH]; intros seen.
  - split; [constructor|intros f []].
  - rewrite dedup_lines_cons. destruct (line_filename line) as [f|] eqn:E.
    + destruct (mem f seen) eqn:Ef; [apply IH|].
      rewrite filenames_cons, E. cbn [app].
      destruct (IH (f :: seen)) as [Hnd Hfresh]. split.
      * constructor; [|exact Hnd]. intros Hin. apply (Hfresh f Hin). now left.
      * intros g [<-|Hg]; [now apply mem_false_not_In|].
        intros Hs. apply (Hfresh g Hg). now right.
    + rewrite filenames_cons, E. cbn [app]. apply IH.
Qed.

Lemma dedup_lines_fixed : forall lines seen,
  NoDup (filenames lines) ->
  (forall f, In f (filenames lines) -> ~ In f seen) ->
  dedup_lines seen lines = lines.
Proof.
  induction lines as [|line rest IH]; intros seen Hnd Hfresh; [reflexivity|].
  rewrite dedup_lines_cons. rewrite filenames_cons in Hnd, Hfresh.
  destruct (line_filename line) as [f|] eqn:E; cbn [app] in Hnd, Hfresh.
  - assert (mem f seen = false) as -> by (apply mem_false_not_In, Hfresh; now left).
    f_equal. inversion Hnd as [|? ? Hf Hnd']; subst. apply IH; [exact Hnd'|].
    intros g Hg [<-|Hs]; [contradiction|]. apply (Hfresh g); [now right|exact Hs].
  - f_equal. now apply IH.
Qed.

Lemma dedup_lines_no_nl : forall lines seen,
  forallb (fun l => negb (has_nl l)) lines = true ->
  forallb (fun l => negb (has_nl l)) (dedup_lines seen lines) = true.
Proof.
  induction lines as [|line rest IH]; intros seen H; [reflexivity|].
  cbn [forallb] in H. apply andb_prop in H. destruct H as [Hl H].
  rewrite dedup_lines_cons.
  destruct (line_filename line) as [f|]; [destruct (mem f seen)|];
    cbn [forallb]; rewrite ?Hl; cbn [andb]; now apply IH.
Qed.

(** The first line of a body is always kept, so the result has a line. *)
Lemma dedup_lines_not_nil : forall line rest,
  dedup_lines [] (line :: rest) <> [].
Proof.
  intros line rest. rewrite dedup_lines_cons.
  destruct (line_filename line); cbn [mem existsb]; discriminate.
Qed.

Lemma split_remove_duplicate_images : forall s,
  split [nl] (remove_duplicate_images s) = dedup_lines [] (split [nl] s).
Proof.
  intros s. unfold remove_duplicate_images.
  pose proof (split_nl_not_nil s) as Hne.
  pose proof (split_nl_lines s) as Hnl.
  destruct (split [nl] s) as [|line rest]; [contradiction|].
  apply split_join_nl; [apply dedup_lines_not_nil|now apply dedup_lines_no_nl].
Qed.

(** X4. In the result of [remove_duplicate_images] no two lines have the
    same filename (the filename of a line being that of its leftmost
    directive). *)
Theorem remove_duplicate_images_no_duplicate : forall latex_content,
  NoDup (filenames (split [nl] (remove_duplicate_images latex_content))).
Proof.
  intros s. rewrite split_remove_duplicate_images. apply dedup_lines_fresh.
Qed.

(** X5. [remove_duplicate_images] is idempotent. *)
Theorem remove_duplicate_images_idempotent : forall latex_content,
  remove_duplicate_images (remove_duplicate_images latex_content)
  = remove_duplicate_images latex_content.
Proof.
  intros s. unfold remove_duplicate_images at 1.
  rewrite split_remove_duplicate_images.
  rewrite dedup_lines_fixed.
  - reflexivity.
  - apply dedup_lines_fresh.
  - intros f _ [].
Qed.

(** X6. [remove_duplicate_images] never drops a line without an inclusion
    directive: these lines come out all, in their order. *)
Theorem remove_duplicate_images_keeps_other_lines : forall latex_content,
  filter (fun line => match line_filename line with None => true | Some _ => false end)
         (split [nl] (remove_duplicate_images latex_content))
  = filter (fun line => match line_filename line with None => true | Some _ => false end)
           (split [nl] latex_content).
Proof.
  intros s. rewrite split_remove_duplicate_images.
  generalize (@nil str) as seen. induction (split [nl] s) as [|line rest IH]; intros seen.
  - reflexivity.
  - rewrite dedup_lines_cons. destruct (line_filename line) as [f|] eqn:E.
    + destruct (mem f seen); cbn [filter]; rewrite E; apply IH.
    + cbn [filter]. rewrite E. now rewrite IH.
Qed.

(** ** Dangling-reference removal, further *)

Lemma fold_left_fixed : forall (A B : Type) (f : A -> B -> A) (l : list B) (a : A),
  (forall b, In b l -> f a b = a) -> fold_left f l a = a.
Proof.
  intros A B f l a. induction l as [|b l IH]; intros H; [reflexivity|].
  cbn [fold_left]. rewrite (H b) by now left. apply IH.
  intros b' Hb'. apply H. now right.
Qed.

(** X7. A body whose references all name an available file comes out of
    [validate_and_fix_image_references] unchanged. *)
Theorem references_all_available_unchanged :
  forall (latex_content : str) (available_images : list str),
    forallb
      (fun ref => mem (basename (grp 2 ref)) (map basename available_images))
      (re_findall re_includegraphics_size_path latex_content) = true ->
    validate_and_fix_image_references latex_content available_images = latex_content.
Proof.
  intros s avail H. unfold validate_and_fix_image_references.
  apply fold_left_fixed. intros ref Hin. unfold remove_if_missing.
  pose proof (proj1 (forallb_forall _ _) H ref Hin) as Href. cbv beta in Href.
  now rewrite Href.
Qed.

Lemma references_all_available_unchanged_witness :
  forallb
    (fun ref => mem (basename (grp 2 ref)) (map basename [lit "out/images/a.png"]))
    (re_findall re_includegraphics_size_path
       (lit "\includegraphics[width=0.7\textwidth]{images/a.png}")) = true
  /\ validate_and_fix_image_references
       (lit "\includegraphics[width=0.7\textwidth]{images/a.png}")
       [lit "out/images/a.png"]
     = lit "\includegraphics[width=0.7\textwidth]{images/a.png}".
Proof.
  split; [reflexivity|].
  apply (references_all_available_unchanged
           (lit "\includegraphics[width=0.7\textwidth]{images/a.png}")
           [lit "out/images/a.png"]).
  reflexivity.
Defined.

(** ** Counting across an edit, further *)

Lemma clash_startswith : forall M w q,
  clash M w = true -> startswith M (w ++ q) = false.
Proof.
  induction M as [|x M IH]; intros [|y w] q H; cbn in H; try discriminate.
  cbn [app startswith]. destruct (Ascii.eqb x y); cbn in *; [now apply IH|reflexivity].
Qed.

Lemma startswith_last : forall N ps c c',
  mem_chr c N = false -> mem_chr c' N = false ->
  startswith N (ps ++ [c]) = startswith N (ps ++ [c']).
Proof.
  induction N as [|x N IH]; intros ps c c' Hc Hc'; [reflexivity|].
  cbn [mem_chr existsb] in Hc, Hc'.
  destruct (orb_false_elim _ _ Hc) as [Hx HN].
  destruct (orb_false_elim _ _ Hc') as [Hx' HN'].
  destruct ps as [|y ps]; cbn [app startswith].
  - rewrite (Ascii.eqb_sym x c), Hx, (Ascii.eqb_sym x c'), Hx'. reflexivity.
  - destruct (Ascii.eqb x y); cbn [andb]; [now apply IH|reflexivity].
Qed.

Lemma occ_zero_contains : forall x M' s,
  occ (x :: M') s = 0 <-> contains (x :: M') s = false.
Proof.
  intros x M'. set (M := x :: M'). induction s as [|c s IH].
  - cbn. split; reflexivity.
  - cbn [occ contains]. destruct (startswith M (c :: s)); cbn [orb].
    + split; [cbn; discriminate|discriminate].
    + cbn [Nat.add]. exact IH.
Qed.

Section Border.
(** A text [h :: tl] of at least two characters whose first character does
    not occur again in it. *)
Variables (h : ascii) (tl : str).
Let M := h :: tl.
Hypothesis border_free : mem_chr h tl = false.
Hypothesis long : tl <> [].

Lemma startswith_single : forall c, startswith M [c] = false.
Proof.
  intros c. unfold M. cbn [startswith]. destruct tl; [contradiction|].
  apply andb_false_r.
Qed.

(** A character that [tl] does not have cuts the text in two for the
    count. *)
Lemma occ_cut : forall c p t,
  mem_chr c tl = false ->
  occ M (p ++ c :: t) = occ M (p ++ [c]) + occ M (c :: t).
Proof.
  intros c p t Hc. remember (occ M (c :: t)) as R eqn:HR.
  induction p as [|y p IH].
  - cbn [app]. change (occ M [c]) with ((if startswith M [c] then 1 else 0) + 0).
    now rewrite startswith_single.
  - cbn [app occ]. rewrite IH.
    assert (startswith M (y :: p ++ c :: t) = startswith M (y :: p ++ [c])) as ->.
    { unfold M. cbn [startswith]. f_equal. now apply startswith_cut. }
    lia.
Qed.

Lemma occ_last : forall c c' p,
  mem_chr c tl = false -> mem_chr c' tl = false ->
  occ M (p ++ [c]) = occ M (p ++ [c']).
Proof.
  intros c c' p Hc Hc'. induction p as [|y p IH].
  - cbn [app]. change (occ M [c]) with ((if startswith M [c] then 1 else 0) + 0).
    change (occ M [c']) with ((if startswith M [c'] then 1 else 0) + 0).
    now rewrite !startswith_single.
  - cbn [app occ]. rewrite IH. f_equal.
    unfold M. cbn [startswith].
    now rewrite (startswith_last tl p c c' Hc Hc').
Qed.

Lemma occ_skip_nonhead : forall t u,
  mem_chr h t = false -> occ M (t ++ u) = occ M u.
Proof.
  induction t as [|c t IH]; intros u Ht; [reflexivity|].
  cbn [mem_chr existsb] in Ht. destruct (orb_false_elim _ _ Ht) as [Hc Ht'].
  cbn [app occ]. rewrite IH by exact Ht'.
  unfold M. rewrite startswith_head_neq; [reflexivity|].
  now rewrite Ascii.eqb_sym.
Qed.

(** A word that starts like [M], holds its first character once and
    differs from [M] takes no part in an occurrence of [M]. *)
Lemma occ_word : forall w0 p q,
  mem_chr h w0 = false -> clash M (h :: w0) = true ->
  occ M (p ++ (h :: w0) ++ q) = occ M (p ++ [h]) + occ M q.
Proof.
  intros w0 p q Hw Hclash. cbn [app].
  rewrite occ_cut by exact border_free. f_equal.
  cbn [occ].
  change (h :: w0 ++ q) with ((h :: w0) ++ q).
  rewrite clash_startswith by exact Hclash.
  now apply occ_skip_nonhead.
Qed.

Lemma occ_equiv_words : forall w0 w0',
  mem_chr h w0 = false -> clash M (h :: w0) = true ->
  mem_chr h w0' = false -> clash M (h :: w0') = true ->
  occ_equiv M (h :: w0) (h :: w0').
Proof.
  intros w0 w0' H1 H2 H3 H4 p q.
  rewrite (occ_word w0 p q H1 H2), (occ_word w0' p q H3 H4). reflexivity.
Qed.

(** Escaping an ampersand puts the first character of [M] before a
    character [M] does not have. *)
Lemma occ_equiv_escape : forall c a b,
  mem_chr c M = false ->
  occ_equiv M (a ++ c :: b) (a ++ h :: c :: b).
Proof.
  intros c a b Hc p q.
  assert (mem_chr c tl = false) as Hct.
  { unfold M in Hc. cbn [mem_chr existsb] in Hc. now destruct (orb_false_elim _ _ Hc). }
  replace (p ++ (a ++ c :: b) ++ q) with ((p ++ a) ++ c :: (b ++ q))
    by (now rewrite <- !app_assoc).
  replace (p ++ (a ++ h :: c :: b) ++ q) with (((p ++ a) ++ [h]) ++ c :: (b ++ q))
    by (now rewrite <- !app_assoc).
  rewrite (occ_cut c (p ++ a) (b ++ q) Hct).
  rewrite (occ_cut c ((p ++ a) ++ [h]) (b ++ q) Hct). f_equal.
  replace (((p ++ a) ++ [h]) ++ [c]) with ((p ++ a) ++ h :: [c])
    by (now rewrite <- (app_assoc (p ++ a) [h] [c])).
  rewrite (occ_cut h (p ++ a) [c] border_free).
  assert (occ M [h; c] = 0) as ->.
  { cbn [occ]. rewrite startswith_single.
    unfold M. cbn [startswith]. rewrite Ascii.eqb_refl. cbn [andb].
    destruct tl as [|x tl']; [contradiction|]. cbn [startswith].
    cbn [mem_chr existsb] in Hct. destruct (orb_false_elim _ _ Hct) as [Hx _].
    rewrite (Ascii.eqb_sym x c), Hx. reflexivity. }
  rewrite Nat.add_0_r. now apply occ_last.
Qed.

(** Replacing every occurrence of [M] by a word that takes no part in an
    occurrence leaves none. *)
Lemma startswith_tail_re_sub : forall w0' N s,
  mem_chr h N = false ->
  startswith N (re_sub [A (Lit M)] (fun _ _ => h :: w0') s) = true ->
  startswith N s = true.
Proof.
  intros w0' N. induction N as [|x N IH]; intros s HN H; [reflexivity|].
  cbn [mem_chr existsb] in HN. destruct (orb_false_elim _ _ HN) as [Hx HN'].
  destruct s as [|c s]; [discriminate|].
  destruct (startswith M (c :: s)) eqn:E.
  - rewrite (re_sub_hit _ _ _ _ (length tl) []) in H
      by (rewrite re_match_lit, E; reflexivity).
    cbn [app startswith] in H. rewrite Ascii.eqb_sym, Hx in H. discriminate.
  - rewrite re_sub_miss in H by (rewrite re_match_lit, E; reflexivity).
    cbn [startswith] in H |- *.
    apply andb_prop in H. destruct H as [-> H]. cbn [andb]. now apply IH.
Qed.

Lemma re_sub_word_removes : forall w0' s,
  mem_chr h w0' = false -> clash M (h :: w0') = true ->
  occ M (re_sub [A (Lit M)] (fun _ _ => h :: w0') s) = 0.
Proof.
  intros w0' s Hw Hclash.
  remember (length s) as len eqn:Hlen. revert s Hlen.
  induction len as [len IH] using lt_wf_ind. intros [|c s] Hlen; [reflexivity|].
  destruct (startswith M (c :: s)) eqn:E.
  - rewrite (re_sub_hit _ _ _ _ (length tl) [])
      by (rewrite re_match_lit, E; reflexivity).
    cbn [app occ].
    change (h :: w0' ++ ?x) with ((h :: w0') ++ x).
    rewrite clash_startswith by exact Hclash.
    rewrite occ_skip_nonhead by exact Hw.
    apply (IH (length (skipn (S (length tl)) (c :: s))));
      [subst len; cbn [skipn length]; rewrite length_skipn; lia|reflexivity].
  - rewrite re_sub_miss by (rewrite re_match_lit, E; reflexivity).
    cbn [occ]. rewrite (IH (length s)) by (subst len; cbn; lia || reflexivity).
    destruct (startswith M (c :: re_sub [A (Lit M)] (fun _ _ => h :: w0') s)) eqn:E';
      [|reflexivity].
    exfalso. unfold M in E, E'. cbn [startswith] in E, E'.
    apply andb_prop in E'. destruct E' as [Ec E'].
    rewrite Ec in E. cbn [andb] in E.
    apply startswith_tail_re_sub in E'; [congruence|exact border_free].
Qed.
End Border.

(** ** The syntax pass *)

Lemma is_marker_inv : forall M,
  is_marker M = true ->
  exists tl, M = "\"%char :: tl /\ mem_chr "\" tl = false /\ tl <> []
             /\ mem_chr "}" M = true /\ mem_chr "]" M = false
             /\ mem_chr "/" M = false /\ mem_chr "&" M = false.
Proof.
  intros [|h tl] H; [discriminate|]. unfold is_marker in H.
  repeat (apply andb_prop in H; destruct H as [H ?]).
  apply Ascii.eqb_eq in H. subst h. exists tl.
  repeat match goal with
         | H : negb _ = true |- _ => apply negb_true_iff in H
         end.
  repeat split; try assumption. now destruct tl.
Qed.

Lemma firstn_length_app : forall (w r : str), firstn (length w) (w ++ r) = w.
Proof. induction w as [|c w IH]; intros r; cbn; [reflexivity|now rewrite IH]. Qed.

Lemma ampersand_edit : forall M, is_marker M = true ->
  forall s n gs,
    re_match re_ampersand s = Some (n, gs) ->
    n <> 0 /\ occ_equiv M (firstn n s) (grp 1 gs ++ lit "\&" ++ grp 2 gs).
Proof.
  intros M HM s n gs H.
  destruct (is_marker_inv M HM) as (tl & -> & Hb & Hl & _ & _ & _ & Ha).
  apply re_match_sound in H. destruct H as (ws & Hws & -> & -> & _ & ->).
  unfold re_ampersand in Hws. inv_den.
  repeat match goal with H : exists _, _ |- _ => destruct H as (? & -> & ?) end.
  cbn [concat groups_of grp nth Nat.sub app]. split; [discriminate|].
  match goal with
  | |- occ_equiv _ [?a; _; ?b] _ =>
      exact (occ_equiv_escape "\" tl Hb Hl "&" [a] [b] Ha)
  end.
Qed.

Lemma word_edit : forall M w0 w0',
  is_marker M = true ->
  mem_chr "\" w0 = false -> clash M ("\"%char :: w0) = true ->
  mem_chr "\" w0' = false -> clash M ("\"%char :: w0') = true ->
  forall s n gs,
    re_match [A (Lit ("\"%char :: w0))] s = Some (n, gs) ->
    n <> 0 /\ occ_equiv M (firstn n s) ("\"%char :: w0').
Proof.
  intros M w0 w0' HM H1 H2 H3 H4 s n gs H.
  destruct (is_marker_inv M HM) as (tl & -> & Hb & Hl & _).
  rewrite re_match_lit in H.
  destruct (startswith ("\"%char :: w0) s) eqn:E; [|discriminate].
  injection H as Hn _. subst n. split; [discriminate|].
  match goal with
  | |- occ_equiv _ ?x _ => replace x with ("\"%char :: w0)
  end.
  - now apply occ_equiv_words.
  - symmetry. rewrite (startswith_app_skipn _ _ E) at 1.
    apply (firstn_length_app ("\"%char :: w0)).
Qed.

(** The repairs of the syntax pass leave the occurrences of a frame marker
    as they are. *)
Lemma syntax_repairs_occ : forall M s,
  is_marker M = true ->
  clash M (lit "\begin{enumerate}") = true ->
  clash M (lit "\begin{itemize}") = true ->
  clash M (lit "\end{enumerate}") = true ->
  clash M (lit "\end{itemize}") = true ->
  occ M
    (re_sub re_end_enumerate (fun _ _ => lit "\end{itemize}")
       (re_sub re_begin_enumerate (fun _ _ => lit "\begin{itemize}")
          (re_sub re_ampersand (fun _ gs => grp 1 gs ++ lit "\&" ++ grp 2 gs) s)))
  = occ M s.
Proof.
  intros M s HM C1 C2 C3 C4.
  rewrite (re_sub_occ_whole M re_end_enumerate _
             (word_edit M (lit "end{enumerate}") (lit "end{itemize}")
                HM eq_refl C3 eq_refl C4)).
  rewrite (re_sub_occ_whole M re_begin_enumerate _
             (word_edit M (lit "begin{enumerate}") (lit "begin{itemize}")
                HM eq_refl C1 eq_refl C2)).
  now rewrite (re_sub_occ_whole M re_ampersand _ (ampersand_edit M HM)).
Qed.

(** X8. The frame check of [_fix_latex_syntax] judges the body as it came in: the
    repairs before it change neither count.  With equal counts the pass
    returns a body of these counts; otherwise it raises, and the message
    names the counts of the input. *)
Theorem _fix_latex_syntax_checks_input : forall latex_content,
  let begin_frames := count_matches re_begin_frame latex_content in
  let end_frames := count_matches re_end_frame latex_content in
  if begin_frames =? end_frames
  then exists out,
         _fix_latex_syntax latex_content = Ok out
         /\ count_matches re_begin_frame out = begin_frames
         /\ count_matches re_end_frame out = end_frames
  else _fix_latex_syntax latex_content
       = Raise (ValueError (frame_mismatch_msg begin_frames end_frames)).
Proof.
  intros s b e. unfold _fix_latex_syntax.
  match goal with
  | |- context [count_matches re_begin_frame ?x =? _] => set (body := x)
  end.
  assert (count_matches re_begin_frame body = b) as Hb.
  { subst b body. rewrite !count_begin_frame_occ.
    now apply syntax_repairs_occ. }
  assert (count_matches re_end_frame body = e) as He.
  { subst e body. rewrite !count_end_frame_occ.
    now apply syntax_repairs_occ. }
  rewrite Hb, He. destruct (b =? e); cbn [negb].
  - exists body. now repeat split.
  - reflexivity.
Qed.

(** After the syntax pass no enumerate marker is left. *)
Lemma _fix_latex_syntax_no_enumerate : forall s out,
  _fix_latex_syntax s = Ok out ->
  occ (lit "\begin{enumerate}") out = 0 /\ occ (lit "\end{enumerate}") out = 0.
Proof.
  intros s out. unfold _fix_latex_syntax.
  match goal with
  | |- context [count_matches re_begin_frame ?x =? _] => set (body := x)
  end.
  destruct (negb _); [discriminate|]. intros H. injection H as <-.
  subst body. split.
  - rewrite (re_sub_occ_whole (lit "\begin{enumerate}") re_end_enumerate _
               (word_edit (lit "\begin{enumerate}")
                  (lit "end{enumerate}") (lit "end{itemize}")
                  eq_refl eq_refl eq_refl eq_refl eq_refl)).
    exact (re_sub_word_removes "\" (lit "begin{enumerate}") eq_refl
             (lit "begin{itemize}") _ eq_refl eq_refl).
  - exact (re_sub_word_removes "\" (lit "end{enumerate}") eq_refl
             (lit "end{itemize}") _ eq_refl eq_refl).
Qed.

(** X9. A body [clean_latex_response] returns holds no enumerate environment: the
    syntax pass has renamed each to itemize, and the path pass brings none
    back. *)
Theorem clean_leaves_no_enumerate : forall latex_content out,
  clean_latex_response latex_content = Ok out ->
  contains (lit "\begin{enumerate}") out = false
  /\ contains (lit "\end{enumerate}") out = false.
Proof.
  intros s out H.
  destruct (clean_latex_response_inv _ _ H)
    as [[_ ->]|(checked & (before & Hsyn) & Hbrace)]; [split; reflexivity|].
  apply _fix_brace_matching_balanced in Hbrace. destruct Hbrace as [-> _].
  destruct (_fix_latex_syntax_no_enumerate _ _ Hsyn) as [Hb He].
  split; apply occ_zero_contains.
  - rewrite <- Hb.
    exact (_fix_image_paths_occ "\" (lit "begin{enumerate}")
             eq_refl eq_refl eq_refl eq_refl checked).
  - rewrite <- He.
    exact (_fix_image_paths_occ "\" (lit "end{enumerate}")
             eq_refl eq_refl eq_refl eq_refl checked).
Qed.

Lemma clean_leaves_no_enumerate_witness :
  clean_latex_response (lit "\begin{enumerate} \item a \end{enumerate}")
  = Ok (lit "\begin{itemize} \item a \end{itemize}")
  /\ contains (lit "\begin{enumerate}")
       (lit "\begin{itemize} \item a \end{itemize}") = false
  /\ contains (lit "\end{enumerate}")
       (lit "\begin{itemize} \item a \end{itemize}") = false.
Proof.
  assert (clean_latex_response (lit "\begin{enumerate} \item a \end{enumerate}")
          = Ok (lit "\begin{itemize} \item a \end{itemize}")) as H
    by (vm_compute; reflexivity).
  split; [exact H|].
  exact (clean_leaves_no_enumerate _ _ H).
Defined.

(** ** [str.replace] *)

Lemma replace_aux_skip : forall old new s k,
  replace_aux old new k s = replace old new (skipn k s).
Proof.
  intros old new. induction s as [|c s IH]; intros [|k]; try reflexivity.
  cbn [replace_aux skipn]. apply IH.
Qed.

Lemma replace_hit : forall x old new s,
  startswith (x :: old) s = true ->
  replace (x :: old) new s = new ++ replace (x :: old) new (skipn (length (x :: old)) s).
Proof.
  intros x old new [|c s] H; [discriminate|].
  unfold replace at 1. cbn [replace_aux]. rewrite H. f_equal.
  rewrite replace_aux_skip. cbn [length skipn Nat.sub]. now rewrite Nat.sub_0_r.
Qed.

Lemma replace_miss : forall old new c s,
  startswith old (c :: s) = false ->
  replace old new (c :: s) = c :: replace old new s.
Proof. intros old new c s H. unfold replace. cbn [replace_aux]. now rewrite H. Qed.

Lemma startswith_apart : forall new M y,
  apart new M = true -> new <> [] -> M <> [] ->
  startswith M (new ++ y) = false.
Proof.
  intros [|c new] [|x M] y H Hn HM; try contradiction.
  cbn [apart forallb mem_chr existsb] in H. apply andb_prop in H. destruct H as [H _].
  apply negb_true_iff in H. destruct (orb_false_elim _ _ H) as [Hc _].
  cbn [app startswith]. now rewrite Ascii.eqb_sym, Hc.
Qed.

Lemma contains_apart : forall new M y,
  apart new M = true -> M <> [] ->
  contains M (new ++ y) = contains M y.
Proof.
  induction new as [|c new IH]; intros M y H HM; [reflexivity|].
  cbn [app contains].
  change (c :: new ++ y) with ((c :: new) ++ y).
  rewrite startswith_apart by (assumption || discriminate).
  cbn [orb]. apply IH; [|exact HM].
  cbn [apart forallb] in H. apply andb_prop in H. now destruct H.
Qed.

Section Replace.
Variables (x : ascii) (old' new : str).
Let old := x :: old'.
Hypothesis new_not_nil : new <> [].

(** What the result starts with, the text started with, and not with
    [old]. *)
Lemma startswith_replace : forall N s,
  apart new N = true -> N <> [] ->
  startswith N (replace old new s) = true ->
  startswith N s = true /\ startswith old s = false.
Proof.
  induction N as [|y N IH]; intros s HN Hne H; [contradiction|].
  destruct s as [|c s]; [discriminate|].
  destruct (startswith old (c :: s)) eqn:E.
  - unfold old in *. rewrite (replace_hit _ _ _ _ E) in H.
    rewrite startswith_apart in H by (assumption || discriminate). discriminate.
  - split; [|reflexivity]. rewrite replace_miss in H by exact E.
    cbn [startswith] in H |- *. apply andb_prop in H. destruct H as [-> H].
    cbn [andb]. destruct N as [|z N]; [reflexivity|].
    apply IH; [|discriminate|exact H].
    unfold apart in *. apply forallb_forall. intros d Hd.
    pose proof (proj1 (forallb_forall _ _) HN d Hd) as Hd'.
    apply negb_true_iff in Hd'. apply negb_true_iff.
    cbn [mem_chr existsb] in Hd'. now destruct (orb_false_elim _ _ Hd').
Qed.

(** Replacing brings no occurrence of [M] into being. *)
Lemma replace_no_new_occurrence : forall M s,
  apart new M = true -> M <> [] ->
  contains M s = false -> contains M (replace old new s) = false.
Proof.
  intros M s HM Hne. remember (length s) as len eqn:Hlen. revert s Hlen.
  induction len as [len IH] using lt_wf_ind. intros [|c s] Hlen H.
  - exact H.
  - cbn [contains] in H. destruct (orb_false_elim _ _ H) as [Hs Hc].
    destruct (startswith old (c :: s)) eqn:E.
    + unfold old in *. rewrite (replace_hit _ _ _ _ E).
      rewrite contains_apart by assumption.
      apply (IH (length (skipn (length (x :: old')) (c :: s)))).
      * subst len. cbn [length skipn]. rewrite length_skipn. lia.
      * reflexivity.
      * clear -Hc E. cbn [length skipn].
        assert (forall k (t : str), contains M t = false -> contains M (skipn k t) = false) as Hsk.
        { induction k as [|k IHk]; intros [|d t] Ht; try exact Ht.
          cbn [skipn]. apply IHk. cbn [contains] in Ht.
          now destruct (orb_false_elim _ _ Ht). }
        now apply Hsk.
    + rewrite replace_miss by exact E. cbn [contains].
      rewrite (IH (length s)) by (subst len; cbn; lia || reflexivity || exact Hc).
      rewrite orb_false_r.
      destruct (startswith M (c :: replace old new s)) eqn:E'; [|reflexivity].
      rewrite <- replace_miss in E' by exact E.
      apply startswith_replace in E'; [|assumption..].
      destruct E' as [E' _]. congruence.
Qed.

(** After the replacement no occurrence of [old] is left. *)
Lemma replace_removes_all : forall s,
  apart new old = true -> contains old (replace old new s) = false.
Proof.
  intros s Hap. remember (length s) as len eqn:Hlen. revert s Hlen.
  induction len as [len IH] using lt_wf_ind. intros [|c s] Hlen; [reflexivity|].
  destruct (startswith old (c :: s)) eqn:E.
  - unfold old in *. rewrite (replace_hit _ _ _ _ E).
    rewrite contains_apart by (assumption || discriminate).
    apply (IH (length (skipn (length (x :: old')) (c :: s)))); [|reflexivity].
    subst len. cbn [length skipn]. rewrite length_skipn. lia.
  - rewrite replace_miss by exact E. cbn [contains].
    rewrite (IH (length s)) by (subst len; cbn; lia || reflexivity).
    rewrite orb_false_r.
    destruct (startswith old (c :: replace old new s)) eqn:E'; [|reflexivity].
    rewrite <- replace_miss in E' by exact E.
    apply startswith_replace in E'; [|assumption|discriminate].
    destruct E' as [E1 E2]. congruence.
Qed.
End Replace.

(** ** Typographic dashes *)

(** X10. The dash pass of the cleaner leaves none of the three characters
    it replaces: the minus sign, the en dash and the em dash. *)
Theorem _fix_unicode_characters_removes_dashes : forall latex_content,
  contains (lit "−") (latex_processing._fix_unicode_characters latex_content) = false
  /\ contains (lit "–") (latex_processing._fix_unicode_characters latex_content) = false
  /\ contains (lit "—") (latex_processing._fix_unicode_characters latex_content) = false.
Proof.
  intros s. unfold latex_processing._fix_unicode_characters.
  set (s1 := replace (lit "−") (lit "-") s).
  set (s2 := replace (lit "–") (lit "--") s1).
  assert (contains (lit "−") s1 = false) as H1.
  { exact (replace_removes_all "226" ["136"; "146"]%char (lit "-")
             ltac:(discriminate) s eq_refl). }
  assert (contains (lit "–") s2 = false) as H2.
  { exact (replace_removes_all "226" ["128"; "147"]%char (lit "--")
             ltac:(discriminate) s1 eq_refl). }
  repeat split.
  - apply (replace_no_new_occurrence "226" ["128"; "148"]%char (lit "---")
             ltac:(discriminate) (lit "−") _ eq_refl ltac:(discriminate)).
    apply (replace_no_new_occurrence "226" ["128"; "147"]%char (lit "--")
             ltac:(discriminate) (lit "−") _ eq_refl ltac:(discriminate)).
    exact H1.
  - apply (replace_no_new_occurrence "226" ["128"; "148"]%char (lit "---")
             ltac:(discriminate) (lit "–") _ eq_refl ltac:(discriminate)).
    exact H2.
  - exact (replace_removes_all "226" ["128"; "148"]%char (lit "---")
             ltac:(discriminate) s2 eq_refl).
Qed.

(** ** The text form of stage 1 *)

Import text_processing.

Lemma replace_no_hash : forall old new s,
  row_ok (old, new) = true -> no_hash s = true -> no_hash (replace old new s) = true.
Proof.
  intros [|x old] [|y new] s Hrow Hs; try discriminate.
  cbn [row_ok fst snd] in Hrow.
  destruct s as [|c s]; [reflexivity|].
  destruct (startswith (x :: old) (c :: s)) eqn:E.
  - rewrite (replace_hit _ _ _ _ E). exact Hrow.
  - rewrite replace_miss by exact E. exact Hs.
Qed.

Lemma replace_all_no_hash : forall table s,
  forallb row_ok table = true -> no_hash s = true ->
  no_hash (replace_all table s) = true.
Proof.
  unfold replace_all. induction table as [|[old new] table IH]; intros s Ht Hs.
  - exact Hs.
  - cbn [forallb] in Ht. apply andb_prop in Ht. destruct Ht as [Hrow Ht].
    cbn [fold_left fst snd]. apply IH; [exact Ht|]. now apply replace_no_hash.
Qed.

Lemma replace_hash_no_hash : forall s,
  no_hash (replace (lit "#") (lit "\#") s) = true.
Proof.
  intros [|c s]; [reflexivity|].
  destruct (startswith (lit "#") (c :: s)) eqn:E.
  - rewrite (replace_hit "#" [] _ _ E). reflexivity.
  - rewrite replace_miss by exact E. unfold no_hash.
    change (lit "#") with ["#"%char] in *. cbn [startswith] in *. now rewrite E.
Qed.

(** Escaping puts a backslash before every hash sign, and nothing after it
    starts a line with one: the heading test of the loop never holds. *)
Lemma processed_no_hash : forall line,
  startswith (lit "#") (processed line) = false.
Proof.
  intros line. apply negb_true_iff. fold (no_hash (processed line)).
  unfold processed, text_processing._fix_greek_letters,
    text_processing._fix_unicode_characters.
  apply replace_all_no_hash; [reflexivity|].
  apply replace_all_no_hash; [reflexivity|].
  unfold _escape_latex_characters.
  match goal with
  | |- no_hash (replace_all (?r1 :: ?r2 :: ?r3 :: ?r4 :: ?rest) ?s) = true =>
      change (replace_all (r1 :: r2 :: r3 :: r4 :: rest) s)
        with (replace_all rest
                (replace (lit "#") (lit "\#") (replace_all [r1; r2; r3] s)))
  end.
  apply replace_all_no_hash; [reflexivity|]. apply replace_hash_no_hash.
Qed.

Lemma markdown_lines_cons : forall current_frame frame_count raw rest,
  markdown_lines current_frame frame_count (raw :: rest)
  = if is_content raw
    then (if current_frame then [] else [begin_slide (frame_count + 1)])
         ++ emit_line raw
         ++ markdown_lines true
              (if current_frame then frame_count else frame_count + 1) rest
    else emit_line raw ++ markdown_lines current_frame frame_count rest.
Proof.
  intros cf n raw rest. cbn [markdown_lines]. unfold is_content, emit_line.
  cbv zeta. destruct (strip raw) as [|c line] eqn:Es; [reflexivity|].
  fold (is_image_line (c :: line)).
  destruct (is_image_line (c :: line)) eqn:Ei; cbn [negb].
  - destruct (_ && _); reflexivity.
  - fold (processed (c :: line)). rewrite processed_no_hash.
    destruct (if startswith (lit "\bibitem{") (processed (c :: line)) then _ else _);
      destruct cf; reflexivity.
Qed.

(** Inside a frame the loop opens no other: the lines are put out one by
    one and the frame is closed at the end. *)
Lemma markdown_lines_in_frame : forall lines frame_count,
  markdown_lines true frame_count lines
  = flat_map emit_line lines ++ [lit "\end{frame}"].
Proof.
  induction lines as [|raw rest IH]; intros n; [reflexivity|].
  rewrite markdown_lines_cons. cbn [flat_map app].
  destruct (is_content raw); rewrite IH, <- app_assoc; reflexivity.
Qed.

Lemma markdown_lines_before_frame : forall lines frame_count,
  exists pre post,
    lines = pre ++ post
    /\ forallb (fun raw => negb (is_content raw)) pre = true
    /\ match post with [] => True | raw :: _ => is_content raw = true end
    /\ markdown_lines false frame_count lines
       = flat_map emit_line pre
         ++ match post with
            | [] => []
            | _ :: _ => begin_slide (frame_count + 1)
                        :: flat_map emit_line post ++ [lit "\end{frame}"]
            end.
Proof.
  induction lines as [|raw rest IH]; intros n.
  - exists [], []. repeat split.
  - destruct (is_content raw) eqn:E.
    + exists [], (raw :: rest). repeat split; [exact E|].
      rewrite markdown_lines_cons, E, markdown_lines_in_frame.
      cbn [flat_map app]. now rewrite <- app_assoc.
    + destruct (IH n) as (pre & post & -> & Hpre & Hpost & Heq).
      exists (raw :: pre), post. repeat split.
      * cbn [forallb]. now rewrite E, Hpre.
      * exact Hpost.
      * rewrite markdown_lines_cons, E, Heq. cbn [flat_map].
        now rewrite <- app_assoc.
Qed.

(** X11. The text form gives at most one frame.  It is titled Slide 1, opens at
    the first content line and closes at the end of the text; a line that
    starts with a hash sign is a content line like any other, and image
    lines before the first content line stay outside the frame. *)
Theorem convert_markdown_to_latex_one_frame : forall markdown_text,
  exists pre post,
    split [nl] markdown_text = pre ++ post
    /\ forallb (fun raw => negb (is_content raw)) pre = true
    /\ match post with [] => True | raw :: _ => is_content raw = true end
    /\ convert_markdown_to_latex markdown_text
       = join [nl]
           (flat_map emit_line pre
            ++ match post with
               | [] => []
               | _ :: _ => lit "\begin{frame}{Slide 1}"
                           :: flat_map emit_line post ++ [lit "\end{frame}"]
               end).
Proof.
  intros s. unfold convert_markdown_to_latex.
  destruct (markdown_lines_before_frame (split [nl] s) 0)
    as (pre & post & Hs & Hpre & Hpost & Heq).
  exists pre, post. repeat split; try assumption. now rewrite Heq.
Qed.

Example heading_line_is_content :
  convert_markdown_to_latex (unlines [lit "# Results"; lit "text"; lit "## More"])
  = unlines [lit "\begin{frame}{Slide 1}"; lit "\# Results"; lit "text";
             lit "\#\# More"; lit "\end{frame}"].
Proof. vm_compute. reflexivity. Qed.

(** ** Escaping *)

Lemma replace_single : forall c new s,
  replace [c] new s = flat_map (fun x => if Ascii.eqb c x then new else [x]) s.
Proof.
  intros c new. induction s as [|x s IH]; [reflexivity|].
  unfold replace in *. cbn [replace_aux startswith length Nat.sub flat_map].
  rewrite andb_true_r, IH. now destruct (Ascii.eqb c x).
Qed.

Lemma flat_map_flat_map : forall (A B C : Type) (f : A -> list B) (g : B -> list C) l,
  flat_map g (flat_map f l) = flat_map (fun x => flat_map g (f x)) l.
Proof.
  intros A B C f g. induction l as [|x l IH]; [reflexivity|].
  cbn [flat_map]. now rewrite flat_map_app, IH.
Qed.

(** X21. Escaping works character by character.  The braces written for a
    circumflex are escaped by the rows that follow; those written for a
    tilde, the last row, stay.  A backslash is not escaped. *)
Theorem _escape_latex_characters_by_character : forall text,
  _escape_latex_characters text = flat_map escape_chr text.
Proof.
  intros text. unfold _escape_latex_characters, replace_all.
  cbn [fold_left fst snd].
  change (lit "&") with ["&"%char]. change (lit "%") with ["%"%char].
  change (lit "$") with ["$"%char]. change (lit "#") with ["#"%char].
  change (lit "^") with ["^"%char]. change (lit "_") with ["_"%char].
  change (lit "{") with ["{"%char]. change (lit "}") with ["}"%char].
  change (lit "~") with ["~"%char].
  rewrite !replace_single, !flat_map_flat_map.
  apply flat_map_ext. intros c.
  destruct c as [[] [] [] [] [] [] [] []]; vm_compute; reflexivity.
Qed.


(** *** Outside formulas *)

Lemma re_math_span_miss : forall c s,
  Ascii.eqb c "$" = false -> re_match re_math_span (c :: s) = None.
Proof.
  intros c s H. unfold re_match, re_math_span. cbn [items_m atoms_m atom_m].
  change (lit "$") with ["$"%char]. cbn [startswith].
  rewrite Ascii.eqb_sym, H. reflexivity.
Qed.

Lemma re_split_without_math : forall s,
  contains (lit "$") s = false -> re_split re_math_span s = [s].
Proof.
  unfold re_split. induction s as [|c s IH]; intros H; [reflexivity|].
  cbn [contains] in H. destruct (orb_false_elim _ _ H) as [Hc Hs].
  change (lit "$") with ["$"%char] in Hc. cbn [startswith] in Hc.
  rewrite andb_true_r, Ascii.eqb_sym in Hc.
  cbn [re_scan]. rewrite (re_math_span_miss c s Hc). cbn [split_tokens].
  now rewrite (IH Hs).
Qed.

(** X22. A text without a dollar sign has no formula: it is escaped as a
    whole. *)
Theorem _escape_latex_characters_smart_without_math : forall text,
  contains (lit "$") text = false ->
  _escape_latex_characters_smart text = _escape_latex_characters text.
Proof.
  intros text H. unfold _escape_latex_characters_smart. cbv zeta.
  rewrite (re_split_without_math text H). reflexivity.
Qed.

Lemma _escape_latex_characters_smart_without_math_witness :
  contains (lit "$") (lit "50% of a_b") = false
  /\ _escape_latex_characters_smart (lit "50% of a_b")
     = _escape_latex_characters (lit "50% of a_b").
Proof.
  split; [reflexivity|].
  apply (_escape_latex_characters_smart_without_math (lit "50% of a_b")).
  reflexivity.
Defined.

(** *** Straight quotes *)

Lemma replace_all_no_new_occurrence : forall M table s,
  M <> [] -> forallb (fresh_row M) table = true ->
  contains M s = false -> contains M (replace_all table s) = false.
Proof.
  intros M table s HM. unfold replace_all. revert s.
  induction table as [|[old new] table IH]; intros s Ht Hs; [exact Hs|].
  cbn [forallb] in Ht. apply andb_prop in Ht. destruct Ht as [Hrow Ht].
  cbn [fold_left fst snd]. apply IH; [exact Ht|].
  unfold fresh_row in Hrow. cbn [fst snd] in Hrow.
  destruct old as [|x old']; [discriminate|]. destruct new as [|y new']; [discriminate|].
  apply (replace_no_new_occurrence x old' (y :: new') ltac:(discriminate) M s Hrow HM Hs).
Qed.

(** X23. No straight double quote is left in the text: each becomes two
    backticks, and the row that writes two apostrophes finds none. *)
Theorem text_fix_unicode_characters_quotes : forall text,
  contains [dquote] (text_processing._fix_unicode_characters text) = false
  /\ contains [dquote] (convert_text_to_latex text) = false.
Proof.
  assert (forall text,
    contains [dquote] (text_processing._fix_unicode_characters text) = false) as H.
  { intros text. unfold text_processing._fix_unicode_characters.
    match goal with
    | |- contains _ (replace_all (?r1 :: ?r2 :: ?r3 :: ?r4 :: ?rest) ?s) = false =>
        change (replace_all (r1 :: r2 :: r3 :: r4 :: rest) s)
          with (replace_all rest
                  (replace [dquote] (lit "``") (replace_all [r1; r2; r3] s)))
    end.
    apply replace_all_no_new_occurrence; [discriminate | reflexivity |].
    exact (replace_removes_all dquote [] (lit "``") ltac:(discriminate) _ eq_refl). }
  intros text. split; [apply H|].
  unfold convert_text_to_latex. destruct text as [|c text]; [reflexivity|].
  cbv zeta. unfold text_processing._fix_greek_letters.
  apply replace_all_no_new_occurrence; [discriminate | reflexivity | apply H].
Qed.

(** ** The structured form of stage 1 *)

Lemma page_frames_frames : forall pages current_frame frame_count,
  page_frames current_frame frame_count pages
  = (if current_frame then [lit "\end{frame}"] else [])
    ++ frames_from (frame_count + 1) (dicts pages).
Proof.
  induction pages as [|[d|] rest IH]; intros cf n.
  - destruct cf; reflexivity.
  - cbn [page_frames dicts frames_from]. cbv zeta. rewrite IH.
    unfold frame_of. replace (n + 1 + 1) with (S (n + 1)) by lia.
    rewrite <- !app_assoc. reflexivity.
  - cbn [page_frames dicts]. apply IH.
Qed.

(** X12. The structured form is the contents frame followed by one closed frame
    for each dict entry, numbered by its rank among the dict entries; an
    entry that is no dict leaves no trace, and the images are not read. *)
Theorem create_basic_latex_structure_frames : forall pages imgs,
  create_basic_latex_structure {| markdown := MarkdownPages pages; images := imgs |}
  = join [nl] (contents_frame ++ frames_from 1 (dicts pages)).
Proof.
  intros pages imgs. unfold create_basic_latex_structure. cbn [markdown].
  now rewrite page_frames_frames.
Qed.

(** *** The page records *)

Lemma fold_add_image : forall i imgs info,
  fold_left (add_image i) imgs info
  = {| page_number := page_number info;
       title := title info;
       content_preview := content_preview info;
       has_images :=
         has_images info || negb (is_nil (filter (fun img => page img =? i) imgs));
       page_images :=
         page_images info ++ map entry_of (filter (fun img => page img =? i) imgs) |}.
Proof.
  intros i. induction imgs as [|img imgs IH]; intros info.
  - cbn [fold_left filter map is_nil negb]. rewrite orb_false_r, app_nil_r.
    now destruct info.
  - cbn [fold_left filter]. rewrite IH. unfold add_image.
    destruct (page img =? i); cbn [page_number title content_preview has_images
      page_images map is_nil negb].
    + rewrite orb_true_r. cbn [orb]. fold (entry_of img).
      now rewrite <- app_assoc.
    + reflexivity.
Qed.

Lemma page_infos_In : forall pages i imgs info,
  In info (page_infos i imgs pages) ->
  exists d, In (PageDict d) pages
    /\ i < page_number info
    /\ title info = page_title_of d (page_number info)
    /\ content_preview info = preview_of (text d)
    /\ page_images info
       = map entry_of (filter (fun img => page img =? page_number info - 1) imgs)
    /\ has_images info = negb (is_nil (page_images info)).
Proof.
  induction pages as [|[d|] rest IH]; intros i imgs info Hin.
  - destruct Hin.
  - cbn [page_infos] in Hin. cbv zeta in Hin. destruct Hin as [<-|Hin].
    + exists d. rewrite fold_add_image.
      cbn [page_number title content_preview has_images page_images orb app].
      replace (i + 1 - 1) with i by lia.
      repeat split; [now left | lia |].
      now destruct (filter _ imgs).
    + destruct (IH _ _ _ Hin) as (d' & Hd & Hlt & Hrest).
      exists d'. split; [now right|]. split; [lia | exact Hrest].
  - cbn [page_infos] in Hin.
    destruct (IH _ _ _ Hin) as (d' & Hd & Hlt & Hrest).
    exists d'. split; [now right|]. split; [lia | exact Hrest].
Qed.

(** X13. A page record lists the images of its own page, in the order of the
    image list, each under the last component of its path; the flag
    [has_images] is set when the list is not empty.  The page numbers start
    from one, the page of an image from zero. *)
Theorem extract_page_structure_images : forall data info,
  In info (extract_page_structure data) ->
  page_images info
  = map entry_of
      (filter (fun img => page img =? page_number info - 1) (images data))
  /\ has_images info = negb (is_nil (page_images info))
  /\ 0 < page_number info.
Proof.
  intros data info Hin. unfold extract_page_structure in Hin. cbv zeta in Hin.
  destruct (markdown data) as [pages|t]; [|destruct Hin].
  destruct (page_infos_In _ _ _ _ Hin) as (d & _ & Hlt & _ & _ & Himg & Hflag).
  repeat split; assumption.
Qed.

Lemma extract_page_structure_images_witness :
  exists info,
    In info
      (extract_page_structure
         {| markdown :=
              MarkdownPages [PageDict {| toc_items := None; text := lit "a" |}];
            images := [ {| path := lit "out/page_1_img_1.png"; page := 0 |};
                        {| path := lit "out/page_2_img_1.png"; page := 1 |} ] |})
    /\ page_images info
       = [ {| info_filename := lit "page_1_img_1.png";
              info_path := lit "out/page_1_img_1.png";
              info_page := 0 |} ]
    /\ has_images info = true
    /\ 0 < page_number info.
Proof.
  eexists. split; [left; reflexivity|].
  refine (extract_page_structure_images
            {| markdown :=
                 MarkdownPages [PageDict {| toc_items := None; text := lit "a" |}];
               images := [ {| path := lit "out/page_1_img_1.png"; page := 0 |};
                           {| path := lit "out/page_2_img_1.png"; page := 1 |} ] |}
            _ _).
  left. reflexivity.
Defined.

Lemma page_infos_titles : forall pages i imgs,
  forallb is_dict pages = true ->
  map title (page_infos i imgs pages) = frame_titles (i + 1) (dicts pages).
Proof.
  induction pages as [|[d|] rest IH]; intros i imgs Hall; try discriminate.
  - reflexivity.
  - cbn [page_infos dicts frame_titles map]. cbv zeta. rewrite fold_add_image.
    cbn [title]. f_equal. replace (S (i + 1)) with (S i + 1) by lia.
    now apply IH.
Qed.

Lemma page_infos_numbers : forall pages i imgs,
  forallb is_dict pages = true ->
  map page_number (page_infos i imgs pages) = seq (i + 1) (length pages).
Proof.
  induction pages as [|[d|] rest IH]; intros i imgs Hall; try discriminate.
  - reflexivity.
  - cbn [page_infos map length seq]. cbv zeta. rewrite fold_add_image.
    cbn [page_number]. f_equal. replace (S (i + 1)) with (S i + 1) by lia.
    now apply IH.
Qed.

(** X14. When every entry of the page list is a dict, the page records carry the
    titles of the frames of stage 1, page by page, under the numbers
    1, 2, ... *)
Theorem extract_page_structure_titles : forall pages imgs,
  forallb is_dict pages = true ->
  let data := {| markdown := MarkdownPages pages; images := imgs |} in
  map title (extract_page_structure data) = frame_titles 1 (dicts pages)
  /\ map page_number (extract_page_structure data) = seq 1 (length pages).
Proof.
  intros pages imgs Hall data. unfold extract_page_structure. cbn [data markdown images].
  split; [now apply page_infos_titles | now apply page_infos_numbers].
Qed.

Lemma extract_page_structure_titles_witness :
  let pages := [PageDict {| toc_items := Some [[lit "1"; lit "Intro"; lit "1"]];
                            text := lit "a" |};
                PageDict {| toc_items := None; text := lit "b" |}] in
  let data := {| markdown := MarkdownPages pages; images := [] |} in
  forallb is_dict pages = true
  /\ map title (extract_page_structure data) = [lit "Intro"; lit "Slide 2"]
  /\ map page_number (extract_page_structure data) = [1; 2].
Proof.
  split; [reflexivity|].
  apply (extract_page_structure_titles
           [PageDict {| toc_items := Some [[lit "1"; lit "Intro"; lit "1"]];
                        text := lit "a" |};
            PageDict {| toc_items := None; text := lit "b" |}] []).
  reflexivity.
Defined.

(** With an entry that is no dict in the list the default titles part:
    the frame counts the dicts, the page record the entries. *)
Example default_titles_differ :
  let data := {| markdown := MarkdownPages
                   [PageOther; PageDict {| toc_items := None; text := [] |}];
                 images := [] |} in
  create_basic_latex_structure data
  = unlines [lit "\begin{frame}{Contents}"; lit "    \tableofcontents";
             lit "\end{frame}"; []; lit "\begin{frame}{Slide 1}";
             lit "\end{frame}"]
  /\ map title (extract_page_structure data) = [lit "Slide 2"].
Proof. split; vm_compute; reflexivity. Qed.

Lemma len_prefix : forall s n, len (prefix n s) <= n.
Proof.
  unfold len. induction s as [|c s IH]; intros n; [cbn; lia|].
  cbn [prefix]. destruct (is_continuation c) eqn:E.
  - cbn [filter]. rewrite E. cbn [negb]. apply IH.
  - destruct n as [|k]; [cbn; lia|].
    cbn [filter]. rewrite E. cbn [negb length]. specialize (IH k). lia.
Qed.

Lemma len_app : forall a b, len (a ++ b) = len a + len b.
Proof. intros a b. unfold len. now rewrite filter_app, length_app. Qed.

Lemma prefix_all : forall s n, len s <= n -> prefix n s = s.
Proof.
  unfold len. induction s as [|c s IH]; intros n H; [reflexivity|].
  cbn [prefix]. cbn [filter] in H. destruct (is_continuation c); cbn [negb] in H.
  - now rewrite IH.
  - cbn [length] in H. destruct n as [|k]; [lia|]. rewrite IH; [reflexivity|lia].
Qed.

(** X15. The preview of a page is its text when that has at most 200
    characters, and has 203 characters otherwise: never more than 203. *)
Theorem content_preview_length : forall data info,
  In info (extract_page_structure data) ->
  len (content_preview info) <= 203.
Proof.
  intros data info Hin. unfold extract_page_structure in Hin. cbv zeta in Hin.
  destruct (markdown data) as [pages|t]; [|destruct Hin].
  destruct (page_infos_In _ _ _ _ Hin) as (d & _ & _ & _ & -> & _).
  unfold preview_of. destruct (200 <? len (text d)) eqn:E.
  - rewrite len_app. pose proof (len_prefix (text d) 200).
    change (len (lit "...")) with 3. lia.
  - apply Nat.ltb_ge in E. lia.
Qed.

Lemma content_preview_length_witness :
  exists info,
    In info
      (extract_page_structure
         {| markdown :=
              MarkdownPages
                [PageDict {| toc_items := None; text := repeat "x"%char 250 |}];
            images := [] |})
    /\ len (content_preview info) <= 203.
Proof.
  eexists. split; [left; reflexivity|].
  apply (content_preview_length
           {| markdown :=
                MarkdownPages
                  [PageDict {| toc_items := None; text := repeat "x"%char 250 |}];
              images := [] |}).
  left. reflexivity.
Defined.

(** ** The final pass *)

Import converter.

(** X16. The final pass fails only where the clean operation fails, with its
    error; a body it returns has no two lines with the same filename. *)
Theorem _finalize_latex_no_duplicate :
  forall (path_exists : str -> bool) (latex_content : str) (data : extracted_data),
    match clean_latex_response latex_content with
    | Raise e => _finalize_latex path_exists latex_content data = Raise e
    | Ok _ =>
        exists out,
          _finalize_latex path_exists latex_content data = Ok out
          /\ NoDup (filenames (split [nl] out))
    end.
Proof.
  intros pe s data. unfold _finalize_latex.
  destruct (clean_latex_response s) as [cleaned|e]; cbn [bind]; [|reflexivity].
  eexists. split; [reflexivity|].
  rewrite split_remove_duplicate_images. apply dedup_lines_fresh.
Qed.

(** ** The planner's reading of a response *)

(** X17. Whatever stands before the first opening brace and after the last
    closing brace is not read: on a response with an opening brace before a
    closing one the planner does what it does on the text from the one to
    the other, be it a plan or an exception. *)
Theorem parse_reads_between_braces :
  forall (json_loads : str -> loads_result) (pre body post : str),
    contains (lit "{") pre = false ->
    contains (lit "}") post = false ->
    let json_str := lit "{" ++ body ++ lit "}" in
    parse_image_analysis_response json_loads (pre ++ json_str ++ post)
    = parse_image_analysis_response json_loads json_str.
Proof.
  intros loads pre body post Hpre Hpost json_str. unfold json_str.
  rewrite (parse_between_braces loads pre body post Hpre Hpost).
  pose proof (parse_between_braces loads [] body [] eq_refl eq_refl) as H.
  cbn [app] in H. rewrite app_nil_r in H. now rewrite H.
Qed.

Lemma parse_reads_between_braces_witness :
  contains (lit "{") (lit "Plan: ") = false
  /\ contains (lit "}") (lit " done") = false
  /\ parse_image_analysis_response (json_decoder.loads 100)
       (lit "Plan: "
        ++ (lit "{" ++ dq "'image_decisions': {'a.png': {'action': 'REMOVE'}}"
            ++ lit "}")
        ++ lit " done")
     = parse_image_analysis_response (json_decoder.loads 100)
         (lit "{" ++ dq "'image_decisions': {'a.png': {'action': 'REMOVE'}}"
          ++ lit "}").
Proof.
  split; [reflexivity|]. split; [reflexivity|].
  apply (parse_reads_between_braces (json_decoder.loads 100) (lit "Plan: ")
           (dq "'image_decisions': {'a.png': {'action': 'REMOVE'}}")
           (lit " done")); reflexivity.
Defined.

(** ** Stage 3: the placement data and the files *)

Lemma slots_of_filter : forall filename pages acc,
  slots_of filename pages acc
  = acc ++ map (slot_of filename) (filter (lists_file filename) pages).
Proof.
  intros filename. unfold slots_of.
  induction pages as [|page pages IH]; intros acc.
  - cbn. now rewrite app_nil_r.
  - cbn [fold_left filter]. rewrite IH. fold (lists_file filename page).
    destruct (lists_file filename page); cbn [map].
    + now rewrite <- app_assoc.
    + reflexivity.
Qed.

Lemma files_loop_spec : forall imgs items acc,
  files_loop imgs items acc
  = if all_objects items
    then Done (acc ++ flat_map (files_for imgs) items)
    else AttributeError.
Proof.
  intros imgs. induction items as [|[filename decision] items IH]; intros acc.
  - cbn. now rewrite app_nil_r.
  - cbn [files_loop all_objects forallb snd flat_map]. fold (all_objects items).
    destruct decision; cbn [is_object andb]; try reflexivity.
    unfold files_for at 1. cbn [keeps fst snd].
    destruct (is_word _ _); [|apply IH].
    destruct (first_image filename imgs) as [img|]; rewrite IH;
      destruct (all_objects items); try reflexivity.
    now rewrite <- app_assoc.
Qed.

Lemma placement_loop_spec : forall nonzero pages items acc convs,
  if all_objects items
  then exists convs',
         placement_loop nonzero pages items acc convs
         = Done (acc ++ flat_map (slots_for pages) items, convs')
  else placement_loop nonzero pages items acc convs = AttributeError.
Proof.
  intros nonzero pages. induction items as [|[filename decision] items IH];
    intros acc convs.
  - cbn. exists convs. now rewrite app_nil_r.
  - cbn [placement_loop all_objects forallb snd flat_map]. fold (all_objects items).
    destruct decision; cbn [is_object andb]; try reflexivity.
    cbv zeta. unfold slots_for at 1. cbn [keeps fst snd].
    destruct (is_word (lit "KEEP_AS_IMAGE") _).
    + specialize (IH (slots_of filename pages acc) convs).
      destruct (all_objects items); [|exact IH].
      destruct IH as [convs' IH]. exists convs'. rewrite IH, slots_of_filter.
      now rewrite <- app_assoc.
    + cbn [app].
      destruct (is_word (lit "CONVERT_TO_LATEX") _ && truthy nonzero _); apply IH.
Qed.

(** X18. The two readers of the plan fail on the same plans: those whose
    decisions are no dict or hold a decision that is none. *)
Theorem plan_readers_fail_together :
  forall (nonzero : str -> bool) (pages : list page_info) (image_plan : json)
         (data : extracted_data),
    prepare_image_placement_data nonzero pages image_plan = AttributeError
    <-> get_images_to_place image_plan data = AttributeError.
Proof.
  intros nonzero pages plan data.
  unfold prepare_image_placement_data, get_images_to_place.
  destruct (decision_items plan) as [items|]; [|tauto].
  rewrite files_loop_spec.
  pose proof (placement_loop_spec nonzero pages items [] []) as H.
  destruct (all_objects items).
  - destruct H as [convs' ->]. split; discriminate.
  - rewrite H. tauto.
Qed.

Lemma first_image_Some : forall filename imgs img,
  first_image filename imgs = Some img ->
  In img imgs /\ basename (path img) = filename.
Proof.
  intros filename. induction imgs as [|x imgs IH]; intros img H; [discriminate|].
  cbn [first_image] in H. destruct (str_eqb (basename (path x)) filename) eqn:E.
  - injection H as <-. split; [now left | now apply str_eqb_eq].
  - destruct (IH _ H) as [Hin Hb]. split; [now right | exact Hb].
Qed.

Lemma first_image_None : forall filename imgs,
  first_image filename imgs = None ->
  forall img, In img imgs -> str_eqb (basename (path img)) filename = false.
Proof.
  intros filename. induction imgs as [|x imgs IH]; intros H img Hin; [destruct Hin|].
  cbn [first_image] in H. destruct (str_eqb (basename (path x)) filename) eqn:E;
    [discriminate|].
  destruct Hin as [<-|Hin]; [exact E | now apply IH].
Qed.

Lemma files_from_images : forall image_plan data files f,
  get_images_to_place image_plan data = Done files ->
  In f files ->
  exists img, In img (images data)
    /\ file_path f = path img
    /\ file_filename f = basename (path img).
Proof.
  intros plan data files f H Hin. unfold get_images_to_place in H.
  destruct (decision_items plan) as [items|]; [|discriminate].
  rewrite files_loop_spec in H. destruct (all_objects items); [|discriminate].
  injection H as <-. cbn [app] in Hin. apply in_flat_map in Hin.
  destruct Hin as ([filename decision] & _ & Hf). unfold files_for in Hf.
  cbn [fst snd] in Hf. destruct (keeps decision); [|destruct Hf].
  destruct (first_image filename (images data)) as [img|] eqn:E; [|destruct Hf].
  destruct Hf as [<-|[]]. destruct (first_image_Some _ _ _ E) as [Hi Hb].
  exists img. cbn [file_path file_filename]. now repeat split.
Qed.

(** *** The keys of a dict are distinct *)

Lemma dict_set_keys : forall key v d,
  map fst (dict_set key v d)
  = if mem key (map fst d) then map fst d else map fst d ++ [key].
Proof.
  intros key v. induction d as [|[k w] d IH]; [reflexivity|].
  cbn [dict_set map fst mem existsb]. fold (mem key (map fst d)).
  destruct (str_eqb k key) eqn:E.
  - apply str_eqb_eq in E. subst k.
    replace (str_eqb key key) with true by (symmetry; now apply str_eqb_eq).
    reflexivity.
  - replace (str_eqb key k) with false.
    + cbn [orb map fst]. rewrite IH. now destruct (mem key (map fst d)).
    + symmetry. destruct (str_eqb key k) eqn:E'; [|reflexivity].
      apply str_eqb_eq in E'. subst k.
      rewrite (proj2 (str_eqb_eq key key) eq_refl) in E. discriminate.
Qed.

Lemma dict_of_keys : forall members, NoDup (map fst (dict_of members)).
Proof.
  intros members. unfold dict_of.
  assert (forall d, NoDup (map fst d) ->
            NoDup (map fst (fold_left
                      (fun d kv => dict_set (fst kv) (snd kv) d) members d))) as H.
  { induction members as [|[k v] members IH]; intros d Hd; [exact Hd|].
    cbn [fold_left fst snd]. apply IH. rewrite dict_set_keys.
    destruct (mem k (map fst d)) eqn:E; [exact Hd|].
    apply NoDup_app; [exact Hd | repeat constructor; intros [] |].
    intros x Hx [<-|[]]. apply mem_false_not_In in E. contradiction. }
  apply H. constructor.
Qed.

Lemma decision_items_keys : forall image_plan items,
  decision_items image_plan = Done items -> NoDup (map fst items).
Proof.
  intros plan items H. unfold decision_items in H.
  destruct plan; try discriminate.
  destruct (dict_get _ _) as [[| | | | |decisions]|]; try discriminate;
    injection H as <-; [apply dict_of_keys | constructor].
Qed.

Lemma files_for_names : forall imgs items,
  NoDup (map fst items) ->
  NoDup (map file_filename (flat_map (files_for imgs) items))
  /\ forall x, In x (map file_filename (flat_map (files_for imgs) items)) ->
       In x (map fst items).
Proof.
  intros imgs. induction items as [|[k v] items IH]; intros Hnd.
  - split; [constructor | intros x []].
  - cbn [map fst] in Hnd. inversion Hnd as [|? ? Hk Hnd']; subst.
    destruct (IH Hnd') as [IH1 IH2]. cbn [flat_map map fst].
    unfold files_for at 1 3. cbn [fst snd].
    destruct (keeps v); [|split; [exact IH1 | intros x Hx; right; now apply IH2]].
    destruct (first_image k imgs);
      [|split; [exact IH1 | intros x Hx; right; now apply IH2]].
    cbn [app map file_filename]. split.
    + constructor; [|exact IH1]. intros Hin. apply Hk. now apply IH2.
    + intros x [<-|Hx]; [now left | right; now apply IH2].
Qed.

(** X19. Every file [get_images_to_place] returns is an image of the extracted content,
    listed under the last component of its path, and none is returned
    twice: the filenames of the result are distinct, and so are its
    paths. *)
Theorem get_images_to_place_sound : forall image_plan data files,
  get_images_to_place image_plan data = Done files ->
  (forall f, In f files ->
     exists img, In img (images data)
       /\ file_path f = path img
       /\ file_filename f = basename (path img))
  /\ NoDup (map file_filename files)
  /\ NoDup (map file_path files).
Proof.
  intros plan data files H.
  split; [intros f Hf; exact (files_from_images plan data files f H Hf)|].
  assert (NoDup (map file_filename files)) as Hnames.
  { unfold get_images_to_place in H.
    destruct (decision_items plan) as [items|] eqn:Ei; [|discriminate].
    rewrite files_loop_spec in H. destruct (all_objects items); [|discriminate].
    injection H as <-. cbn [app].
    apply files_for_names. now apply (decision_items_keys plan). }
  split; [exact Hnames|].
  assert (forall f, In f files -> file_filename f = basename (file_path f)) as Hb.
  { intros f Hf. destruct (files_from_images plan data files f H Hf)
      as (img & _ & -> & ->). reflexivity. }
  clear H. induction files as [|f files IH]; [constructor|].
  cbn [map] in *. inversion Hnames as [|? ? Hf Hnd]; subst.
  constructor.
  - intros Hin. apply Hf. apply in_map_iff in Hin. destruct Hin as (g & Hg & Hin).
    apply in_map_iff. exists g. split; [|exact Hin].
    rewrite (Hb g (or_intror Hin)), (Hb f (or_introl eq_refl)). now rewrite Hg.
  - apply IH; [exact Hnd|]. intros g Hg. apply Hb. now right.
Qed.

Lemma get_images_to_place_sound_witness :
  let data :=
    {| markdown := MarkdownPages [PageOther];
       images := [ {| path := lit "out/page_1_img_1.png"; page := 0 |} ] |} in
  let image_plan :=
    JObject [(lit "image_decisions",
              JObject [(lit "page_1_img_1.png",
                        JObject [(lit "action", JString (lit "KEEP_AS_IMAGE"))])])] in
  let files :=
    [ {| file_filename := lit "page_1_img_1.png";
         file_path := lit "out/page_1_img_1.png" |} ] in
  get_images_to_place image_plan data = Done files
  /\ (forall f, In f files ->
        exists img, In img (images data)
          /\ file_path f = path img
          /\ file_filename f = basename (path img))
  /\ NoDup (map file_filename files)
  /\ NoDup (map file_path files).
Proof.
  intros data image_plan files.
  assert (get_images_to_place image_plan data = Done files) as H
    by (vm_compute; reflexivity).
  split; [exact H|].
  exact (get_images_to_place_sound image_plan data files H).
Defined.

(** X20. The slots the prompt lists for the page records of the extracted
    content are slots of files the reader returns: a file the prompt asks
    to place is sent along. *)
Theorem listed_slots_have_files :
  forall (nonzero : str -> bool) (image_plan : json) (data : extracted_data)
         (placement : placement_data),
    prepare_image_placement_data nonzero (extract_page_structure data) image_plan
    = Done placement ->
    exists files,
      get_images_to_place image_plan data = Done files
      /\ forall s, In s (images_to_place placement) ->
           In (slot_filename s) (map file_filename files).
Proof.
  intros nonzero plan data pd H.
  unfold prepare_image_placement_data in H. unfold get_images_to_place.
  destruct (decision_items plan) as [items|]; [|discriminate].
  rewrite files_loop_spec.
  pose proof (placement_loop_spec nonzero (extract_page_structure data) items [] [])
    as Hloop.
  destruct (all_objects items); [|now rewrite Hloop in H].
  destruct Hloop as [convs Hloop]. rewrite Hloop in H. injection H as <-.
  eexists. split; [reflexivity|]. cbn [images_to_place app].
  intros s Hs. apply in_flat_map in Hs. destruct Hs as ([filename decision] & Hkv & Hs).
  unfold slots_for in Hs. cbn [fst snd] in Hs.
  destruct (keeps decision) eqn:Hkeep; [|destruct Hs].
  apply in_map_iff in Hs. destruct Hs as (page & <- & Hpage).
  apply filter_In in Hpage. destruct Hpage as [Hpage Hlists].
  cbn [slot_of slot_filename].
  unfold lists_file in Hlists. apply existsb_exists in Hlists.
  destruct Hlists as (info & Hinfo & Hname). apply str_eqb_eq in Hname.
  unfold extract_page_structure in Hpage. cbv zeta in Hpage.
  destruct (markdown data) as [pages|t]; [|destruct Hpage].
  destruct (page_infos_In _ _ _ _ Hpage) as (d & _ & _ & _ & _ & Himgs & _).
  rewrite Himgs in Hinfo. apply in_map_iff in Hinfo.
  destruct Hinfo as (img & <- & Himg). apply filter_In in Himg.
  destruct Himg as [Himg _]. cbn [entry_of info_filename] in Hname.
  apply in_map_iff.
  destruct (first_image filename (images data)) as [img'|] eqn:E.
  - exists {| file_filename := filename; file_path := path img' |}.
    split; [reflexivity|]. apply in_flat_map. exists (filename, decision).
    split; [exact Hkv|]. unfold files_for. cbn [fst snd]. rewrite Hkeep, E.
    now left.
  - pose proof (first_image_None _ _ E img Himg) as Hno.
    rewrite (proj2 (str_eqb_eq _ _) Hname) in Hno. discriminate.
Qed.

Lemma listed_slots_have_files_witness :
  let data :=
    {| markdown :=
         MarkdownPages [PageDict {| toc_items := None; text := lit "a" |}];
       images := [ {| path := lit "out/page_1_img_1.png"; page := 0 |} ] |} in
  let image_plan :=
    JObject [(lit "image_decisions",
              JObject [(lit "page_1_img_1.png",
                        JObject [(lit "action", JString (lit "KEEP_AS_IMAGE"))])])] in
  let placement :=
    {| images_to_place :=
         [ {| slot_filename := lit "page_1_img_1.png";
              slot_page := 1;
              slot_page_title := lit "Slide 1";
              slot_content_preview := lit "a" |} ];
       latex_conversions := [];
       page_structure := extract_page_structure data |} in
  prepare_image_placement_data (fun _ => true) (extract_page_structure data)
    image_plan
  = Done placement
  /\ exists files,
       get_images_to_place image_plan data = Done files
       /\ forall s, In s (images_to_place placement) ->
            In (slot_filename s) (map file_filename files).
Proof.
  intros data image_plan placement.
  assert (prepare_image_placement_data (fun _ => true)
            (extract_page_structure data) image_plan = Done placement) as H
    by (vm_compute; reflexivity).
  split; [exact H|].
  exact (listed_slots_have_files (fun _ => true) image_plan data placement H).
Defined.

(** The converse fails: an image of a page that is no dict is sent along
    and not listed. *)
Example unlisted_file_is_sent :
  let data := {| markdown := MarkdownPages [PageOther];
                 images := [ {| path := lit "out/page_1_img_1.png"; page := 0 |} ] |} in
  let image_plan :=
    JObject [(lit "image_decisions",
              JObject [(lit "page_1_img_1.png",
                        JObject [(lit "action", JString (lit "KEEP_AS_IMAGE"))])])] in
  prepare_image_placement_data (fun _ => true) (extract_page_structure data) image_plan
  = Done {| images_to_place := []; latex_conversions := []; page_structure := [] |}
  /\ get_images_to_place image_plan data
     = Done [ {| file_filename := lit "page_1_img_1.png";
                 file_path := lit "out/page_1_img_1.png" |} ].
Proof. split; vm_compute; reflexivity. Qed.

(** ** The formula pass *)

Lemma contains_skipn : forall M k s,
  contains M s = false -> contains M (skipn k s) = false.
Proof.
  intros M. induction k as [|k IH]; intros [|c s] H; try exact H.
  cbn [skipn]. apply IH. cbn [contains] in H.
  now destruct (orb_false_elim _ _ H).
Qed.

Lemma contains_firstn : forall M n s,
  contains M s = false -> contains M (firstn n s) = false.
Proof.
  intros M n s H. destruct (contains M (firstn n s)) eqn:E; [|reflexivity].
  rewrite <- (firstn_skipn n s) in H.
  now rewrite (contains_app_l _ _ _ E) in H.
Qed.

(** A substitution whose replacement gives back the matched text, on a body
    without [M], changes nothing. *)
Lemma re_sub_fixed : forall r f M,
  (forall s n gs, contains M s = false -> re_match r s = Some (n, gs) ->
     n <> 0 /\ f (firstn n s) gs = firstn n s) ->
  forall s, contains M s = false -> re_sub r f s = s.
Proof.
  intros r f M Hf s. remember (length s) as k eqn:Hk. revert s Hk.
  induction k as [k IH] using lt_wf_ind. intros [|c t] Hk H; [reflexivity|].
  destruct (re_match r (c :: t)) as [[n gs]|] eqn:E.
  - destruct (Hf _ _ _ H E) as [Hn Hw]. destruct n as [|n]; [contradiction|].
    rewrite (re_sub_hit _ _ _ _ _ _ E), Hw.
    rewrite (IH (length (skipn (S n) (c :: t)))).
    + apply firstn_skipn.
    + subst k. cbn [skipn length]. rewrite length_skipn. lia.
    + reflexivity.
    + now apply contains_skipn.
  - rewrite (re_sub_miss _ _ _ _ E). f_equal.
    apply (IH (length t)); [subst k; cbn; lia | reflexivity |].
    cbn [contains] in H. now destruct (orb_false_elim _ _ H).
Qed.

(** X24. A body without a text macro passes the formula pass unchanged: an
    align environment is rewritten only when it holds one. *)
Theorem _fix_math_environments_without_text : forall latex_content,
  contains (lit "\text{") latex_content = false ->
  _fix_math_environments latex_content = latex_content.
Proof.
  intros s H. unfold _fix_math_environments.
  apply (re_sub_fixed re_align fix_align_environment (lit "\text{")); [|exact H].
  clear s H. intros s n gs H Hm.
  pose proof (contains_firstn _ n _ H) as Hfirst.
  apply re_match_sound in Hm.
  destruct Hm as (ws & Hws & -> & Hcut & _ & ->).
  unfold re_align in Hws. inv_den.
  cbn [concat groups_of] in *. rewrite !app_nil_r in *.
  split; [rewrite length_app; cbn; lia|].
  unfold fix_align_environment. cbn [grp nth Nat.sub]. cbv zeta.
  match goal with
  | |- (if contains _ ?w then _ else _) = _ =>
      destruct (contains (lit "\text{") w) eqn:E; [|reflexivity]
  end.
  rewrite Hcut in Hfirst.
  match type of Hfirst with
  | contains _ (?a ++ ?w ++ ?b) = false =>
      rewrite (contains_app_r _ a _ (contains_app_l _ w b E)) in Hfirst
  end.
  discriminate.
Qed.

Lemma _fix_math_environments_without_text_witness :
  contains (lit "\text{")
    (unlines [lit "\begin{align*}"; lit "a &= b \\"; lit "c &= d";
              lit "\end{align*}"]) = false
  /\ _fix_math_environments
       (unlines [lit "\begin{align*}"; lit "a &= b \\"; lit "c &= d";
                 lit "\end{align*}"])
     = unlines [lit "\begin{align*}"; lit "a &= b \\"; lit "c &= d";
                lit "\end{align*}"].
Proof.
  split; [reflexivity|].
  apply (_fix_math_environments_without_text
           (unlines [lit "\begin{align*}"; lit "a &= b \\"; lit "c &= d";
                     lit "\end{align*}"])).
  reflexivity.
Defined.

(** With a text macro in it, the environment is split. *)
Example _fix_math_environments_splits :
  _fix_math_environments
    (lit "\begin{align*}a &= b \\ \text{where } b > 0\end{align*}")
  = unlines [lit "\begin{align*}"; lit "a &= b"; lit "\end{align*}"; [];
             lit "\text{where } b > 0"].
Proof. vm_compute. reflexivity. Qed.
